(** * plain_vit: the metrics utilities, the driver's step arithmetic and the
      Vision Transformer's construction and forward contract.

    The Python sources are [main.py] (driver, [AverageMeter], [ProgressMeter])
    and [simple_vit.py] ([posemb_sincos_2d], [SimpleVisionTransformer]).

    Conventions of the embedding
    - a Python [int] is a [Z]; a Python number that may be a float (meter
      values, accuracies, the quotient of a true division) is an exact rational
      [Q]: rounding of binary floating point is not modelled;
    - a tensor entry is a real number [R]; a vector is a [list R].  Division
      of reals is total, so where torch would produce NaN or an infinity
      (the frequency [0 / 0] of [posemb_sincos_2d] at [dim = 4], a mean over
      no tokens, non-finite pixels) the model does not follow it;
    - a raised exception is the [Raise] case of [result];
    - an object that a method mutates is passed in and returned. *)

From Stdlib Require Import ZArith QArith Qround Qabs String Ascii List Bool Lia Lqa.
From Stdlib Require Import Reals Lra.
From Stdlib Require Import DecimalString DecimalNat DecimalZ DecimalFacts.
From stdpp Require Import gmap.
Import ListNotations.

Local Open Scope string_scope.
Local Open Scope Z_scope.

(* String concatenation and list prefixes unfold on constructors, as in the
   Standard Library. *)
#[local] Arguments String.append !_ _ / : simpl nomatch.
#[local] Arguments firstn {A} !_ !_ / : simpl nomatch.

(** ** Python exceptions and results *)

(** The exceptions that the modelled code raises.  [Unmodelled] marks a call
    that leaves the modelled subset of a built-in (a format spec that the
    sources never use): Python may well return there. *)

Inductive exn : Type :=
| AssertionError (msg : string)
| ZeroDivisionError
| ValueError (msg : string)
| KeyError (key : string)
| IndexError (msg : string)
| AttributeError (name : string)
| RuntimeError (msg : string)
| Unmodelled (what : string).

Inductive result (A : Type) : Type :=
| Ok (a : A)
| Raise (e : exn).

Arguments Ok {A} a.
Arguments Raise {A} e.

Definition bind {A B : Type} (r : result A) (k : A -> result B) : result B :=
  match r with
  | Ok a => k a
  | Raise e => Raise e
  end.

Notation "x <- r ;; k" := (bind r (fun x => k))
  (at level 100, r at next level, right associativity).
Notation "r ;;; k" := (bind r (fun _ => k))
  (at level 100, right associativity).

(** [torch._assert(condition, message)] and the [assert] statement. *)
Definition torch_assert (condition : bool) (message : string) : result unit :=
  if condition then Ok tt else Raise (AssertionError message).

(** [a % b] and [a // b] on ints: the remainder takes the sign of the
    divisor and the quotient is rounded down, as [Z.modulo] and [Z.div] do. *)
Definition py_mod (a b : Z) : result Z :=
  if b =? 0 then Raise ZeroDivisionError else Ok (a mod b).

Definition py_floordiv (a b : Z) : result Z :=
  if b =? 0 then Raise ZeroDivisionError else Ok (a / b).

(** [math.sqrt(num / den)] on ints, as far as its outcome goes: the division
    raises on a zero divisor, the square root on a negative quotient. *)
Definition math_sqrt_ratio (num den : Z) : result unit :=
  if den =? 0 then Raise ZeroDivisionError
  else if num * den <? 0 then Raise (ValueError "math domain error")
  else Ok tt.

(** [a / b] on numbers: true division, [ZeroDivisionError] on a zero divisor. *)
Definition truediv (a b : Q) : result Q :=
  if Qeq_bool b 0 then Raise ZeroDivisionError else Ok (a / b)%Q.

(** ** Python text: [str] of an int and [str.format] *)

(** [str(z)] for an int: decimal digits, a leading minus sign when negative. *)
Definition str_int (z : Z) : string := NilZero.string_of_int (Z.to_int z).

Definition is_digit (c : ascii) : bool :=
  ((48 <=? nat_of_ascii c) && (nat_of_ascii c <=? 57))%nat.

(** The longest prefix of decimal digits, and the rest. *)
Fixpoint span_digits (s : string) : string * string :=
  match s with
  | String c s' =>
      if is_digit c
      then let (d, r) := span_digits s' in (String c d, r)
      else (EmptyString, s)
  | EmptyString => (EmptyString, EmptyString)
  end.

Fixpoint repeat_char (c : ascii) (n : nat) : string :=
  match n with
  | O => EmptyString
  | S n' => String c (repeat_char c n')
  end.

(** The value of a digit string as a field width (0 when empty). *)
Definition width_of (digits : string) : Z :=
  match NilEmpty.uint_of_string digits with
  | Some u => Z.of_uint u
  | None => 0
  end.

(** [format(z, spec)] for an int and the format specs of the shape
    [0][width][d]: without the [0] flag the text of [z] is right-aligned in
    [width] columns and padded with spaces; with it the padding is zeros,
    placed after the sign.  Any other spec is outside the modelled subset. *)
Definition format_int (z : Z) (spec : string) : result string :=
  let (zero, rest) :=
    match spec with
    | String "0"%char r => (true, r)
    | _ => (false, spec)
    end in
  let (digits, ty) := span_digits rest in
  if String.eqb ty "" || String.eqb ty "d" then
    let body := str_int z in
    let pad := Z.to_nat (width_of digits - Z.of_nat (String.length body)) in
    Ok (if zero
        then if z <? 0
             then "-" ++ repeat_char "0"%char pad ++ str_int (- z)
             else repeat_char "0"%char pad ++ body
        else repeat_char " "%char pad ++ body)
  else Raise (Unmodelled "format spec of an int").

(** Every character of [s] passes the test [p]. *)
Fixpoint all_chars (p : ascii -> bool) (s : string) : bool :=
  match s with
  | EmptyString => true
  | String c s' => p c && all_chars p s'
  end.

Definition is_brace (c : ascii) : bool := Ascii.eqb c "{" || Ascii.eqb c "}".

(** The characters that end the argument name of a replacement field before
    its colon: [!] opens a conversion, [.] an attribute access and [[] an
    index. *)
Definition is_field_operator (c : ascii) : bool :=
  Ascii.eqb c "!" || Ascii.eqb c "." || Ascii.eqb c "[".

(** The values handed to [str.format] here. *)
Inductive pyval : Type :=
| PyInt (z : Z)
| PyNum (q : Q)
| PyStr (s : string)
| PyObj (repr : string).

(** [format(v, spec)].  [format_number] is Python's rendering of a number under
    a float presentation spec ([6.3f], [.4e], [.3f]), which this development
    takes as given. *)
Definition format_value (format_number : Q -> string -> result string)
    (v : pyval) (spec : string) : result string :=
  match v with
  | PyInt z => format_int z spec
  | PyNum q => format_number q spec
  | PyStr s =>
      if String.eqb spec "" then Ok s
      else Raise (Unmodelled "format spec of a str")
  | PyObj r =>
      if String.eqb spec "" then Ok r
      else Raise (Unmodelled "format spec of an object")
  end.

(** The text before the first colon, and the text after it. *)
Fixpoint split_colon (s : string) : string * string :=
  match s with
  | EmptyString => (EmptyString, EmptyString)
  | String c s' =>
      if Ascii.eqb c ":" then (EmptyString, s')
      else let (n, sp) := split_colon s' in (String c n, sp)
  end.

(** [s.format( *args, **kwargs)] for replacement fields [{name:spec}] and
    [{:spec}]: literal text is copied, a field with an empty name takes the
    next positional argument, a named field is looked up in [kwargs].
    Brace escapes, nested fields, conversions ([!r]) and attribute or index
    access ([.real], [[0]]) are not used by the sources and are not modelled:
    the text before the first colon is taken whole as the name, which is
    Python's reading when it holds none of [!], [.] and [[].  [field] holds
    the text of the field being read. *)
Fixpoint format_go (fv : pyval -> string -> result string)
    (args : list pyval) (kwargs : string -> option pyval)
    (s : string) (field : option string) : result string :=
  match s with
  | EmptyString =>
      match field with
      | None => Ok EmptyString
      | Some _ => Raise (ValueError "expected '}' before end of string")
      end
  | String c s' =>
      match field with
      | None =>
          if Ascii.eqb c "{" then format_go fv args kwargs s' (Some EmptyString)
          else if Ascii.eqb c "}"
          then Raise (ValueError "Single '}' encountered in format string")
          else rest <- format_go fv args kwargs s' None ;; Ok (String c rest)
      | Some f =>
          if Ascii.eqb c "}" then
            let (nm, spec) := split_colon f in
            if String.eqb nm "" then
              match args with
              | v :: args' =>
                  txt <- fv v spec ;;
                  rest <- format_go fv args' kwargs s' None ;;
                  Ok (txt ++ rest)
              | [] => Raise (IndexError "Replacement index out of range for positional args tuple")
              end
            else
              match kwargs nm with
              | Some v =>
                  txt <- fv v spec ;;
                  rest <- format_go fv args kwargs s' None ;;
                  Ok (txt ++ rest)
              | None => Raise (KeyError nm)
              end
          else format_go fv args kwargs s' (Some (f ++ String c EmptyString))
      end
  end.

Definition str_format (format_number : Q -> string -> result string)
    (s : string) (args : list pyval) (kwargs : string -> option pyval)
    : result string :=
  format_go (format_value format_number) args kwargs s None.

(** [sep.join(entries)]. *)
Fixpoint join (sep : string) (entries : list string) : string :=
  match entries with
  | [] => EmptyString
  | [e] => e
  | e :: rest => e ++ sep ++ join sep rest
  end.

(** A list comprehension whose element expression may raise. *)
Fixpoint map_result {A B : Type} (f : A -> result B) (l : list A)
    : result (list B) :=
  match l with
  | [] => Ok []
  | a :: l' => b <- f a ;; bs <- map_result f l' ;; Ok (b :: bs)
  end.

(** ** main.py: Summary and AverageMeter *)

Inductive Summary : Type := NONE | AVERAGE | SUM | COUNT.

(** What the attribute [summary_type] may hold: a member of the enumeration,
    or any other object ([summary] compares with [is] and has an [else]). *)
Inductive summary_kind : Type :=
| Member (s : Summary)
| NotAMember (repr : string).

Module AverageMeter.

Record t : Type := mk {
  name : string;
  fmt : string;
  summary_type : summary_kind;
  device : string;
  val : Q;
  avg : Q;
  sum : Q;
  count : Q
}.

(** [reset]: the four numeric attributes are set to 0. *)
Definition reset (self : t) : t :=
  mk (name self) (fmt self) (summary_type self) (device self) 0 0 0 0.

(** [__init__]: stores its four arguments and calls [reset]. *)
Definition init (name fmt : string) (summary_type : summary_kind)
    (device : string) : t :=
  reset (mk name fmt summary_type device 0 0 0 0).

(** [update(val, n)]: three assignments, then [self.avg = self.sum /
    self.count].  The division raises on a zero count; the three
    assignments before it have already taken place, [avg] keeps its old
    value.  The pair is the meter after the call and the call's outcome. *)
Definition update (self : t) (v n : Q) : t * result unit :=
  let s1 := mk (name self) (fmt self) (summary_type self) (device self)
               v (avg self) (sum self + v * n)%Q (count self + n)%Q in
  match truediv (sum s1) (count s1) with
  | Ok a =>
      (mk (name s1) (fmt s1) (summary_type s1) (device s1)
          (val s1) a (sum s1) (count s1), Ok tt)
  | Raise e => (s1, Raise e)
  end.

(** The meter after a sequence of [update(value, weight)] calls, each call
    made on the object as the previous one left it (returned or raised). *)
Definition updates (self : t) (calls : list (Q * Q)) : t :=
  fold_left (fun m c => fst (update m (fst c) (snd c))) calls self.

(** The same calls in a straight line, where the first raise ends the
    sequence. *)
Fixpoint run_updates (self : t) (calls : list (Q * Q)) : result t :=
  match calls with
  | [] => Ok self
  | c :: rest =>
      match update self (fst c) (snd c) with
      | (m, Ok _) => run_updates m rest
      | (_, Raise e) => Raise e
      end
  end.

(** [self.__dict__], as the keyword arguments of [format]. *)
Definition dict (self : t) (key : string) : option pyval :=
  if String.eqb key "name" then Some (PyStr (name self))
  else if String.eqb key "fmt" then Some (PyStr (fmt self))
  else if String.eqb key "summary_type" then
    Some (PyObj match summary_type self with
                | Member NONE => "Summary.NONE"
                | Member AVERAGE => "Summary.AVERAGE"
                | Member SUM => "Summary.SUM"
                | Member COUNT => "Summary.COUNT"
                | NotAMember r => r
                end)
  else if String.eqb key "device" then Some (PyObj (device self))
  else if String.eqb key "val" then Some (PyNum (val self))
  else if String.eqb key "avg" then Some (PyNum (avg self))
  else if String.eqb key "sum" then Some (PyNum (sum self))
  else if String.eqb key "count" then Some (PyNum (count self))
  else None.

(** [__str__]. *)
Definition str (format_number : Q -> string -> result string) (self : t)
    : result string :=
  let fmtstr := "{name} {val" ++ fmt self ++ "} ({avg" ++ fmt self ++ "})" in
  str_format format_number fmtstr [] (dict self).

(** [summary]. *)
Definition summary (format_number : Q -> string -> result string)
    (self : t) : result string :=
  fmtstr <-
    match summary_type self with
    | Member NONE => Ok ""
    | Member AVERAGE => Ok "{name} {avg:.3f}"
    | Member SUM => Ok "{name} {sum:.3f}"
    | Member COUNT => Ok "{name} {count:.3f}"
    | NotAMember r => Raise (ValueError ("invalid summary type " ++ r))
    end ;;
  str_format format_number fmtstr [] (dict self).

End AverageMeter.

(** ** main.py: ProgressMeter *)

Module ProgressMeter.

Record t : Type := mk {
  batch_fmtstr : string;
  meters : list AverageMeter.t;
  prefix : string
}.

(** [_get_batch_fmtstr(num_batches)]. *)
Definition _get_batch_fmtstr (format_number : Q -> string -> result string)
    (num_batches : Z) : result string :=
  let num_digits := String.length (str_int (num_batches / 1)) in
  let fmt := "{:" ++ str_int (Z.of_nat num_digits) ++ "d}" in
  total <- str_format format_number fmt [PyInt num_batches] (fun _ => None) ;;
  Ok ("[" ++ fmt ++ "/" ++ total ++ "]").

(** [__init__(num_batches, meters, prefix)]. *)
Definition init (format_number : Q -> string -> result string)
    (num_batches : Z) (meters : list AverageMeter.t) (prefix : string)
    : result t :=
  f <- _get_batch_fmtstr format_number num_batches ;;
  Ok (mk f meters prefix).

(** [display(batch)]: the line handed to [print].  The meters are the
    objects the list refers to, in their state at the time of the call. *)
Definition display (format_number : Q -> string -> result string)
    (self : t) (batch : Z) : result string :=
  counter <- str_format format_number (batch_fmtstr self) [PyInt batch]
                        (fun _ => None) ;;
  rendered <- map_result (AverageMeter.str format_number) (meters self) ;;
  Ok (join (String (ascii_of_nat 9) "") ((prefix self ++ counter) :: rendered)).

(** [display_summary()]. *)
Definition display_summary (format_number : Q -> string -> result string)
    (self : t) : result string :=
  rendered <- map_result (AverageMeter.summary format_number) (meters self) ;;
  Ok (join " " (" *" :: rendered)).

End ProgressMeter.

(** Zero padding as [str.zfill] and the [0] flag do it: zeros on the left, up to
    [width] characters, after the sign. *)
Definition zfill (width : nat) (z : Z) : string :=
  let pad := (width - String.length (str_int z))%nat in
  if z <? 0 then "-" ++ repeat_char "0"%char pad ++ str_int (- z)
  else repeat_char "0"%char pad ++ str_int z.

(** Right alignment with spaces, as [str.rjust]. *)
Definition rjust (width : nat) (s : string) : string :=
  repeat_char " "%char (width - String.length s) ++ s.

(** A stand-in for Python's float formatting, for evaluating examples: the
    decimal text of the integer part. *)
Definition format_number_floor (q : Q) (spec : string) : result string :=
  Ok (str_int (Qfloor q)).

(** The sums the specification writes: [sum(value_i * weight_i)] and
    [sum(weight_i)]. *)
Definition Qsum (l : list Q) : Q := fold_right Qplus 0%Q l.

Definition weighted_sum (calls : list (Q * Q)) : Q :=
  Qsum (map (fun c => fst c * snd c)%Q calls).

Definition total_weight (calls : list (Q * Q)) : Q :=
  Qsum (map snd calls).

(** ** main.py: the step arithmetic of [main_worker] *)

(** [round(q)]: the nearest integer, a tie going to the even neighbour. *)
Definition py_round (q : Q) : Z :=
  let f := Qfloor q in
  match (q - inject_Z f ?= 1 # 2)%Q with
  | Lt => f
  | Gt => f + 1
  | Eq => if Z.even f then f else f + 1
  end.

(** [round(n * epoch / args.total_batch_size)] on ints: a true division,
    then [round]. *)
Definition steps_at (n epoch total_batch_size : Z) : result Z :=
  q <- truediv (inject_Z (n * epoch)) (inject_Z total_batch_size) ;;
  Ok (py_round q).

(** [main_worker], the four lines after the datasets are built:
    [total_steps], then the set comprehension over [args.log_epoch], then
    [args.specified_steps.add(total_steps)].  The result is [total_steps]
    and [args.specified_steps]. *)
Definition main_worker_steps (n epochs total_batch_size : Z)
    (log_epoch : list Z) : result (Z * gset Z) :=
  total_steps <- steps_at n epochs total_batch_size ;;
  specified <- map_result (fun epoch => steps_at n epoch total_batch_size)
                          log_epoch ;;
  Ok (total_steps, (list_to_set specified : gset Z) ∪ {[ total_steps ]}).

(** ** main.py: [best_acc1] in [main_worker] and in [train] *)

(** The module-level variables: [best_acc1 = 0] at import time. *)
Record globals : Type := { best_acc1 : Q }.

Definition module_globals : globals := {| best_acc1 := 0 |}.

(** The entries of a checkpoint file that this part reads or writes. *)
Record checkpoint : Type := {
  ckpt_step : Z;
  ckpt_best_acc1 : Q
}.

(** [main_worker], the resume block.  The function declares
    [global best_acc1], so the assignment from the checkpoint writes the
    module-level variable; [args.start_step] is set from the checkpoint.
    [resume] is the checkpoint loaded from [args.resume], when the option is
    set and the file exists. *)
Definition main_worker_resume (g : globals) (start_step : Z)
    (resume : option checkpoint) : globals * Z :=
  match resume with
  | Some c => ({| best_acc1 := ckpt_best_acc1 c |}, ckpt_step c)
  | None => (g, start_step)
  end.

Definition Qlt_bool (a b : Q) : bool := negb (Qle_bool b a).

Definition Qmax (a b : Q) : Q := if Qlt_bool a b then b else a.

(** One evaluation inside the loop of [train]: [is_best = acc1 > best_acc1],
    [best_acc1 = max(acc1, best_acc1)], and the checkpoint that is saved.
    [best] is the variable [best_acc1] that the loop body reads. *)
Definition train_evaluate (step : Z) (best acc1 : Q)
    : Q * (bool * checkpoint) :=
  let is_best := Qlt_bool best acc1 in
  let best' := Qmax acc1 best in
  (best', (is_best, {| ckpt_step := step; ckpt_best_acc1 := best' |})).

Fixpoint train_loop (best : Q) (evals : list (Z * Q))
    : list (bool * checkpoint) :=
  match evals with
  | [] => []
  | (step, acc1) :: rest =>
      let (best', saved) := train_evaluate step best acc1 in
      saved :: train_loop best' rest
  end.

(** [train]: the function has no [global] declaration and assigns
    [best_acc1 = 0] before the loop, which makes [best_acc1] a local variable
    of [train]; the module-level variable is neither read nor written.
    [evals] are the evaluation events of the run: the step and the accuracy
    that [validate] returned.  The result is the module state after the call
    and, per evaluation, [is_best] and the checkpoint passed to
    [save_checkpoint]. *)
Definition train (g : globals) (evals : list (Z * Q))
    : globals * list (bool * checkpoint) :=
  let best_acc1_local := 0%Q in
  (g, train_loop best_acc1_local evals).

(** [main_worker] from the resume block on, followed by [train]. *)
Definition resume_and_train (start_step : Z) (resume : option checkpoint)
    (evals : list (Z * Q)) : globals * list (bool * checkpoint) :=
  let (g, _) := main_worker_resume module_globals start_step resume in
  train g evals.

(** ** simple_vit.py: tensors *)

Abbreviation vector := (list R).
Abbreviation matrix := (list (list R)).
Abbreviation tensor3 := (list (list (list R))).

(** The list [f 0, ..., f (n - 1)]. *)
Definition tabulate {A : Type} (n : nat) (f : nat -> A) : list A :=
  map f (seq 0 n).

Definition Rsum (l : list R) : R := fold_right Rplus 0%R l.

Definition zeros (n : nat) : vector := repeat 0%R n.

Definition zeros2 (rows cols : nat) : matrix := repeat (zeros cols) rows.

(** [torch.arange(n)]: the ints [0 .. n - 1]; a negative bound is rejected. *)
Definition arange (n : Z) : result (list Z) :=
  if n <? 0
  then Raise (RuntimeError "upper bound and lower bound inconsistent with step sign")
  else Ok (map Z.of_nat (seq 0 (Z.to_nat n))).

(** [torch.meshgrid(a, b, indexing="ij")]: two [len(a) x len(b)] grids, the
    first constant along each row, the second constant along each column. *)
Definition meshgrid_ij (a b : list Z) : list (list Z) * list (list Z) :=
  (map (fun i => map (fun _ => i) b) a, map (fun _ => b) a).

(** [m.flatten()] of a 2-D tensor: its rows one after the other. *)
Definition flatten {A : Type} (m : list (list A)) : list A := concat m.

(** [torch.cat(ms, dim=1)] of 2-D tensors with the same number of rows. *)
Definition cat1 (ms : list matrix) : matrix :=
  match ms with
  | [] => []
  | m :: rest => fold_left (zip_with (@app R)) rest m
  end.

(** [v[:, None] * omega[None, :]]: the outer product, ints times floats. *)
Definition outer (v : list Z) (omega : vector) : matrix :=
  map (fun a => map (fun o => (IZR a * o)%R) omega) v.

(** ** simple_vit.py: [posemb_sincos_2d] *)

Definition posemb_sincos_2d (h w dim : Z) (temperature : Z) : result matrix :=
  ys <- arange h ;;
  xs <- arange w ;;
  let (y, x) := meshgrid_ij ys xs in
  r <- py_mod dim 4 ;;
  torch_assert (r =? 0)
    "feature dimension must be multiple of 4 for sincos emb" ;;;
  ks <- arange (dim / 4) ;;
  let omega := map (fun k => (IZR k / IZR (dim / 4 - 1))%R) ks in
  let omega := map (fun o => (1 / Rpower (IZR temperature) o)%R) omega in
  let y := outer (flatten y) omega in
  let x := outer (flatten x) omega in
  Ok (cat1 [map (map sin) x; map (map cos) x; map (map sin) y; map (map cos) y]).

(** ** simple_vit.py: the pieces of [SimpleVisionTransformer] *)

(** A 4-D input tensor: its shape [(n, c, h, w)] and its entries. *)
Record images : Type := {
  shape : Z * Z * Z * Z;
  pixel : nat -> nat -> nat -> nat -> R
}.

(** [nn.Conv2d] with a square kernel, stride equal to the kernel size, one
    group and no padding. *)
Record Conv2d : Type := {
  in_channels : nat;
  out_channels : nat;
  kernel_size : nat;
  conv_weight : nat -> nat -> nat -> nat -> R;
  conv_bias : nat -> R
}.

(** The output of the convolution for image [b], channel [o] and output
    cell [(i, j)].  The library's checks of the input (as many channels as
    [in_channels], an image no smaller than the kernel) are not modelled:
    the statements below fix three channels and a patch that fits. *)
Definition conv2d (cv : Conv2d) (x : images) (b o i j : nat) : R :=
  (conv_bias cv o
   + Rsum (map (fun c =>
        Rsum (map (fun u =>
          Rsum (map (fun v =>
            conv_weight cv o c u v
            * pixel x b c (i * kernel_size cv + u) (j * kernel_size cv + v))
          (seq 0 (kernel_size cv))))
        (seq 0 (kernel_size cv))))
      (seq 0 (in_channels cv))))%R.

(** The layers that [self.heads] is made of. *)
Inductive layer : Type :=
| Linear (weight : matrix) (bias : vector)
| Tanh.

Definition dot (a b : vector) : R := Rsum (zip_with Rmult a b).

(** [nn.Linear] on one row: [x @ weight.T + bias]. *)
Definition linear (weight : matrix) (bias : vector) (x : vector) : vector :=
  zip_with (fun row b => (dot row x + b)%R) weight bias.

Definition layer_forward (l : layer) (x : vector) : vector :=
  match l with
  | Linear weight bias => linear weight bias x
  | Tanh => map tanh x
  end.

(** [nn.Sequential] over named layers, on one row. *)
Definition sequential (layers : list (string * layer)) (x : vector) : vector :=
  fold_left (fun acc nl => layer_forward (snd nl) acc) layers x.

(** [torch.nn.functional], as far as [_loss_fn] uses it.  [nll_loss] with
    its defaults rejects targets it cannot index with ([None]). *)
Record functional : Type := {
  log_softmax : matrix -> matrix;
  nll_loss : matrix -> list Z -> option R
}.

(** The library's functions over the reals: [log_softmax(out, dim=1)], and
    [nll_loss] with mean reduction and [ignore_index = -100]. *)
Definition real_log_softmax (out : matrix) : matrix :=
  map (fun row => map (fun z => (z - ln (Rsum (map exp row)))%R) row) out.

Fixpoint nll_picks (logprob : matrix) (target : list Z) : option (list R) :=
  match logprob, target with
  | [], [] => Some []
  | row :: logprob', t :: target' =>
      match nll_picks logprob' target' with
      | None => None
      | Some rest =>
          if t =? -100 then Some rest
          else if t <? 0 then None
          else match row !! Z.to_nat t with
               | Some v => Some ((- v)%R :: rest)
               | None => None
               end
      end
  | _, _ => None
  end.

Definition real_nll_loss (logprob : matrix) (target : list Z) : option R :=
  match nll_picks logprob target with
  | Some picks => Some (Rsum picks / INR (length picks))%R
  | None => None
  end.

Definition real_functional : functional :=
  {| log_softmax := real_log_softmax; nll_loss := real_nll_loss |}.

(** [F.cross_entropy(logits, t)], the ordinary single-target loss. *)
Definition cross_entropy (F : functional) (logits : matrix) (t : list Z)
    : option R :=
  nll_loss F (log_softmax F logits) t.

(** What [forward] returns: the logits, or the pair of logits and loss. *)
Inductive output : Type :=
| Logits (x : matrix)
| LogitsLoss (x : matrix) (loss : R).

(** The arguments of [SimpleVisionTransformer.__init__] (the normalisation
    factory [norm_layer] only reaches the encoder, which is taken as
    given). *)
Record ctor_args : Type := {
  arg_image_size : Z;
  arg_patch_size : Z;
  arg_num_layers : Z;
  arg_num_heads : Z;
  arg_hidden_dim : Z;
  arg_mlp_dim : Z;
  arg_dropout : R;
  arg_attention_dropout : R;
  arg_num_classes : Z;
  arg_posemb : string;
  arg_representation_size : option Z;
  arg_pool_type : string;
  arg_register : Z;
  arg_use_flash : bool
}.

(** What construction takes from outside the arguments: whether the
    installed torch is older than 2.0.0, the random numbers drawn by the
    initialisers (by the name of the tensor and the index of the entry), and
    the function computed by the freshly initialised encoder stack (layer
    normalisation, fused attention, GELU and dropout are the library's; the
    stack is a function of its input when dropout is off, as it is with the
    default probability 0 that the driver leaves in place). *)
Record init_env : Type := {
  torch_before_2 : bool;
  draw : string -> nat -> nat -> R;
  draw_conv_weight : nat -> nat -> nat -> nat -> R;
  draw_encoder : tensor3 -> tensor3
}.

(** [Attend.__init__]. *)
Definition Attend_init (env : init_env) (use_flash : bool) : result unit :=
  torch_assert (negb (use_flash && torch_before_2 env))
    "in order to use flash attention, you must be using pytorch 2.0 or above".

(** [EncoderBlock.__init__], as far as it can raise. *)
Definition EncoderBlock_init (env : init_env) (num_heads hidden_dim : Z)
    (use_flash : bool) : result unit :=
  head_dim <- py_floordiv hidden_dim num_heads ;;
  Attend_init env use_flash ;;;
  math_sqrt_ratio 3 hidden_dim.

(** [Encoder.__init__]: one block per [i in range(num_layers)]. *)
Fixpoint Encoder_init_loop (n : nat) (block : result unit) : result unit :=
  match n with
  | O => Ok tt
  | S n' => block ;;; Encoder_init_loop n' block
  end.

Definition Encoder_init (env : init_env) (num_layers num_heads hidden_dim : Z)
    (use_flash : bool) : result (tensor3 -> tensor3) :=
  Encoder_init_loop (Z.to_nat num_layers)
    (EncoderBlock_init env num_heads hidden_dim use_flash) ;;;
  Ok (draw_encoder env).

(** A freshly created [nn.Linear(in_features, out_features)]: weight of
    shape [(out_features, in_features)] and bias, both drawn at random. *)
Definition Linear_init (env : init_env) (name : string)
    (in_features out_features : Z) : layer :=
  Linear
    (tabulate (Z.to_nat out_features) (fun i =>
       tabulate (Z.to_nat in_features) (fun j =>
         draw env (name ++ ".weight") i j)))
    (tabulate (Z.to_nat out_features) (fun i => draw env (name ++ ".bias") 0%nat i)).

(** [nn.init.zeros_] on the weight and on the bias of a layer. *)
Definition init_zeros_weight (l : layer) : layer :=
  match l with
  | Linear weight bias => Linear (map (map (fun _ => 0%R)) weight) bias
  | Tanh => Tanh
  end.

Definition init_zeros_bias (l : layer) : layer :=
  match l with
  | Linear weight bias => Linear weight (map (fun _ => 0%R) bias)
  | Tanh => Tanh
  end.

(** [jax_lecun_normal(layer, fan_in)] on a linear layer: the standard
    deviation [math.sqrt(1 / fan_in) / .87962566103423978], a fresh truncated
    normal weight, a zero bias. *)
Definition jax_lecun_normal (env : init_env) (name : string) (l : layer)
    (fan_in : Z) : result layer :=
  math_sqrt_ratio 1 fan_in ;;;
  Ok match l with
     | Linear weight bias =>
         init_zeros_bias
           (Linear (tabulate (length weight) (fun i =>
                      tabulate (length (nth i weight [])) (fun j =>
                        draw env (name ++ ".weight.trunc_normal") i j)))
                   bias)
     | Tanh => Tanh
     end.

(** Replace the layer called [name] of an ordered dictionary of layers. *)
Fixpoint update_layer (name : string) (f : layer -> layer)
    (layers : list (string * layer)) : list (string * layer) :=
  match layers with
  | [] => []
  | (n, l) :: rest =>
      if String.eqb n name then (n, f l) :: rest
      else (n, l) :: update_layer name f rest
  end.

Fixpoint get_layer (name : string) (layers : list (string * layer))
    : option layer :=
  match layers with
  | [] => None
  | (n, l) :: rest => if String.eqb n name then Some l else get_layer name rest
  end.

(** [x[:, k:]] on one batch entry: a negative [k] counts from the end. *)
Definition py_slice_from {A : Type} (k : Z) (l : list A) : list A :=
  if 0 <=? k then drop (Z.to_nat k) l
  else drop (length l - Z.to_nat (- k)) l.

(** [x.mean(dim=1)] on one batch entry of width [d]. *)
Definition mean_tokens (d : nat) (tokens : matrix) : vector :=
  tabulate d (fun o =>
    (Rsum (map (fun tok => nth o tok 0%R) tokens) / INR (length tokens))%R).

(** [x[:, 0]] on one batch entry. *)
Definition first_token (tokens : matrix) : result vector :=
  match tokens with
  | tok :: _ => Ok tok
  | [] => Raise (IndexError "index 0 is out of bounds for dimension 1 with size 0")
  end.

Module SimpleVisionTransformer.

Record t : Type := mk {
  image_size : Z;
  patch_size : Z;
  hidden_dim : Z;
  mlp_dim : Z;
  attention_dropout : R;
  dropout : R;
  num_classes : Z;
  representation_size : option Z;
  pool_type : string;
  register : Z;
  reg : option matrix;
  conv_proj : Conv2d;
  pos_embedding : option matrix;
  encoder : tensor3 -> tensor3;
  seq_length : Z;
  heads : list (string * layer)
}.

(** [_learned_embeddings(num)]: a [(1, num, hidden_dim)] normal draw with
    standard deviation [math.sqrt(1 / self.hidden_dim)]. *)
Definition _learned_embeddings (env : init_env) (name : string)
    (hidden_dim num : Z) : result matrix :=
  math_sqrt_ratio 1 hidden_dim ;;;
  Ok (tabulate (Z.to_nat num) (fun i =>
        tabulate (Z.to_nat hidden_dim) (fun j => draw env name i j))).

(** [register + (pool_type == 'tok')]: the comparison counts as 1 or 0. *)
Definition effective_register (register : Z) (pool_type : string) : Z :=
  register + (if String.eqb pool_type "tok" then 1 else 0).

(** [__init__]. *)
Definition init (env : init_env) (a : ctor_args) : result t :=
  let hidden := arg_hidden_dim a in
  r <- py_mod (arg_image_size a) (arg_patch_size a) ;;
  torch_assert (r =? 0) "Input shape indivisible by patch size!" ;;;
  let register := effective_register (arg_register a) (arg_pool_type a) in
  reg <- (if register =? 1 then Ok (Some (zeros2 1 (Z.to_nat hidden)))
          else if 1 <? register
          then e <- _learned_embeddings env "reg" hidden register ;; Ok (Some e)
          else Ok None) ;;
  (* the patchify stem, with the weight and the zero bias that
     [jax_lecun_normal(self.conv_proj, fan_in)] leaves further down *)
  let conv_proj :=
    {| in_channels := 3;
       out_channels := Z.to_nat hidden;
       kernel_size := Z.to_nat (arg_patch_size a);
       conv_weight := draw_conv_weight env;
       conv_bias := fun _ => 0%R |} in
  h <- py_floordiv (arg_image_size a) (arg_patch_size a) ;;
  let w := h in
  let seq_length := h * w in
  pos_embedding <-
    (if String.eqb (arg_posemb a) "sincos2d"
     then pe <- posemb_sincos_2d h w hidden 10000 ;; Ok (Some pe)
     else if String.eqb (arg_posemb a) "learn"
     then e <- _learned_embeddings env "pos_embedding" hidden seq_length ;;
          Ok (Some e)
     else Ok None) ;;
  encoder <- Encoder_init env (arg_num_layers a) (arg_num_heads a) hidden
                          (arg_use_flash a) ;;
  let heads :=
    match arg_representation_size a with
    | None => [("head", Linear_init env "head" hidden (arg_num_classes a))]
    | Some rs =>
        [("pre_logits", Linear_init env "pre_logits" hidden rs);
         ("act", Tanh);
         ("head", Linear_init env "head" rs (arg_num_classes a))]
    end in
  fan_in <- py_floordiv (3 * arg_patch_size a * arg_patch_size a) 1 ;;
  math_sqrt_ratio 1 fan_in ;;;
  heads <-
    match get_layer "pre_logits" heads with
    | Some (Linear weight bias as l) =>
        l' <- jax_lecun_normal env "pre_logits" l hidden ;;
        Ok (update_layer "pre_logits" (fun _ => l') heads)
    | _ => Ok heads
    end ;;
  let heads :=
    update_layer "head" (fun l => init_zeros_bias (init_zeros_weight l)) heads in
  Ok (mk (arg_image_size a) (arg_patch_size a) hidden (arg_mlp_dim a)
         (arg_attention_dropout a) (arg_dropout a) (arg_num_classes a)
         (arg_representation_size a) (arg_pool_type a) register reg conv_proj
         pos_embedding encoder seq_length heads).

(** [_process_input]: the two checks, then the patch convolution reshaped
    to [(n, n_h * n_w, hidden_dim)]. *)
Definition _process_input (self : t) (x : images) : result tensor3 :=
  let '(n, c, h, w) := shape x in
  let p := patch_size self in
  torch_assert (h =? image_size self)
    ("Wrong image height! Expected " ++ str_int (image_size self)
       ++ " but got " ++ str_int h ++ "!") ;;;
  torch_assert (w =? image_size self)
    ("Wrong image width! Expected " ++ str_int (image_size self)
       ++ " but got " ++ str_int w ++ "!") ;;;
  n_h <- py_floordiv h p ;;
  n_w <- py_floordiv w p ;;
  let y := conv2d (conv_proj self) x in
  Ok (tabulate (Z.to_nat n) (fun b =>
        tabulate (Z.to_nat (n_h * n_w)) (fun tk =>
          tabulate (Z.to_nat (hidden_dim self)) (fun o =>
            y b o (Nat.div tk (Z.to_nat n_w)) (Nat.modulo tk (Z.to_nat n_w)))))).

(** [_loss_fn]. *)
Definition _loss_fn (F : functional) (out : matrix) (lam : R)
    (target1 target2 : list Z) : result R :=
  let logprob := log_softmax F out in
  match nll_loss F logprob target1 with
  | None => Raise (RuntimeError "nll_loss")
  | Some l1 =>
      match nll_loss F logprob target2 with
      | None => Raise (RuntimeError "nll_loss")
      | Some l2 => Ok (lam * l1 + (1 - lam) * l2)%R
      end
  end.

(** [forward].  ([Encoder.forward] asserts that its input has three
    dimensions; the type of the tokens guarantees it.) *)
Definition forward (F : functional) (self : t) (x : images) (lam : R)
    (target1 target2 : option (list Z)) : result output :=
  x <- _process_input self x ;;
  let x :=
    match pos_embedding self with
    | Some pe => map (fun tokens => zip_with (zip_with Rplus) tokens pe) x
    | None => x
    end in
  x <- (if register self =? 0 then Ok x
        else match reg self with
             | Some r => Ok (map (fun tokens => r ++ tokens)%list x)
             | None => Raise (AttributeError "reg")
             end) ;;
  let x := encoder self x in
  x <- (if String.eqb (pool_type self) "tok"
        then map_result first_token x
        else Ok (map (fun tokens =>
                        mean_tokens (Z.to_nat (hidden_dim self))
                          (py_slice_from (register self) tokens)) x)) ;;
  let x := map (sequential (heads self)) x in
  match target1, target2 with
  | Some t1, Some t2 =>
      loss <- _loss_fn F x lam t1 t2 ;; Ok (LogitsLoss x loss)
  | _, _ => Ok (Logits x)
  end.

End SimpleVisionTransformer.

(** Arguments and environment for which no statement of the constructor
    other than its two size checks can raise: a positive patch size and
    embedding dimension, a non-zero number of heads, a torch recent enough
    for the attention in use, and sizes and a dropout probability that the
    library's layer constructors accept (their own checks are not
    modelled). *)
Definition in_domain (env : init_env) (a : ctor_args) : Prop :=
  0 < arg_patch_size a /\ 0 <= arg_image_size a /\ 0 < arg_hidden_dim a
  /\ arg_num_heads a <> 0
  /\ arg_use_flash a && torch_before_2 env = false
  /\ 0 <= arg_num_classes a /\ 0 <= arg_mlp_dim a
  /\ (0 <= arg_dropout a <= 1)%R
  /\ match arg_representation_size a with
     | Some rs => 0 <= rs
     | None => True
     end.

(** An encoder stack returns as many batch entries, each with as many
    tokens, as it is given. *)
Definition keeps_tokens (f : tensor3 -> tensor3) : Prop :=
  forall x : tensor3,
    Forall2 (fun out_tokens in_tokens : list (list R) =>
               length out_tokens = length in_tokens) (f x) x.

(** What [forward] relies on in a model object: a positive patch size that
    fits into the image, the register tokens present when the register count
    is non-zero, at least one of them under token pooling, and an encoder
    that keeps the tokens. *)
Definition well_formed (m : SimpleVisionTransformer.t) : Prop :=
  0 < SimpleVisionTransformer.patch_size m
      <= SimpleVisionTransformer.image_size m
  /\ (SimpleVisionTransformer.register m <> 0 ->
      exists r : matrix, SimpleVisionTransformer.reg m = Some r /\ r <> [])
  /\ (SimpleVisionTransformer.pool_type m = "tok" ->
      SimpleVisionTransformer.register m <> 0)
  /\ keeps_tokens (SimpleVisionTransformer.encoder m).


(** Concrete inputs for examples.  The environment: a current torch, draws
    that depend on the index, an encoder that returns its input.  The
    arguments: those the driver passes by default (ViT-S/16 at 224 pixels),
    with token pooling. *)
Definition example_env : init_env :=
  {| torch_before_2 := false;
     draw := fun _ i j => INR (i + j);
     draw_conv_weight := fun o c u v => INR (o + c + u + v);
     draw_encoder := fun x => x |}.

Definition example_args : ctor_args :=
  {| arg_image_size := 224;
     arg_patch_size := 16;
     arg_num_layers := 12;
     arg_num_heads := 6;
     arg_hidden_dim := 384;
     arg_mlp_dim := 768;
     arg_dropout := 0%R;
     arg_attention_dropout := 0%R;
     arg_num_classes := 1000;
     arg_posemb := "sincos2d";
     arg_representation_size := None;
     arg_pool_type := "tok";
     arg_register := 0;
     arg_use_flash := true |}.

(** The same arguments with an embedding dimension that 4 does not divide. *)
Definition example_args_dim_6 : ctor_args :=
  {| arg_image_size := 224;
     arg_patch_size := 16;
     arg_num_layers := 12;
     arg_num_heads := 6;
     arg_hidden_dim := 6;
     arg_mlp_dim := 12;
     arg_dropout := 0%R;
     arg_attention_dropout := 0%R;
     arg_num_classes := 1000;
     arg_posemb := "sincos2d";
     arg_representation_size := None;
     arg_pool_type := "gap";
     arg_register := 0;
     arg_use_flash := true |}.

(** A batch of two 224 x 224 RGB images. *)
Definition example_batch : images :=
  {| shape := (2, 3, 224, 224);
     pixel := fun b c i j => INR (b + c + i + j) |}.

(** A small model written out by hand: 2 x 2 images, 1 x 1 patches, width 1,
    two classes, mean pooling, no registers. *)
Definition tiny_model : SimpleVisionTransformer.t :=
  SimpleVisionTransformer.mk 2 1 1 2 0%R 0%R 2 None "gap" 0 None
    {| in_channels := 3; out_channels := 1; kernel_size := 1;
       conv_weight := fun _ _ _ _ => 1%R; conv_bias := fun _ => 0%R |}
    None (fun x => x) 4
    [("head", Linear [[1%R]; [2%R]] [0%R; 0%R])].

Definition tiny_batch : images :=
  {| shape := (1, 3, 2, 2); pixel := fun _ _ _ _ => 1%R |}.

(** The frequencies and the scaled coordinates as the specification writes
    them: [omega_k = 1 / 10000^(k / (dim/4 - 1))] for [k = 0 .. dim/4 - 1],
    and the vector [v * omega]. *)
Definition omega_spec (dim : Z) (k : nat) : R :=
  (1 / Rpower 10000 (INR k / IZR (dim / 4 - 1)))%R.

Definition scaled_omega (dim : Z) (v : Z) : vector :=
  map (fun k => (IZR v * omega_spec dim k)%R) (seq 0 (Z.to_nat (dim / 4))).

(** ** main.py: [estimate_time_to_completion] *)

(** [int(x)] of a number: the fractional part is dropped, towards zero. *)
Definition py_int (q : Q) : Z := Z.quot (Qnum q) (Z.pos (Qden q)).

(** [divmod(a, b)] on ints: the pair of [a // b] and [a % b]. *)
Definition py_divmod (a b : Z) : result (Z * Z) :=
  if b =? 0 then Raise ZeroDivisionError else Ok (a / b, a mod b).

(** [estimate_time_to_completion]: the f-string formats the three ints
    under the spec [02d]. *)
Definition estimate_time_to_completion (current_step total_steps : Z)
    (batch_time_avg : Q) : result string :=
  let remaining_steps := total_steps - current_step in
  let estimated_seconds := (inject_Z remaining_steps * batch_time_avg)%Q in
  hr <- py_divmod (py_int estimated_seconds) 3600 ;;
  let (hours, remainder) := hr in
  ms <- py_divmod remainder 60 ;;
  let (minutes, seconds) := ms in
  h <- format_int hours "02d" ;;
  m <- format_int minutes "02d" ;;
  s <- format_int seconds "02d" ;;
  Ok (h ++ "h:" ++ m ++ "m:" ++ s ++ "s").

(** ** main.py: [is_primary] and the rank that [main_worker] assigns *)

(** The attributes of [args] that decide which process is the primary one. *)
Record dist_args : Type := {
  multiprocessing_distributed : bool;
  world_size : Z;
  rank : Z;
  ngpus_per_node : Z
}.

(** [args.distributed], as [main] sets it. *)
Definition distributed (a : dist_args) : bool :=
  (1 <? world_size a) || multiprocessing_distributed a.

(** [is_primary]: [not A or (A and B)], evaluated from left to right; the
    remainder is only computed when the first operand is false. *)
Definition is_primary (a : dist_args) : result bool :=
  if negb (multiprocessing_distributed a) then Ok true
  else if multiprocessing_distributed a
       then r <- py_mod (rank a) (ngpus_per_node a) ;; Ok (r =? 0)
       else Ok false.

(** [main_worker], the rank of the process spawned for device [gpu]:
    [args.rank = args.rank * args.ngpus_per_node + gpu] under
    multiprocessing-distributed training. *)
Definition main_worker_rank (a : dist_args) (gpu : Z) : dist_args :=
  if distributed a && multiprocessing_distributed a
  then {| multiprocessing_distributed := multiprocessing_distributed a;
          world_size := world_size a;
          rank := rank a * ngpus_per_node a + gpu;
          ngpus_per_node := ngpus_per_node a |}
  else a.

(** ** main.py: [weight_decay_param] and the two parameter groups *)

(** [s.endswith(suffix)]. *)
Definition endswith (s suffix : string) : bool :=
  (String.length suffix <=? String.length s)%nat
  && String.eqb (substring (String.length s - String.length suffix)
                           (String.length suffix) s) suffix.

(** What the driver reads of a parameter tensor. *)
Record parameter : Type := {
  ndim : Z;
  requires_grad : bool
}.

Definition weight_decay_param (n : string) (p : parameter) : bool :=
  (2 <=? ndim p) && endswith n "weight".

(** [main_worker]: the two list comprehensions over
    [model.named_parameters()]. *)
Definition wd_params (named_parameters : list (string * parameter))
    : list parameter :=
  map snd (List.filter (fun np => weight_decay_param (fst np) (snd np)
                                  && requires_grad (snd np))
                       named_parameters).

Definition non_wd_params (named_parameters : list (string * parameter))
    : list parameter :=
  map snd (List.filter (fun np => negb (weight_decay_param (fst np) (snd np))
                                  && requires_grad (snd np))
                       named_parameters).

(** ** main.py: the per-process batch size and worker count *)

(** [int(args.batch_size / args.ngpus_per_node)]. *)
Definition per_process_batch_size (batch_size ngpus : Z) : result Z :=
  q <- truediv (inject_Z batch_size) (inject_Z ngpus) ;;
  Ok (py_int q).

(** [int((args.workers + args.ngpus_per_node - 1) / args.ngpus_per_node)]. *)
Definition per_process_workers (workers ngpus : Z) : result Z :=
  q <- truediv (inject_Z (workers + ngpus - 1)) (inject_Z ngpus) ;;
  Ok (py_int q).

(** ** main.py: the steps of [train] and when it evaluates *)

(** [range(start_step + 1, total_steps + 1)]: the loop of [train] visits
    these steps (the batch generator never runs out). *)
Definition train_steps (start_step total_steps : Z) : list Z :=
  map (fun i => start_step + 1 + Z.of_nat i)
      (seq 0 (Z.to_nat (total_steps - start_step))).

(** [step % args.log_steps == 0 or step in args.specified_steps]. *)
Definition evaluates (step log_steps : Z) (specified_steps : gset Z)
    : result bool :=
  r <- py_mod step log_steps ;;
  Ok ((r =? 0) || bool_decide (step ∈ specified_steps)).

(** ** main.py: [save_checkpoint] *)

(** [os.path.join(a, b)] on POSIX paths: an absolute [b] replaces [a];
    otherwise [b] is appended, after a separator unless [a] is empty or
    ends in one. *)
Definition os_path_join (a b : string) : string :=
  if String.prefix "/" b then b
  else if String.eqb a "" || endswith a "/" then a ++ b
  else a ++ "/" ++ b.

(** The errors of [shutil.copyfile]. *)
Inductive os_error : Type :=
| SameFileError (src dst : string)
| FileNotFoundError (path : string).

(** The files of the checkpoint directory, by path: a path names one file
    (links and equivalent spellings of a path are not modelled), and the
    directory can be written to ([main] creates it). *)
Definition torch_save {A : Type} (obj : A) (f : string)
    (fs : gmap string A) : gmap string A :=
  <[f := obj]> fs.

Definition shutil_copyfile {A : Type} (src dst : string)
    (fs : gmap string A) : os_error + gmap string A :=
  if String.eqb src dst then inl (SameFileError src dst)
  else match fs !! src with
       | Some content => inr (<[dst := content]> fs)
       | None => inl (FileNotFoundError src)
       end.

Definition save_checkpoint {A : Type} (state : A) (is_best : bool)
    (path filename : string) (step : option Z) (fs : gmap string A)
    : os_error + gmap string A :=
  let filename := os_path_join path filename in
  let fs := torch_save state filename fs in
  match (if is_best
         then shutil_copyfile filename (os_path_join path "model_best.pth.tar") fs
         else inr fs) with
  | inl e => inl e
  | inr fs =>
      match step with
      | Some step =>
          shutil_copyfile filename
            (os_path_join path ("model_step_" ++ str_int step ++ ".pth.tar")) fs
      | None => inr fs
      end
  end.

(** The calls [save_checkpoint(ckpt, is_best, args.checkpoint_path,
    step=step)] that the primary process makes in the loop of [train], one
    per evaluation, in order. *)
Fixpoint train_saves (path : string) (saved : list (bool * checkpoint))
    (fs : gmap string checkpoint) : os_error + gmap string checkpoint :=
  match saved with
  | [] => inr fs
  | (is_best, c) :: rest =>
      match save_checkpoint c is_best path "checkpoint.pth.tar"
                            (Some (ckpt_step c)) fs with
      | inl e => inl e
      | inr fs' => train_saves path rest fs'
      end
  end.

(** ** main.py: [AverageMeter.all_reduce] *)

(** [all_reduce] on one process, given the tensor [total] after the
    collective sum: [self.sum, self.count = total.tolist()], then the
    division, which raises on a zero count with the two attributes already
    assigned.  (The tensor holds single-precision floats; their rounding is
    not modelled.) *)
Definition all_reduce (self : AverageMeter.t) (total : Q * Q)
    : AverageMeter.t * result unit :=
  let s1 := AverageMeter.mk (AverageMeter.name self) (AverageMeter.fmt self)
              (AverageMeter.summary_type self) (AverageMeter.device self)
              (AverageMeter.val self) (AverageMeter.avg self)
              (fst total) (snd total) in
  match truediv (AverageMeter.sum s1) (AverageMeter.count s1) with
  | Ok a =>
      (AverageMeter.mk (AverageMeter.name s1) (AverageMeter.fmt s1)
         (AverageMeter.summary_type s1) (AverageMeter.device s1)
         (AverageMeter.val s1) a (AverageMeter.sum s1) (AverageMeter.count s1),
       Ok tt)
  | Raise e => (s1, Raise e)
  end.

(** [dist.all_reduce(total, dist.ReduceOp.SUM)] over the processes of the
    group: each contributes [[self.sum, self.count]] of its own meter and
    each receives the element-wise sum. *)
Definition dist_all_reduce_sum (meters : list AverageMeter.t) : Q * Q :=
  (Qsum (map AverageMeter.sum meters), Qsum (map AverageMeter.count meters)).

(** The meters of the processes after each has called [all_reduce]. *)
Definition all_reduce_group (meters : list AverageMeter.t)
    : list (AverageMeter.t * result unit) :=
  map (fun m => all_reduce m (dist_all_reduce_sum meters)) meters.

(** The value of the local variable [best_acc1] of [train] after the
    accuracies [accs], starting from [best]. *)
Definition running_best (best : Q) (accs : list Q) : Q :=
  fold_left (fun b a => Qmax a b) accs best.

(** A vector of ones, for stating values of the positional embedding. *)
Definition ones (n : nat) : vector := repeat 1%R n.

(** ** main.py: the head options that [main] normalises *)

(** [main]: without [--mlp-head] the representation size is dropped; with it
    and no [--representation-size], the embedding dimension is used. *)
Definition main_representation_size (mlp_head : bool)
    (representation_size : option Z) (hidden_dim : Z) : option Z :=
  if negb mlp_head then None
  else match representation_size with
       | None => Some hidden_dim
       | Some r => Some r
       end.

(** ** main.py: [accuracy] *)

(** [max(topk)] of a tuple of ints. *)
Definition py_max (l : list Z) : result Z :=
  match l with
  | [] => Raise (ValueError "max() arg is an empty sequence")
  | k :: rest => Ok (fold_left Z.max rest k)
  end.

(** [l[:k]]: a negative [k] counts from the end. *)
Definition py_slice_to {A : Type} (k : Z) (l : list A) : list A :=
  if 0 <=? k then take (Z.to_nat k) l
  else take (length l - Z.to_nat (- k)) l.

(** [pred.t()] of a [(batch, cols)] tensor of ints: a [(cols, batch)]
    tensor. *)
Definition transpose (cols : nat) (m : list (list Z)) : list (list Z) :=
  tabulate cols (fun j => map (fun row => nth j row 0) m).

(** [target.view(1, -1).expand_as(pred)], one row of it: the targets
    themselves when there is one per sample, a single target repeated, and
    an error otherwise. *)
Definition expand_target (target : list Z) (batch : nat) : result (list Z) :=
  if (length target =? batch)%nat then Ok target
  else match target with
       | [t] => Ok (repeat t batch)
       | _ => Raise (RuntimeError "The expanded size of the tensor must match the existing size")
       end.

(** [t.float().sum()] of a tensor of booleans. *)
Definition count_true (l : list bool) : Z :=
  fold_right (fun (b : bool) acc => (if b then 1 else 0) + acc) 0 l.

Definition Zsum (l : list Z) : Z := fold_right Z.add 0 l.

(** [accuracy(output, target, topk)].  [topk_indices row k] stands for the
    indices that [output.topk(k, 1, True, True)] returns for one row, which
    is the library's; the results are the one-element tensors of the list
    [res], as numbers.  A batch without rows is not followed: the library
    checks [k] against the number of classes, which no row is left to
    carry. *)
Definition accuracy (topk_indices : vector -> Z -> result (list Z))
    (output : matrix) (target : list Z) (topk : list Z) : result (list Q) :=
  maxk <- py_max topk ;;
  let batch_size := Z.of_nat (length target) in
  pred <- map_result (fun row => topk_indices row maxk) output ;;
  let pred_t := transpose (Z.to_nat maxk) pred in
  expanded <- expand_target target (length pred) ;;
  let correct := map (fun p => zip_with Z.eqb p expanded) pred_t in
  map_result (fun k =>
      let correct_k := Zsum (map count_true (py_slice_to k correct)) in
      scale <- truediv 1 (inject_Z batch_size) ;;
      Ok (inject_Z correct_k * scale)%Q)
    topk.

(** The number of samples whose target is among the first [k] predicted
    indices. *)
Definition samples_hit (k : nat) (pred : list (list Z)) (target : list Z) : Z :=
  Zsum (zip_with (fun p t => if bool_decide (t ∈ take k p) then 1 else 0)
                 pred target).

(** The number of rows that [correct[:k]] keeps of the [maxk] rows. *)
Definition rows_kept (k maxk : Z) : nat :=
  Nat.min (if 0 <=? k then Z.to_nat k
           else (Z.to_nat maxk - Z.to_nat (- k))%nat)
          (Z.to_nat maxk).

(** ** main.py: [chunk] *)

(** [t.split(size)] along the first dimension, for a positive [size]:
    pieces of [size] rows, the last one shorter when the rows run out.
    [fuel] bounds the number of pieces. *)
Fixpoint split_every {A : Type} (fuel size : nat) (t : list A)
    : list (list A) :=
  match fuel with
  | O => []
  | S fuel' =>
      match t with
      | [] => []
      | _ :: _ => take size t :: split_every fuel' size (drop size t)
      end
  end.

(** [t.chunk(chunks)] along the first dimension: pieces of
    [ceil(len / chunks)] rows, hence possibly fewer than [chunks] of them;
    a tensor without rows gives [chunks] empty pieces. *)
Definition torch_chunk {A : Type} (chunks : Z) (t : list A)
    : result (list (list A)) :=
  if chunks <=? 0
  then Raise (RuntimeError "chunk expects chunks to be greater than 0")
  else
    let split_size := (Z.of_nat (length t) + chunks - 1) / chunks in
    if (length t =? 0)%nat then Ok (repeat [] (Z.to_nat chunks))
    else Ok (split_every (length t) (Z.to_nat split_size) t).

(** [zip( *lists)] over lists of tensors: one tuple per position, up to
    the shortest list; nothing when there is no list. *)
Definition py_zip {A : Type} (lists : list (list (list A)))
    : list (list (list A)) :=
  match lists with
  | [] => []
  | l :: rest =>
      tabulate (fold_left Nat.min (map (@length (list A)) rest) (length l))
               (fun j => map (fun l' => nth j l' []) lists)
  end.

(** [chunk(n, device, *tensors)]: the tuples it yields, a tensor being the
    list of its rows (moving a tensor to the device leaves its values). *)
Definition chunk {A : Type} (n : Z) (tensors : list (list A))
    : result (list (list (list A))) :=
  if n =? 1 then Ok [tensors]
  else chunks <- map_result (torch_chunk n) tensors ;; Ok (py_zip chunks).

(* ====================================================================== *)
(** * Theorems *)
(* ====================================================================== *)

(** ** AverageMeter *)

Lemma truediv_raises (a b : Q) :
  truediv a b = Raise ZeroDivisionError <-> (b == 0)%Q.
Proof.
  unfold truediv. destruct (Qeq_bool b 0) eqn:E.
  - apply Qeq_bool_eq in E. tauto.
  - apply Qeq_bool_neq in E. split; [discriminate | tauto].
Qed.

Lemma truediv_returns (a b : Q) :
  ~ (b == 0)%Q -> truediv a b = Ok (a / b)%Q.
Proof.
  intros H. unfold truediv. destruct (Qeq_bool b 0) eqn:E; [|reflexivity].
  apply Qeq_bool_eq in E. tauto.
Qed.

Lemma update_sum (m : AverageMeter.t) (v n : Q) :
  AverageMeter.sum (fst (AverageMeter.update m v n))
  = (AverageMeter.sum m + v * n)%Q.
Proof.
  unfold AverageMeter.update. cbn. destruct truediv; reflexivity.
Qed.

Lemma update_count (m : AverageMeter.t) (v n : Q) :
  AverageMeter.count (fst (AverageMeter.update m v n))
  = (AverageMeter.count m + n)%Q.
Proof.
  unfold AverageMeter.update. cbn. destruct truediv; reflexivity.
Qed.

Lemma update_avg (m : AverageMeter.t) (v n : Q) :
  ~ (AverageMeter.count m + n == 0)%Q ->
  AverageMeter.avg (fst (AverageMeter.update m v n))
  = ((AverageMeter.sum m + v * n) / (AverageMeter.count m + n))%Q.
Proof.
  intros H. unfold AverageMeter.update. cbn.
  rewrite (truediv_returns _ _ H). reflexivity.
Qed.

Lemma Qsum_app (l1 l2 : list Q) : (Qsum (l1 ++ l2) == Qsum l1 + Qsum l2)%Q.
Proof.
  unfold Qsum. induction l1 as [|x l1 IH]; cbn [app fold_right].
  - ring.
  - rewrite IH. ring.
Qed.

Lemma weighted_sum_snoc (l : list (Q * Q)) (c : Q * Q) :
  (weighted_sum (l ++ [c]) == weighted_sum l + fst c * snd c)%Q.
Proof.
  unfold weighted_sum. rewrite map_app, Qsum_app.
  unfold Qsum at 2. cbn [map fold_right]. ring.
Qed.

Lemma total_weight_snoc (l : list (Q * Q)) (c : Q * Q) :
  (total_weight (l ++ [c]) == total_weight l + snd c)%Q.
Proof.
  unfold total_weight. rewrite map_app, Qsum_app.
  unfold Qsum at 2. cbn [map fold_right]. ring.
Qed.

Lemma updates_snoc (m : AverageMeter.t) (l : list (Q * Q)) (c : Q * Q) :
  AverageMeter.updates m (l ++ [c])
  = fst (AverageMeter.update (AverageMeter.updates m l) (fst c) (snd c)).
Proof.
  unfold AverageMeter.updates. rewrite fold_left_app. reflexivity.
Qed.

(** The running sum and count are the sums of the specification, whatever
    the outcome of the single calls. *)
Lemma updates_sum (m : AverageMeter.t) (l : list (Q * Q)) :
  (AverageMeter.sum (AverageMeter.updates m l)
   == AverageMeter.sum m + weighted_sum l)%Q.
Proof.
  induction l as [|c l IH] using rev_ind.
  - cbn. ring.
  - rewrite updates_snoc, update_sum, IH, weighted_sum_snoc. ring.
Qed.

Lemma updates_count (m : AverageMeter.t) (l : list (Q * Q)) :
  (AverageMeter.count (AverageMeter.updates m l)
   == AverageMeter.count m + total_weight l)%Q.
Proof.
  induction l as [|c l IH] using rev_ind.
  - cbn. ring.
  - rewrite updates_snoc, update_count, IH, total_weight_snoc. ring.
Qed.

(** After a non-empty sequence of calls whose accumulated weight is not zero
    the average is the weighted mean. *)
Lemma updates_avg (m : AverageMeter.t) (l : list (Q * Q)) :
  l <> [] ->
  ~ (AverageMeter.count m + total_weight l == 0)%Q ->
  (AverageMeter.avg (AverageMeter.updates m l)
   == (AverageMeter.sum m + weighted_sum l)
      / (AverageMeter.count m + total_weight l))%Q.
Proof.
  destruct l as [|c l _] using rev_ind; [congruence|].
  intros _ Hnz.
  rewrite updates_snoc, update_avg.
  - rewrite updates_sum, updates_count, weighted_sum_snoc, total_weight_snoc.
    apply Qdiv_comp; ring.
  - rewrite updates_count. rewrite total_weight_snoc in Hnz.
    intros E. apply Hnz. rewrite <- E. ring.
Qed.

(** When the accumulated weight is non-zero after every call, no call raises:
    the straight-line run returns the meter that [updates] computes. *)
Lemma total_weight_cons (c : Q * Q) (l : list (Q * Q)) :
  total_weight (c :: l) = (snd c + total_weight l)%Q.
Proof. reflexivity. Qed.

Lemma run_updates_returns (l : list (Q * Q)) (m : AverageMeter.t) :
  (forall k, (0 < k <= length l)%nat ->
     ~ (AverageMeter.count m + total_weight (firstn k l) == 0)%Q) ->
  AverageMeter.run_updates m l = Ok (AverageMeter.updates m l).
Proof.
  revert m. induction l as [|c l IH]; intros m H; [reflexivity|].
  cbn [AverageMeter.run_updates AverageMeter.updates fold_left].
  assert (H1 : ~ (AverageMeter.count m + snd c == 0)%Q).
  { intros E. apply (H 1%nat); [cbn; lia|].
    change (firstn 1 (c :: l)) with [c].
    rewrite total_weight_cons. rewrite <- E.
    change (total_weight []) with 0%Q. ring. }
  unfold AverageMeter.update at 1 3.
  cbn [AverageMeter.sum AverageMeter.count].
  rewrite (truediv_returns _ _ H1). cbn [fst].
  apply (IH (AverageMeter.mk _ _ _ _ _ _ _ _)).
  intros k Hk. cbn [AverageMeter.count]. intros E.
  apply (H (S k)); [cbn; lia|].
  change (firstn (S k) (c :: l)) with (c :: firstn k l).
  rewrite total_weight_cons. rewrite <- E. ring.
Qed.

(** A call that leaves the accumulated weight at zero ends a straight-line
    run, although the weights of the whole sequence sum to 1. *)
Example run_updates_zero_prefix :
  AverageMeter.run_updates
    (AverageMeter.init "Loss" ":.4e" (Member AVERAGE) "cpu")
    [(5, 0); (3, 1)]%Q
  = Raise ZeroDivisionError.
Proof. reflexivity. Qed.


Lemma total_weight_positive_prefix (l : list (Q * Q)) (k : nat) :
  Forall (fun c : Q * Q => (0 < snd c)%Q) l ->
  (0 < k <= length l)%nat ->
  (0 < total_weight (firstn k l))%Q.
Proof.
  intros Hl. revert k. induction Hl as [|c l Hc _ IH]; intros k Hk.
  - cbn in Hk. lia.
  - destruct k as [|k]; [lia|].
    change (firstn (S k) (c :: l)) with (c :: firstn k l).
    rewrite total_weight_cons.
    destruct k as [|k].
    + change (firstn 0 l) with (@nil (Q * Q)).
      change (total_weight []) with 0%Q. now rewrite Qplus_0_r.
    + assert (H : (0 < total_weight (firstn (S k) l))%Q)
        by (apply IH; cbn in Hk; lia).
      rewrite <- (Qplus_0_r 0). apply Qplus_lt_le_compat; [exact Hc|].
      now apply Qlt_le_weak.
Qed.

(** C7. After a reset, for every sequence of [update(value_i, weight_i)]
    calls whose weights sum to a positive number, the meter's average is
    [sum(value_i * weight_i) / sum(weight_i)]; [reset] sets the current
    value, the sum, the count and the average to zero; and [summary] on a
    meter whose summary kind is [Summary.NONE] returns the empty string.
    (The first part speaks of the meter after the calls were made, and adds
    that the last of them returns; the last part adds that with positive
    weights throughout no call raises, so that a straight-line run returns
    that meter.) *)
Theorem AverageMeter_average_reset_summary :
  (forall (m : AverageMeter.t) (calls : list (Q * Q)),
      (0 < total_weight calls)%Q ->
      (AverageMeter.avg (AverageMeter.updates (AverageMeter.reset m) calls)
       == weighted_sum calls / total_weight calls)%Q
      /\ snd (AverageMeter.update
                (AverageMeter.updates (AverageMeter.reset m) (removelast calls))
                (fst (List.last calls (0, 0)%Q))
                (snd (List.last calls (0, 0)%Q)))
         = Ok tt)
  /\ (forall m : AverageMeter.t,
        AverageMeter.val (AverageMeter.reset m) = 0%Q
        /\ AverageMeter.sum (AverageMeter.reset m) = 0%Q
        /\ AverageMeter.count (AverageMeter.reset m) = 0%Q
        /\ AverageMeter.avg (AverageMeter.reset m) = 0%Q)
  /\ (forall (format_number : Q -> string -> result string)
             (m : AverageMeter.t),
        AverageMeter.summary_type m = Member NONE ->
        AverageMeter.summary format_number m = Ok "")
  /\ (forall (m : AverageMeter.t) (calls : list (Q * Q)),
        Forall (fun c : Q * Q => (0 < snd c)%Q) calls ->
        AverageMeter.run_updates (AverageMeter.reset m) calls
        = Ok (AverageMeter.updates (AverageMeter.reset m) calls)).
Proof.
  split; [|split; [|split]].
  - intros m calls Hpos.
    assert (Hne : calls <> []).
    { intros ->. revert Hpos. apply Qlt_irrefl. }
    assert (Hnz : ~ (AverageMeter.count (AverageMeter.reset m)
                     + total_weight calls == 0)%Q).
    { cbn [AverageMeter.reset AverageMeter.count]. intros E.
      rewrite Qplus_0_l in E. rewrite E in Hpos.
      revert Hpos. apply Qlt_irrefl. }
    split.
    + rewrite (updates_avg _ _ Hne Hnz).
      cbn [AverageMeter.reset AverageMeter.sum AverageMeter.count].
      apply Qdiv_comp; ring.
    + destruct (exists_last Hne) as (l & c & ->).
      rewrite List.removelast_last, List.last_last.
      unfold AverageMeter.update.
      cbn [AverageMeter.sum AverageMeter.count].
      rewrite truediv_returns; [reflexivity|].
      rewrite updates_count. rewrite total_weight_snoc in Hnz.
      intros E. apply Hnz. rewrite <- E. ring.
  - intros m. repeat split.
  - intros format_number m H. unfold AverageMeter.summary. rewrite H.
    reflexivity.
  - intros m calls Hall. apply run_updates_returns. intros k Hk.
    cbn [AverageMeter.reset AverageMeter.count]. rewrite Qplus_0_l.
    intros E. pose proof (total_weight_positive_prefix calls k Hall Hk) as Hp.
    rewrite E in Hp. revert Hp. apply Qlt_irrefl.
Qed.

Lemma AverageMeter_average_reset_summary_witness :
  (AverageMeter.avg
     (AverageMeter.updates
        (AverageMeter.reset (AverageMeter.init "Loss" ":.4e" (Member NONE) "cpu"))
        [(3, 2); (1 # 2, 4); (7, 0)])
   == weighted_sum [(3, 2); (1 # 2, 4); (7, 0)]
      / total_weight [(3, 2); (1 # 2, 4); (7, 0)])%Q
  /\ AverageMeter.summary format_number_floor
       (AverageMeter.init "Loss" ":.4e" (Member NONE) "cpu") = Ok "".
Proof.
  split.
  - apply (proj1 AverageMeter_average_reset_summary). reflexivity.
  - apply (proj1 (proj2 (proj2 AverageMeter_average_reset_summary))).
    reflexivity.
Defined.

(** C10. [update] divides by the accumulated count unconditionally: the call
    raises [ZeroDivisionError] exactly when the count after adding [n] is
    zero, as in a first update with [n = 0] after construction or [reset];
    it returns exactly when that count is not zero. *)
Theorem AverageMeter_update_zero_count :
  forall (m : AverageMeter.t) (v n : Q),
    (snd (AverageMeter.update m v n) = Raise ZeroDivisionError
     <-> (AverageMeter.count m + n == 0)%Q)
    /\ (snd (AverageMeter.update m v n) = Ok tt
        <-> ~ (AverageMeter.count m + n == 0)%Q)
    /\ snd (AverageMeter.update (AverageMeter.reset m) v 0) = Raise ZeroDivisionError
    /\ snd (AverageMeter.update
              (AverageMeter.init (AverageMeter.name m) (AverageMeter.fmt m)
                 (AverageMeter.summary_type m) (AverageMeter.device m)) v 0)
       = Raise ZeroDivisionError.
Proof.
  intros m v n.
  assert (R : forall m' v' n',
             snd (AverageMeter.update m' v' n') = Raise ZeroDivisionError
             <-> (AverageMeter.count m' + n' == 0)%Q).
  { intros m' v' n'. unfold AverageMeter.update.
    cbn [AverageMeter.sum AverageMeter.count].
    rewrite <- (truediv_raises (AverageMeter.sum m' + v' * n')).
    destruct truediv; cbn [snd]; split; congruence. }
  split; [apply R|]. split; [|split].
  - unfold AverageMeter.update. cbn [AverageMeter.sum AverageMeter.count].
    unfold truediv. destruct (Qeq_bool (AverageMeter.count m + n) 0) eqn:E; cbn [snd].
    + apply Qeq_bool_eq in E. split; [discriminate | tauto].
    + apply Qeq_bool_neq in E. tauto.
  - apply R. reflexivity.
  - apply R. reflexivity.
Qed.

(** ** Text: decimal digits and [str.format] *)

Lemma string_app_assoc (a b c : string) : (a ++ b) ++ c = a ++ (b ++ c).
Proof. induction a as [|x a IH]; cbn; [reflexivity | now rewrite IH]. Qed.

Lemma string_app_nil_r (a : string) : a ++ "" = a.
Proof. induction a as [|x a IH]; cbn; [reflexivity | now rewrite IH]. Qed.

Lemma string_length_app (a b : string) :
  String.length (a ++ b) = (String.length a + String.length b)%nat.
Proof. induction a as [|x a IH]; cbn; [reflexivity | now rewrite IH]. Qed.

Lemma bind_Ok {A : Type} (r : result A) : bind r Ok = r.
Proof. destruct r; reflexivity. Qed.

Lemma all_chars_app (p : ascii -> bool) (a b : string) :
  all_chars p (a ++ b) = all_chars p a && all_chars p b.
Proof.
  induction a as [|x a IH]; cbn; [reflexivity|].
  now rewrite IH, andb_assoc.
Qed.

Lemma all_chars_weaken (p q : ascii -> bool) (s : string) :
  (forall c, p c = true -> q c = true) ->
  all_chars p s = true -> all_chars q s = true.
Proof.
  intros Hpq. induction s as [|c s IH]; cbn; [reflexivity|].
  intros H. apply andb_true_iff in H as [Hc Hs].
  now rewrite (Hpq _ Hc), (IH Hs).
Qed.

Lemma uint_string_digits (d : Decimal.uint) :
  all_chars is_digit (NilEmpty.string_of_uint d) = true.
Proof. induction d; cbn; auto. Qed.

Lemma nzhead_not_D0 (d : Decimal.uint) :
  match Decimal.nzhead d with Decimal.D0 _ => False | _ => True end.
Proof. induction d; cbn; auto. Qed.

(** The decimal text of a positive number: digits, the first one not [0]. *)
Lemma pos_uint_shape (p : positive) :
  match Pos.to_uint p with
  | Decimal.Nil | Decimal.D0 _ => False
  | _ => True
  end.
Proof.
  pose proof (DecimalPos.Unsigned.to_of (Pos.to_uint p)) as H.
  rewrite DecimalPos.Unsigned.of_to in H. cbn [N.to_uint] in H.
  pose proof (DecimalPos.Unsigned.to_uint_nonzero p) as Hz.
  pose proof (nzhead_not_D0 (Pos.to_uint p)) as Hh.
  unfold Decimal.unorm in H.
  destruct (Decimal.nzhead (Pos.to_uint p)) eqn:E;
    try contradiction; try (rewrite H; exact I).
Qed.

Lemma str_int_pos (p : positive) :
  str_int (Zpos p) = NilEmpty.string_of_uint (Pos.to_uint p).
Proof.
  unfold str_int. cbn [Z.to_int NilZero.string_of_int].
  pose proof (pos_uint_shape p) as H.
  destruct (Pos.to_uint p); try reflexivity. contradiction.
Qed.

Lemma str_int_neg (p : positive) :
  str_int (Zneg p) = String "-" (str_int (Zpos p)).
Proof.
  rewrite str_int_pos. unfold str_int.
  cbn [Z.to_int NilZero.string_of_int].
  pose proof (pos_uint_shape p) as H.
  destruct (Pos.to_uint p); try reflexivity. contradiction.
Qed.

Lemma str_int_nonneg_digits (z : Z) :
  0 <= z -> all_chars is_digit (str_int z) = true.
Proof.
  destruct z as [|p|p]; intros H; [reflexivity | | lia].
  rewrite str_int_pos. apply uint_string_digits.
Qed.

Lemma str_int_no_brace (z : Z) :
  all_chars (fun c => negb (is_brace c)) (str_int z) = true.
Proof.
  assert (D : forall c, is_digit c = true -> negb (is_brace c) = true).
  { intros c. unfold is_digit, is_brace.
    destruct c as [[] [] [] [] [] [] [] []]; vm_compute; congruence. }
  destruct z as [|p|p]; [reflexivity | |].
  - apply (all_chars_weaken is_digit); [exact D|].
    now apply str_int_nonneg_digits.
  - rewrite str_int_neg. cbn [all_chars]. apply andb_true_iff. split; [reflexivity|].
    apply (all_chars_weaken is_digit); [exact D|].
    now apply str_int_nonneg_digits.
Qed.

Lemma str_int_length_pos (z : Z) : (1 <= String.length (str_int z))%nat.
Proof.
  destruct z as [|p|p]; [cbn; lia | | rewrite str_int_neg; cbn; lia].
  rewrite str_int_pos. pose proof (pos_uint_shape p) as H.
  destruct (Pos.to_uint p); cbn; try lia; contradiction.
Qed.

Lemma width_of_str_int (z : Z) : 0 <= z -> width_of (str_int z) = z.
Proof.
  destruct z as [|p|p]; intros H; [reflexivity | | lia].
  rewrite str_int_pos. unfold width_of. rewrite NilEmpty.usu.
  unfold Z.of_uint. now rewrite DecimalPos.Unsigned.of_to.
Qed.

Lemma span_digits_app (d : string) (c : ascii) (r : string) :
  all_chars is_digit d = true -> is_digit c = false ->
  span_digits (d ++ String c r) = (d, String c r).
Proof.
  intros Hd Hc. induction d as [|x d IH]; cbn.
  - now rewrite Hc.
  - cbn in Hd. apply andb_true_iff in Hd as [Hx Hd].
    now rewrite Hx, (IH Hd).
Qed.

(** Under the spec [<n>d], [n >= 1] written in decimal, an int is
    right-aligned in [n] columns and padded with spaces. *)
Lemma format_int_width (z : Z) (n : nat) :
  (1 <= n)%nat ->
  format_int z (str_int (Z.of_nat n) ++ "d") = Ok (rjust n (str_int z)).
Proof.
  intros Hn.
  assert (Hw : width_of (str_int (Z.of_nat n)) = Z.of_nat n)
    by (apply width_of_str_int; lia).
  assert (Hd : all_chars is_digit (str_int (Z.of_nat n)) = true)
    by (apply str_int_nonneg_digits; lia).
  assert (Hs : span_digits (str_int (Z.of_nat n) ++ "d")
               = (str_int (Z.of_nat n), "d"))
    by (apply span_digits_app; [exact Hd | reflexivity]).
  revert Hw Hd Hs.
  destruct (Z.of_nat n) as [|p|p] eqn:E; try lia.
  rewrite str_int_pos. pose proof (pos_uint_shape p) as Hp.
  unfold format_int.
  destruct (Pos.to_uint p) eqn:Eu; try contradiction;
    cbn [NilEmpty.string_of_uint append]; intros Hw Hd Hs;
    cbn [NilEmpty.string_of_uint append] in Hs; rewrite Hs;
    cbn [String.eqb Ascii.eqb Bool.eqb orb]; rewrite Hw;
    unfold rjust; do 3 f_equal; lia.
Qed.

(** Literal text free of braces is copied. *)
Lemma format_go_literal (fv : pyval -> string -> result string)
    (args : list pyval) (kwargs : string -> option pyval) (s t : string) :
  all_chars (fun c => negb (is_brace c)) s = true ->
  format_go fv args kwargs (s ++ t) None
  = (rest <- format_go fv args kwargs t None ;; Ok (s ++ rest)).
Proof.
  induction s as [|c s IH]; cbn [append all_chars]; intros H.
  - now rewrite bind_Ok.
  - apply andb_true_iff in H as [Hc Hs]. unfold is_brace in Hc.
    apply negb_true_iff, orb_false_iff in Hc as [Ho Hcl].
    cbn [format_go]. rewrite Ho, Hcl, (IH Hs).
    destruct (format_go fv args kwargs t None); reflexivity.
Qed.

(** Inside a replacement field the text is collected up to the closing
    brace. *)
Lemma format_go_field (fv : pyval -> string -> result string)
    (args : list pyval) (kwargs : string -> option pyval) (g f t : string) :
  all_chars (fun c => negb (is_brace c)) g = true ->
  format_go fv args kwargs (g ++ String "}" t) (Some f)
  = format_go fv args kwargs (String "}" t) (Some (f ++ g)).
Proof.
  revert f. induction g as [|c g IH]; cbn [append all_chars]; intros f H.
  - now rewrite string_app_nil_r.
  - apply andb_true_iff in H as [Hc Hs]. unfold is_brace in Hc.
    apply negb_true_iff, orb_false_iff in Hc as [Ho Hcl].
    cbn [format_go]. rewrite Hcl, (IH _ Hs), string_app_assoc. reflexivity.
Qed.

(** One positional int under [{:<n>d}] between two brace-free texts. *)
Lemma str_format_counter (format_number : Q -> string -> result string)
    (pre post : string) (n : nat) (z : Z) :
  (1 <= n)%nat ->
  all_chars (fun c => negb (is_brace c)) pre = true ->
  all_chars (fun c => negb (is_brace c)) post = true ->
  str_format format_number
    (pre ++ "{:" ++ str_int (Z.of_nat n) ++ "d}" ++ post)
    [PyInt z] (fun _ => None)
  = Ok (pre ++ rjust n (str_int z) ++ post).
Proof.
  intros Hn Hpre Hpost. unfold str_format.
  rewrite (format_go_literal _ _ _ _ _ Hpre).
  replace ("{:" ++ str_int (Z.of_nat n) ++ "d}" ++ post)
    with (String "{" ((":" ++ str_int (Z.of_nat n) ++ "d") ++ String "}" post))
    by (cbn [append]; do 2 f_equal; rewrite string_app_assoc; reflexivity).
  change (format_go ?fv ?a ?k (String "{" ?s) None)
    with (format_go fv a k s (Some "")).
  rewrite format_go_field.
  - change (format_go ?fv ?a ?k (String "}" ?s) (Some ("" ++ ":" ++ ?sp)))
      with (match a with
            | v :: a' =>
                txt <- fv v sp ;; rest <- format_go fv a' k s None ;;
                Ok (txt ++ rest)
            | [] => Raise (IndexError "Replacement index out of range for positional args tuple")
            end).
    cbn [format_value]. rewrite (format_int_width z n Hn). cbn [bind].
    replace post with (post ++ "") at 1 by apply string_app_nil_r.
    rewrite (format_go_literal _ _ _ _ _ Hpost).
    cbn [format_go bind]. now rewrite string_app_nil_r.
  - cbn [append all_chars]. apply andb_true_iff. split; [reflexivity|].
    rewrite all_chars_app, str_int_no_brace. reflexivity.
Qed.

Lemma get_batch_fmtstr_value (format_number : Q -> string -> result string)
    (total : Z) :
  ProgressMeter._get_batch_fmtstr format_number total
  = Ok ("[" ++ ("{:" ++ str_int (Z.of_nat (String.length (str_int total)))
                ++ "d}") ++ "/" ++ str_int total ++ "]").
Proof.
  unfold ProgressMeter._get_batch_fmtstr. rewrite Z.div_1_r.
  pose proof (str_format_counter format_number "" ""
                (String.length (str_int total)) total
                (str_int_length_pos total) eq_refl eq_refl) as H.
  cbn [append] in H. cbn [append]. rewrite H. cbn [bind].
  unfold rjust. rewrite Nat.sub_diag. cbn [repeat_char append].
  now rewrite string_app_nil_r.
Qed.

(** C8, as the code has it.  For every total step count and every step
    value, [display(step)] prints the prefix followed by a [[step/total]]
    counter in which the step number is right-aligned and padded on the
    left with spaces to the number of characters of [str(total)], followed
    by each meter's textual rendering, the entries separated by tabs. *)
Theorem ProgressMeter_display_line (format_number : Q -> string -> result string)
    (total : Z) (meters : list AverageMeter.t) (prefix : string) (step : Z)
    (rendered : list string) :
  map_result (AverageMeter.str format_number) meters = Ok rendered ->
  exists pm : ProgressMeter.t,
    ProgressMeter.init format_number total meters prefix = Ok pm
    /\ ProgressMeter.display format_number pm step
       = Ok (join (String (ascii_of_nat 9) "")
               ((prefix ++ "[" ++ rjust (String.length (str_int total)) (str_int step)
                        ++ "/" ++ str_int total ++ "]") :: rendered)).
Proof.
  intros Hm. unfold ProgressMeter.init.
  rewrite get_batch_fmtstr_value. cbn [bind]. eexists. split; [reflexivity|].
  unfold ProgressMeter.display.
  cbn [ProgressMeter.batch_fmtstr ProgressMeter.meters ProgressMeter.prefix].
  pose proof (str_format_counter format_number "[" ("/" ++ str_int total ++ "]")
                (String.length (str_int total)) step
                (str_int_length_pos total) eq_refl) as H.
  cbn [append] in H.
  replace (("{:" ++ str_int (Z.of_nat (String.length (str_int total))) ++ "d}")
           ++ "/" ++ str_int total ++ "]")
    with ("{:" ++ str_int (Z.of_nat (String.length (str_int total)))
               ++ "d}" ++ "/" ++ str_int total ++ "]").
  2:{ cbn [append]. do 2 f_equal. rewrite string_app_assoc. reflexivity. }
  cbn [append]. rewrite H.
  - cbn [bind]. rewrite Hm. reflexivity.
  - cbn [all_chars]. apply andb_true_iff. split; [reflexivity|].
    rewrite all_chars_app, str_int_no_brace. reflexivity.
Qed.


Lemma ProgressMeter_display_line_witness :
  exists pm : ProgressMeter.t,
    ProgressMeter.init format_number_floor 2500
      [AverageMeter.init "Time" ":6.3f" (Member AVERAGE) "cpu";
       AverageMeter.init "Loss" ":.4e" (Member AVERAGE) "cpu"] "Test: " = Ok pm
    /\ ProgressMeter.display format_number_floor pm 37
       = Ok (join (String (ascii_of_nat 9) "")
               (("Test: " ++ "[" ++ rjust (String.length (str_int 2500)) (str_int 37)
                          ++ "/" ++ str_int 2500 ++ "]")
                :: ["Time 0 (0)"; "Loss 0 (0)"])).
Proof.
  apply (ProgressMeter_display_line format_number_floor 2500
           [AverageMeter.init "Time" ":6.3f" (Member AVERAGE) "cpu";
            AverageMeter.init "Loss" ":.4e" (Member AVERAGE) "cpu"]
           "Test: " 37 ["Time 0 (0)"; "Loss 0 (0)"]).
  reflexivity.
Defined.

(** C8, as stated, fails.  With 100 steps in total and no meters,
    [display(5)] prints the counter [[  5/100]]: the step is padded with two
    spaces, where zero padding to the digit width of the total would give
    [[005/100]].  (Without meters no number is rendered, so the line does not
    depend on the float formatting passed in.) *)
Lemma ProgressMeter_display_not_zero_padded :
  exists pm : ProgressMeter.t,
    ProgressMeter.init format_number_floor 100 [] "" = Ok pm
    /\ ProgressMeter.display format_number_floor pm 5 = Ok "[  5/100]"
    /\ "[" ++ zfill (String.length (str_int 100)) 5 ++ "/" ++ str_int 100 ++ "]"
       = "[005/100]"
    /\ ProgressMeter.display format_number_floor pm 5
       <> Ok ("[" ++ zfill (String.length (str_int 100)) 5 ++ "/"
                  ++ str_int 100 ++ "]").
Proof.
  eexists. split; [reflexivity|]. split; [reflexivity|].
  split; [reflexivity|]. vm_compute. discriminate.
Qed.

(** The padded step has exactly as many characters as [str(total)] whenever
    the step's text is not longer. *)
Lemma rjust_length (n : nat) (s : string) :
  String.length (rjust n s) = Nat.max n (String.length s).
Proof.
  unfold rjust. rewrite string_length_app.
  assert (L : forall c k, String.length (repeat_char c k) = k).
  { intros c k. induction k as [|k IH]; cbn; [reflexivity | now rewrite IH]. }
  rewrite L. lia.
Qed.

(** ** The driver: step arithmetic *)

Example py_round_ties :
  py_round (5 # 2) = 2 /\ py_round (7 # 2) = 4 /\ py_round (- 5 # 2) = -2
  /\ py_round (1 # 2) = 0 /\ py_round (3 # 2) = 2.
Proof. repeat split. Qed.

(** [round] moves its argument by at most one half. *)
Lemma py_round_nearest (q : Q) :
  (Qabs (q - inject_Z (py_round q)) <= 1 # 2)%Q.
Proof.
  unfold py_round.
  pose proof (Qfloor_le q) as Hlo. pose proof (Qlt_floor q) as Hhi.
  rewrite inject_Z_plus in Hhi. change (inject_Z 1) with 1%Q in Hhi.
  set (f := Qfloor q) in *.
  apply Qabs_Qle_condition.
  destruct (q - inject_Z f ?= 1 # 2)%Q eqn:C.
  - apply Qeq_alt in C.
    destruct (Z.even f); [|rewrite inject_Z_plus; change (inject_Z 1) with 1%Q];
      split; Lqa.lra.
  - apply Qlt_alt in C. split; Lqa.lra.
  - apply Qgt_alt in C. rewrite inject_Z_plus. change (inject_Z 1) with 1%Q.
    split; Lqa.lra.
Qed.

Lemma steps_at_returns (n epoch B : Z) :
  B <> 0 ->
  steps_at n epoch B = Ok (py_round (inject_Z (n * epoch) / inject_Z B)).
Proof.
  intros HB. unfold steps_at. rewrite truediv_returns; [reflexivity|].
  intros E. apply HB. unfold Qeq in E. cbn in E. lia.
Qed.

Lemma map_result_total {A B : Type} (f : A -> result B) (g : A -> B)
    (l : list A) :
  (forall a, f a = Ok (g a)) -> map_result f l = Ok (map g l).
Proof.
  intros H. induction l as [|a l IH]; cbn; [reflexivity|].
  now rewrite H, IH.
Qed.

(** C5. At startup [total_steps = round(n * E / B)], and the set of
    forced-evaluation steps contains [total_steps] whatever [--log-epoch]
    values were given; for n = 1000, E = 2, B = 256 the quotient is 7.8125
    and [total_steps] is 8. *)
Theorem main_worker_total_steps_specified :
  (forall (n E B : Z) (log_epoch : list Z),
      B <> 0 ->
      exists (total_steps : Z) (specified_steps : gset Z),
        main_worker_steps n E B log_epoch = Ok (total_steps, specified_steps)
        /\ total_steps = py_round (inject_Z (n * E) / inject_Z B)
        /\ total_steps ∈ specified_steps)
  /\ (inject_Z (1000 * 2) / inject_Z 256 == 78125 # 10000)%Q
  /\ (forall log_epoch : list Z,
        exists specified_steps : gset Z,
          main_worker_steps 1000 2 256 log_epoch = Ok (8, specified_steps)
          /\ 8 ∈ specified_steps).
Proof.
  assert (G : forall (n E B : Z) (log_epoch : list Z),
      B <> 0 ->
      exists (total_steps : Z) (specified_steps : gset Z),
        main_worker_steps n E B log_epoch = Ok (total_steps, specified_steps)
        /\ total_steps = py_round (inject_Z (n * E) / inject_Z B)
        /\ total_steps ∈ specified_steps).
  { intros n E B log_epoch HB. unfold main_worker_steps.
    rewrite (steps_at_returns n E B HB). cbn [bind].
    rewrite (map_result_total _
               (fun epoch => py_round (inject_Z (n * epoch) / inject_Z B))).
    2:{ intros a. now apply steps_at_returns. }
    cbn [bind]. eexists _, _. split; [reflexivity|].
    split; [reflexivity | set_solver]. }
  split; [exact G|]. split; [reflexivity|].
  intros log_epoch.
  destruct (G 1000 2 256 log_epoch) as (t & sp & H1 & H2 & H3); [lia|].
  exists sp. change (py_round (inject_Z (1000 * 2) / inject_Z 256)) with 8 in H2.
  subst t. auto.
Qed.

Lemma main_worker_total_steps_specified_witness :
  exists (total_steps : Z) (specified_steps : gset Z),
    main_worker_steps 1281167 90 1024 [30; 60] = Ok (total_steps, specified_steps)
    /\ total_steps = py_round (inject_Z (1281167 * 90) / inject_Z 1024)
    /\ total_steps ∈ specified_steps.
Proof.
  apply (proj1 main_worker_total_steps_specified 1281167 90 1024 [30; 60]). lia.
Defined.

(** A zero batch size raises before any step count exists. *)
Lemma main_worker_steps_zero_batch (n E : Z) (log_epoch : list Z) :
  main_worker_steps n E 0 log_epoch = Raise ZeroDivisionError.
Proof. reflexivity. Qed.

(** ** The driver: best accuracy across a resume *)

(** [train] never looks at the module-level [best_acc1]. *)
Lemma train_ignores_global (g g' : globals) (evals : list (Z * Q)) :
  snd (train g evals) = snd (train g' evals).
Proof. reflexivity. Qed.

(** What [train] saves does not depend on the checkpoint resumed from. *)
Lemma resume_and_train_ignores_checkpoint (start_step : Z)
    (c : checkpoint) (evals : list (Z * Q)) :
  snd (resume_and_train start_step (Some c) evals)
  = snd (resume_and_train start_step None evals).
Proof. reflexivity. Qed.

(** C6 fails on the code.  Resuming from a checkpoint saved at step 100 with
    best accuracy 80, a first evaluation at step 200 with accuracy 50: the
    module-level variable holds 80 after setup, but [train] compares against
    its own local 0, marks the step as best and saves 50 as the best
    accuracy. *)
Theorem train_best_acc1_not_restored :
  let resumed := {| ckpt_step := 100; ckpt_best_acc1 := 80 |} in
  best_acc1 (fst (main_worker_resume module_globals 0 (Some resumed))) = 80%Q
  /\ resume_and_train 0 (Some resumed) [(200, 50%Q)]
     = ({| best_acc1 := 80 |},
        [(true, {| ckpt_step := 200; ckpt_best_acc1 := 50 |})])
  /\ fst (snd (train_evaluate 200 80 50)) = false.
Proof. repeat split. Qed.

(** ** The positional embedding *)

Lemma arange_nonneg (n : Z) :
  0 <= n -> arange n = Ok (map Z.of_nat (seq 0 (Z.to_nat n))).
Proof.
  intros H. unfold arange. destruct (n <? 0) eqn:E; [lia | reflexivity].
Qed.

Lemma lookup_map {A B : Type} (f : A -> B) (l : list A) (i : nat) :
  map f l !! i = option_map f (l !! i).
Proof. apply (list_lookup_fmap f l i). Qed.

(** A position in a flattened grid whose rows all have [n] entries. *)
Lemma lookup_concat_rows {A : Type} (n : nat) (rows : list (list A))
    (i j : nat) :
  Forall (fun r => length r = n) rows -> (j < n)%nat ->
  concat rows !! (i * n + j)%nat
  = match rows !! i with Some r => r !! j | None => None end.
Proof.
  intros Hrows Hj. revert i.
  induction Hrows as [|r rows Hr _ IH]; intros i; [now destruct i|].
  cbn [concat]. destruct i as [|i].
  - cbn. apply lookup_app_l. lia.
  - rewrite lookup_app_r by (cbn; lia).
    replace (S i * n + j - length r)%nat with (i * n + j)%nat by (cbn; lia).
    apply IH.
Qed.

Lemma length_concat_rows {A : Type} (n : nat) (rows : list (list A)) :
  Forall (fun r => length r = n) rows ->
  length (concat rows) = (length rows * n)%nat.
Proof.
  induction 1 as [|r rows Hr _ IH]; [reflexivity|].
  cbn [concat]. rewrite length_app, IH, Hr. cbn. lia.
Qed.

Lemma lookup_arange_list (n i : nat) :
  (i < n)%nat -> map Z.of_nat (seq 0 n) !! i = Some (Z.of_nat i).
Proof.
  intros H. rewrite lookup_map, lookup_seq_lt by exact H. reflexivity.
Qed.

Lemma meshgrid_rows (ys xs : list Z) :
  Forall (fun r : list Z => length r = length xs) (fst (meshgrid_ij ys xs))
  /\ Forall (fun r : list Z => length r = length xs) (snd (meshgrid_ij ys xs))
  /\ length (fst (meshgrid_ij ys xs)) = length ys
  /\ length (snd (meshgrid_ij ys xs)) = length ys.
Proof.
  unfold meshgrid_ij. cbn [fst snd]. repeat split.
  - apply List.Forall_forall. intros r Hr.
    apply in_map_iff in Hr as (a & <- & _). now rewrite length_map.
  - apply List.Forall_forall. intros r Hr.
    now apply in_map_iff in Hr as (a & <- & _).
  - now rewrite length_map.
  - now rewrite length_map.
Qed.

(** The [y] grid of [meshgrid], flattened, holds the row number; the [x]
    grid holds the column number: row-major order. *)
Lemma lookup_flat_grid (h w i j : nat) :
  (i < h)%nat -> (j < w)%nat ->
  flatten (fst (meshgrid_ij (map Z.of_nat (seq 0 h)) (map Z.of_nat (seq 0 w))))
    !! (i * w + j)%nat = Some (Z.of_nat i)
  /\ flatten (snd (meshgrid_ij (map Z.of_nat (seq 0 h)) (map Z.of_nat (seq 0 w))))
       !! (i * w + j)%nat = Some (Z.of_nat j).
Proof.
  intros Hi Hj.
  set (ys := map Z.of_nat (seq 0 h)). set (xs := map Z.of_nat (seq 0 w)).
  assert (Lx : length xs = w) by (unfold xs; now rewrite length_map, length_seq).
  destruct (meshgrid_rows ys xs) as (Fy & Fx & _ & _). rewrite Lx in Fy, Fx.
  unfold flatten. split.
  - rewrite (lookup_concat_rows w _ i j Fy Hj).
    unfold meshgrid_ij. cbn [fst]. rewrite lookup_map.
    unfold ys. rewrite (lookup_arange_list h i Hi). cbn [option_map].
    rewrite lookup_map. unfold xs. now rewrite (lookup_arange_list w j Hj).
  - rewrite (lookup_concat_rows w _ i j Fx Hj).
    unfold meshgrid_ij. cbn [snd]. rewrite lookup_map.
    unfold ys. rewrite (lookup_arange_list h i Hi). cbn [option_map].
    unfold xs. apply (lookup_arange_list w j Hj).
Qed.

Lemma length_flat_grid (h w : nat) :
  length (flatten (fst (meshgrid_ij (map Z.of_nat (seq 0 h))
                                    (map Z.of_nat (seq 0 w))))) = (h * w)%nat
  /\ length (flatten (snd (meshgrid_ij (map Z.of_nat (seq 0 h))
                                       (map Z.of_nat (seq 0 w))))) = (h * w)%nat.
Proof.
  set (ys := map Z.of_nat (seq 0 h)). set (xs := map Z.of_nat (seq 0 w)).
  assert (Lx : length xs = w) by (unfold xs; now rewrite length_map, length_seq).
  assert (Ly : length ys = h) by (unfold ys; now rewrite length_map, length_seq).
  destruct (meshgrid_rows ys xs) as (Fy & Fx & Ny & Nx). rewrite Lx in Fy, Fx.
  unfold flatten.
  rewrite (length_concat_rows w _ Fy), (length_concat_rows w _ Fx), Ny, Nx, Ly.
  now split.
Qed.

(** The frequencies computed by the code are those of the specification. *)
Lemma omega_code_spec (dim temperature : Z) :
  temperature = 10000 ->
  map (fun o => (1 / Rpower (IZR temperature) o)%R)
    (map (fun k => (IZR k / IZR (dim / 4 - 1))%R)
       (map Z.of_nat (seq 0 (Z.to_nat (dim / 4)))))
  = map (omega_spec dim) (seq 0 (Z.to_nat (dim / 4))).
Proof.
  intros ->. rewrite !map_map. apply map_ext. intros k.
  unfold omega_spec. now rewrite <- INR_IZR_INZ.
Qed.

Lemma outer_lookup (v : list Z) (omega : vector) (i : nat) (a : Z) :
  v !! i = Some a ->
  outer v omega !! i = Some (map (fun o => (IZR a * o)%R) omega).
Proof. intros H. unfold outer. now rewrite lookup_map, H. Qed.

Lemma outer_omega_spec (dim a : Z) :
  map (fun o => (IZR a * o)%R) (map (omega_spec dim) (seq 0 (Z.to_nat (dim / 4))))
  = scaled_omega dim a.
Proof. unfold scaled_omega. now rewrite map_map. Qed.

Lemma cat1_four_lookup (a b c d : matrix) (i : nat) (ra rb rc rd : vector) :
  a !! i = Some ra -> b !! i = Some rb -> c !! i = Some rc -> d !! i = Some rd ->
  cat1 [a; b; c; d] !! i = Some (ra ++ rb ++ rc ++ rd)%list.
Proof.
  intros Ha Hb Hc Hd. cbn [cat1 fold_left].
  rewrite !lookup_zip_with, Ha, Hb, Hc, Hd. cbn.
  now rewrite <- !app_assoc.
Qed.

Lemma cat1_four_length (a b c d : matrix) (n : nat) :
  length a = n -> length b = n -> length c = n -> length d = n ->
  length (cat1 [a; b; c; d]) = n.
Proof.
  intros Ha Hb Hc Hd. cbn [cat1 fold_left].
  rewrite !length_zip_with. lia.
Qed.

Lemma scaled_omega_length (dim v : Z) :
  length (scaled_omega dim v) = Z.to_nat (dim / 4).
Proof. unfold scaled_omega. now rewrite length_map, length_seq. Qed.

(** C2. For every grid height [h], width [w] and embedding dimension [dim]
    divisible by 4 and other than 4, [posemb_sincos_2d(h, w, dim)] returns a
    value fixed by its arguments (the function draws no random numbers), of
    shape [(h * w, dim)], whose row for the grid cell at row [y], column [x]
    (row-major order) is the concatenation of [sin(x * omega)],
    [cos(x * omega)], [sin(y * omega)], [cos(y * omega)], each of length
    [dim / 4], with [omega_k = 1 / 10000^(k / (dim/4 - 1))].  The dimension 4
    is left out: there the only exponent is [0 / 0], the formula has no value
    over the reals, and torch fills the table with NaN. *)
Theorem posemb_sincos_2d_rows :
  forall h w dim : Z,
    0 <= h -> 0 <= w -> 0 <= dim -> dim mod 4 = 0 -> dim <> 4 ->
    exists pe : matrix,
      (forall pe' : matrix, posemb_sincos_2d h w dim 10000 = Ok pe' <-> pe' = pe)
      /\ length pe = Z.to_nat (h * w)
      /\ (forall (i : nat) (row : vector),
             pe !! i = Some row -> length row = Z.to_nat dim)
      /\ (forall y x : Z,
             0 <= y < h -> 0 <= x < w ->
             pe !! Z.to_nat (y * w + x)
             = Some (map sin (scaled_omega dim x) ++ map cos (scaled_omega dim x)
                     ++ map sin (scaled_omega dim y)
                     ++ map cos (scaled_omega dim y))%list
               /\ length (scaled_omega dim x) = Z.to_nat (dim / 4)
               /\ scaled_omega dim x
                  = map (fun k => (IZR x * (1 / Rpower 10000
                                     (INR k / IZR (dim / 4 - 1))))%R)
                        (seq 0 (Z.to_nat (dim / 4)))).
Proof.
  intros h w dim Hh Hw Hdim Hmod _.
  unfold posemb_sincos_2d.
  rewrite (arange_nonneg h Hh), (arange_nonneg w Hw). cbn [bind].
  unfold py_mod. cbn [Z.eqb]. rewrite Hmod. cbn [bind Z.eqb torch_assert].
  assert (Hq : 0 <= dim / 4) by (apply Z.div_pos; lia).
  rewrite (arange_nonneg _ Hq). cbn [bind].
  rewrite (omega_code_spec dim 10000 eq_refl).
  set (H := Z.to_nat h). set (W := Z.to_nat w).
  set (omega := map (omega_spec dim) (seq 0 (Z.to_nat (dim / 4)))).
  pose proof (fun i j => lookup_flat_grid H W i j) as G.
  destruct (length_flat_grid H W) as [Ly Lx].
  destruct (meshgrid_ij (map Z.of_nat (seq 0 H)) (map Z.of_nat (seq 0 W)))
    as [gy gx] eqn:Eg.
  cbn [fst snd] in G, Ly, Lx.
  eexists. split; [intros pe'; split; [intros E; injection E as <-; reflexivity
                                     | intros ->; reflexivity]|].
  assert (HW : Z.to_nat (h * w) = (H * W)%nat) by (unfold H, W; lia).
  split; [|split].
  - rewrite HW. apply cat1_four_length;
      unfold outer; now rewrite !length_map.
  - intros i row Hrow. cbn [cat1 fold_left] in Hrow.
    rewrite !lookup_zip_with in Hrow.
    unfold outer in Hrow. rewrite !lookup_map in Hrow.
    destruct (flatten gx !! i) as [a|]; [|discriminate].
    destruct (flatten gy !! i) as [b|]; [|discriminate].
    cbn in Hrow. injection Hrow as <-.
    rewrite !length_app, !length_map. unfold omega.
    rewrite length_map, length_seq.
    pose proof (Z.div_mod dim 4 ltac:(lia)) as Hd. lia.
  - intros y x Hy Hx.
    split; [|split; [apply scaled_omega_length | reflexivity]].
    specialize (G (Z.to_nat y) (Z.to_nat x) ltac:(unfold H; lia) ltac:(unfold W; lia)).
    destruct G as (Gy & Gx).
    rewrite !Z2Nat.id in Gy, Gx by lia.
    replace (Z.to_nat (y * w + x)) with (Z.to_nat y * W + Z.to_nat x)%nat
      by (unfold W; nia).
    rewrite <- (outer_omega_spec dim x), <- (outer_omega_spec dim y).
    fold omega.
    apply cat1_four_lookup; rewrite lookup_map;
      first [rewrite (outer_lookup _ _ _ _ Gx) | rewrite (outer_lookup _ _ _ _ Gy)];
      reflexivity.
Qed.

Lemma posemb_sincos_2d_rows_witness :
  exists pe : matrix,
    length pe = Z.to_nat (14 * 14)
    /\ (forall (i : nat) (row : vector),
           pe !! i = Some row -> length row = Z.to_nat 384)
    /\ pe !! Z.to_nat (3 * 14 + 5)
       = Some (map sin (scaled_omega 384 5) ++ map cos (scaled_omega 384 5)
               ++ map sin (scaled_omega 384 3) ++ map cos (scaled_omega 384 3))%list
    /\ posemb_sincos_2d 14 14 384 10000 = Ok pe.
Proof.
  destruct (posemb_sincos_2d_rows 14 14 384) as (pe & Hdet & Hlen & Hrow & Hcell);
    [lia | lia | lia | reflexivity | lia |].
  exists pe. split; [exact Hlen|]. split; [exact Hrow|].
  split; [apply (Hcell 3 5); lia | now apply Hdet].
Defined.

(** Without the divisibility the function raises, whatever the result of
    the grid computation before the check. *)
Lemma posemb_sincos_2d_indivisible (h w dim temperature : Z) :
  0 <= h -> 0 <= w -> dim mod 4 <> 0 ->
  posemb_sincos_2d h w dim temperature
  = Raise (AssertionError "feature dimension must be multiple of 4 for sincos emb").
Proof.
  intros Hh Hw Hmod. unfold posemb_sincos_2d.
  rewrite (arange_nonneg h Hh), (arange_nonneg w Hw). cbn [bind].
  destruct (meshgrid_ij _ _) as [gy gx].
  unfold py_mod. cbn [Z.eqb bind].
  destruct (dim mod 4 =? 0) eqn:E; [lia | reflexivity].
Qed.

Lemma posemb_sincos_2d_returns (h w dim temperature : Z) :
  0 <= h -> 0 <= w -> 0 <= dim -> dim mod 4 = 0 ->
  exists pe : matrix, posemb_sincos_2d h w dim temperature = Ok pe.
Proof.
  intros Hh Hw Hdim Hmod. unfold posemb_sincos_2d.
  rewrite (arange_nonneg h Hh), (arange_nonneg w Hw). cbn [bind].
  destruct (meshgrid_ij _ _) as [gy gx].
  unfold py_mod. cbn [Z.eqb bind]. rewrite Hmod. cbn [Z.eqb torch_assert bind].
  rewrite arange_nonneg by (apply Z.div_pos; lia). cbn [bind]. eauto.
Qed.

(** ** The classification head *)

Lemma dot_zero_weights (row x : vector) :
  dot (map (fun _ => 0%R) row) x = 0%R.
Proof.
  unfold dot. revert x. induction row as [|a row IH]; intros [|b x];
    cbn; try reflexivity.
  unfold Rsum in IH. rewrite IH. lra.
Qed.

(** A linear layer whose weight and bias were zeroed maps every row to
    zeros. *)
Lemma linear_zeroed (weight : matrix) (bias : vector) (x : vector) :
  linear (map (map (fun _ => 0%R)) weight) (map (fun _ => 0%R) bias) x
  = zeros (Nat.min (length weight) (length bias)).
Proof.
  unfold linear, zeros. revert bias.
  induction weight as [|row weight IH]; intros [|b bias]; cbn; try reflexivity.
  rewrite dot_zero_weights, IH. f_equal. lra.
Qed.

Lemma length_tabulate {A : Type} (n : nat) (f : nat -> A) :
  length (tabulate n f) = n.
Proof. unfold tabulate. now rewrite length_map, length_seq. Qed.

Lemma zeroed_fresh_head (env : init_env) (name : string) (i o : Z) (x : vector) :
  layer_forward
    (init_zeros_bias (init_zeros_weight (Linear_init env name i o))) x
  = zeros (Z.to_nat o).
Proof.
  unfold Linear_init. cbn [init_zeros_weight init_zeros_bias layer_forward].
  rewrite linear_zeroed, !length_tabulate. now rewrite Nat.min_id.
Qed.

(** ** Construction *)

Lemma math_sqrt_ratio_pos (num den : Z) :
  0 < num -> 0 < den -> math_sqrt_ratio num den = Ok tt.
Proof.
  intros Hn Hd. unfold math_sqrt_ratio.
  destruct (den =? 0) eqn:E; [lia|].
  destruct (num * den <? 0) eqn:E'; [nia | reflexivity].
Qed.

Lemma Encoder_init_loop_ok (n : nat) : Encoder_init_loop n (Ok tt) = Ok tt.
Proof. induction n as [|n IH]; [reflexivity | exact IH]. Qed.

Lemma Encoder_init_value (env : init_env) (layers heads hidden : Z)
    (flash : bool) (f : tensor3 -> tensor3) :
  Encoder_init env layers heads hidden flash = Ok f -> f = draw_encoder env.
Proof.
  unfold Encoder_init. destruct (Encoder_init_loop _ _); cbn [bind]; congruence.
Qed.

(** The head stack that [__init__] leaves sends every row to zeros. *)
Lemma heads_after_init (env : init_env) (hidden classes : Z)
    (rs : option Z) (hd : list (string * layer)) (x : vector) :
  match get_layer "pre_logits"
          match rs with
          | None => [("head", Linear_init env "head" hidden classes)]
          | Some r =>
              [("pre_logits", Linear_init env "pre_logits" hidden r);
               ("act", Tanh);
               ("head", Linear_init env "head" r classes)]
          end
  with
  | Some (Linear weight bias as l) =>
      l' <- jax_lecun_normal env "pre_logits" l hidden ;;
      Ok (update_layer "pre_logits" (fun _ => l')
            match rs with
            | None => [("head", Linear_init env "head" hidden classes)]
            | Some r =>
                [("pre_logits", Linear_init env "pre_logits" hidden r);
                 ("act", Tanh);
                 ("head", Linear_init env "head" r classes)]
            end)
  | _ =>
      Ok match rs with
         | None => [("head", Linear_init env "head" hidden classes)]
         | Some r =>
             [("pre_logits", Linear_init env "pre_logits" hidden r);
              ("act", Tanh);
              ("head", Linear_init env "head" r classes)]
         end
  end = Ok hd ->
  sequential
    (update_layer "head" (fun l => init_zeros_bias (init_zeros_weight l)) hd) x
  = zeros (Z.to_nat classes).
Proof.
  destruct rs as [r|]; cbn [get_layer String.eqb Ascii.eqb Bool.eqb].
  - unfold Linear_init at 1. unfold jax_lecun_normal.
    destruct (math_sqrt_ratio 1 hidden); cbn [bind]; [|discriminate].
    intros E. injection E as <-.
    cbn [update_layer String.eqb Ascii.eqb Bool.eqb sequential fold_left snd].
    apply zeroed_fresh_head.
  - intros E. injection E as <-.
    cbn [update_layer String.eqb Ascii.eqb Bool.eqb sequential fold_left snd].
    apply zeroed_fresh_head.
Qed.

(** Every model that [__init__] returns: its attributes. *)
Lemma init_inv (env : init_env) (a : ctor_args) (m : SimpleVisionTransformer.t) :
  SimpleVisionTransformer.init env a = Ok m ->
  arg_patch_size a <> 0
  /\ arg_image_size a mod arg_patch_size a = 0
  /\ exists (rg : option matrix) (cv : Conv2d) (pe : option matrix) (sl : Z)
            (hd : list (string * layer)),
      m = SimpleVisionTransformer.mk
            (arg_image_size a) (arg_patch_size a) (arg_hidden_dim a)
            (arg_mlp_dim a) (arg_attention_dropout a) (arg_dropout a)
            (arg_num_classes a) (arg_representation_size a) (arg_pool_type a)
            (SimpleVisionTransformer.effective_register
               (arg_register a) (arg_pool_type a))
            rg cv pe (draw_encoder env) sl hd
      /\ (0 < SimpleVisionTransformer.effective_register
                (arg_register a) (arg_pool_type a) ->
          exists r : matrix,
            rg = Some r
            /\ length r = Z.to_nat (SimpleVisionTransformer.effective_register
                                      (arg_register a) (arg_pool_type a)))
      /\ (forall x : vector, sequential hd x = zeros (Z.to_nat (arg_num_classes a))).
Proof.
  unfold SimpleVisionTransformer.init. intros H.
  unfold py_mod at 1 in H.
  destruct (arg_patch_size a =? 0) eqn:Ep; [discriminate|].
  cbn [bind] in H.
  destruct (arg_image_size a mod arg_patch_size a =? 0) eqn:Em;
    cbn [torch_assert bind] in H; [|discriminate].
  split; [lia|]. split; [lia|].
  set (register := SimpleVisionTransformer.effective_register
                     (arg_register a) (arg_pool_type a)) in *.
  match type of H with bind ?r _ = _ => destruct r as [rg|] eqn:Er end;
    cbn [bind] in H; [|discriminate].
  unfold py_floordiv at 1 in H. rewrite Ep in H. cbn [bind] in H.
  match type of H with bind ?r _ = _ => destruct r as [pe|] eqn:Epe end;
    cbn [bind] in H; [|discriminate].
  match type of H with bind ?r _ = _ => destruct r as [enc|] eqn:Eenc end;
    cbn [bind] in H; [|discriminate].
  apply Encoder_init_value in Eenc. subst enc.
  unfold py_floordiv at 1 in H. cbn [Z.eqb bind] in H.
  match type of H with bind ?r _ = _ => destruct r as [[]|] eqn:Efan end;
    cbn [bind] in H; [|discriminate].
  match type of H with bind ?r _ = _ => destruct r as [hd|] eqn:Ehd end;
    cbn [bind] in H; [|discriminate].
  injection H as <-.
  eexists _, _, _, _, _. split; [reflexivity|]. split.
  - intros Hpos.
    destruct (register =? 1) eqn:E1.
    + injection Er as <-. eexists. split; [reflexivity|].
      unfold zeros2. rewrite repeat_length. lia.
    + destruct (1 <? register) eqn:E2; [|lia].
      unfold SimpleVisionTransformer._learned_embeddings in Er.
      destruct (math_sqrt_ratio 1 (arg_hidden_dim a)); cbn [bind] in Er;
        [|discriminate].
      injection Er as <-. eexists. split; [reflexivity|].
      apply length_tabulate.
  - intros x. apply (heads_after_init env _ _ _ _ x Ehd).
Qed.

Lemma Encoder_init_returns (env : init_env) (a : ctor_args) :
  in_domain env a ->
  Encoder_init env (arg_num_layers a) (arg_num_heads a) (arg_hidden_dim a)
    (arg_use_flash a) = Ok (draw_encoder env).
Proof.
  intros (Hp & Hi & Hh & Hn & Hf & _). unfold Encoder_init.
  assert (B : EncoderBlock_init env (arg_num_heads a) (arg_hidden_dim a)
                (arg_use_flash a) = Ok tt).
  { unfold EncoderBlock_init, py_floordiv, Attend_init.
    destruct (arg_num_heads a =? 0) eqn:E; [lia|]. cbn [bind].
    rewrite Hf. cbn [negb torch_assert bind].
    apply math_sqrt_ratio_pos; lia. }
  now rewrite B, Encoder_init_loop_ok.
Qed.

(** The outcome of [__init__] on arguments in the domain: the first check,
    then the check inside [posemb_sincos_2d], else a model. *)
Lemma init_outcome (env : init_env) (a : ctor_args) :
  in_domain env a ->
  (arg_image_size a mod arg_patch_size a <> 0 ->
   SimpleVisionTransformer.init env a
   = Raise (AssertionError "Input shape indivisible by patch size!"))
  /\ (arg_image_size a mod arg_patch_size a = 0 ->
      arg_posemb a = "sincos2d" -> arg_hidden_dim a mod 4 <> 0 ->
      SimpleVisionTransformer.init env a
      = Raise (AssertionError
                 "feature dimension must be multiple of 4 for sincos emb"))
  /\ (arg_image_size a mod arg_patch_size a = 0 ->
      (arg_posemb a = "sincos2d" -> arg_hidden_dim a mod 4 = 0) ->
      exists m : SimpleVisionTransformer.t,
        SimpleVisionTransformer.init env a = Ok m).
Proof.
  intros D. pose proof D as (Hp & Hi & Hh & Hn & Hf & _).
  unfold SimpleVisionTransformer.init.
  assert (Ep : (arg_patch_size a =? 0) = false) by lia.
  assert (Hmod : py_mod (arg_image_size a) (arg_patch_size a)
                 = Ok (arg_image_size a mod arg_patch_size a))
    by (unfold py_mod; now rewrite Ep).
  assert (Hdiv : py_floordiv (arg_image_size a) (arg_patch_size a)
                 = Ok (arg_image_size a / arg_patch_size a))
    by (unfold py_floordiv; now rewrite Ep).
  rewrite !Hmod, !Hdiv. cbn [bind]. split.
  { intros Hm. destruct (arg_image_size a mod arg_patch_size a =? 0) eqn:Em;
      [lia | reflexivity]. }
  assert (Hreg : exists rg,
    (if SimpleVisionTransformer.effective_register (arg_register a)
          (arg_pool_type a) =? 1
     then Ok (Some (zeros2 1 (Z.to_nat (arg_hidden_dim a))))
     else if 1 <? SimpleVisionTransformer.effective_register (arg_register a)
                    (arg_pool_type a)
     then e <- SimpleVisionTransformer._learned_embeddings env "reg"
                 (arg_hidden_dim a)
                 (SimpleVisionTransformer.effective_register (arg_register a)
                    (arg_pool_type a)) ;; Ok (Some e)
     else Ok None) = Ok rg).
  { unfold SimpleVisionTransformer._learned_embeddings.
    rewrite math_sqrt_ratio_pos by lia. cbn [bind].
    destruct (_ =? 1); [eauto|]. destruct (1 <? _); eauto. }
  destruct Hreg as [rg Hreg].
  assert (Hq : 0 <= arg_image_size a / arg_patch_size a)
    by (apply Z.div_pos; lia).
  split.
  - intros Hm Hs Hd. rewrite Hm. cbn [Z.eqb torch_assert bind].
    rewrite Hreg. cbn [bind].
    rewrite Hs. cbn [String.eqb Ascii.eqb Bool.eqb].
    now rewrite (posemb_sincos_2d_indivisible _ _ _ _ Hq Hq Hd).
  - intros Hm Hs. rewrite Hm. cbn [Z.eqb torch_assert bind].
    rewrite Hreg. cbn [bind].
    assert (Hpos : exists pe,
      (if String.eqb (arg_posemb a) "sincos2d"
       then pe <- posemb_sincos_2d (arg_image_size a / arg_patch_size a)
                    (arg_image_size a / arg_patch_size a)
                    (arg_hidden_dim a) 10000 ;; Ok (Some pe)
       else if String.eqb (arg_posemb a) "learn"
       then e <- SimpleVisionTransformer._learned_embeddings env
                   "pos_embedding" (arg_hidden_dim a)
                   (arg_image_size a / arg_patch_size a
                    * (arg_image_size a / arg_patch_size a)) ;; Ok (Some e)
       else Ok None) = Ok pe).
    { destruct (String.eqb (arg_posemb a) "sincos2d") eqn:E1.
      - apply String.eqb_eq in E1.
        destruct (posemb_sincos_2d_returns _ _ (arg_hidden_dim a) 10000 Hq Hq)
          as [pe Hpe]; [lia | auto |].
        rewrite Hpe. cbn [bind]. eauto.
      - unfold SimpleVisionTransformer._learned_embeddings.
        rewrite math_sqrt_ratio_pos by lia. cbn [bind].
        destruct (String.eqb (arg_posemb a) "learn"); eauto. }
    destruct Hpos as [pe Hpos]. rewrite Hpos. cbn [bind].
    rewrite (Encoder_init_returns env a D). cbn [bind].
    unfold py_floordiv. cbn [Z.eqb bind]. rewrite Z.div_1_r.
    rewrite math_sqrt_ratio_pos by nia. cbn [bind].
    destruct (arg_representation_size a) as [rs|];
      cbn [get_layer String.eqb Ascii.eqb Bool.eqb].
    + unfold Linear_init at 1. unfold jax_lecun_normal.
      rewrite math_sqrt_ratio_pos by lia. cbn [bind]. eauto.
    + cbn [bind]. eauto.
Qed.

(** A model returned by [__init__] for arguments in the domain, a positive
    image size, a non-negative register count and an encoder that keeps the
    tokens is well formed. *)
Lemma init_well_formed (env : init_env) (a : ctor_args)
    (m : SimpleVisionTransformer.t) :
  SimpleVisionTransformer.init env a = Ok m ->
  in_domain env a -> 0 < arg_image_size a ->
  0 <= arg_register a -> keeps_tokens (draw_encoder env) ->
  well_formed m.
Proof.
  intros H (Hps & _) Him Hr Hk.
  destruct (init_inv env a m H) as (Hp & Hmod & rg & cv & pe & sl & hd & -> & Hreg & _).
  unfold well_formed. cbn. repeat split; auto.
  - apply Z.mod_divide in Hmod; [|lia]. apply Z.divide_pos_le in Hmod; lia.
  - intros Hne.
    assert (Hpos : 0 < SimpleVisionTransformer.effective_register
                         (arg_register a) (arg_pool_type a)).
    { unfold SimpleVisionTransformer.effective_register in *.
      destruct (String.eqb (arg_pool_type a) "tok"); lia. }
    destruct (Hreg Hpos) as (r & -> & Hlen). exists r. split; [reflexivity|].
    intros ->. cbn in Hlen. lia.
  - intros ->. unfold SimpleVisionTransformer.effective_register. cbn. lia.
Qed.

(** ** The forward pass *)

Lemma map_result_first_token (l : tensor3) :
  Forall (fun tokens : list (list R) => tokens <> []) l ->
  exists v : matrix, map_result first_token l = Ok v /\ length v = length l.
Proof.
  induction 1 as [|tokens l Hne _ (v & Hv & Hl)]; [now exists []|].
  destruct tokens as [|tok tokens]; [congruence|].
  cbn. rewrite Hv. cbn. exists (tok :: v). split; [reflexivity|]. cbn. lia.
Qed.

Lemma map_result_first_token_raises (l : tensor3) (e : exn) :
  map_result first_token l = Raise e -> forall msg, e <> AssertionError msg.
Proof.
  induction l as [|tokens l IH]; cbn; [discriminate|].
  destruct tokens as [|tok tokens]; cbn.
  - intros E. injection E as <-. discriminate.
  - destruct (map_result first_token l); cbn; [discriminate|].
    intros E. injection E as <-. now apply IH.
Qed.

Lemma Forall2_length_nonempty {A : Type} (outs inps : list (list A)) :
  Forall2 (fun o i : list A => length o = length i) outs inps ->
  Forall (fun i : list A => i <> []) inps ->
  Forall (fun o : list A => o <> []) outs.
Proof.
  induction 1 as [|o i outs inps Hl _ IH]; intros Hin; constructor.
  - inversion Hin as [|? ? Hi _]; subst.
    destruct o; [|discriminate]. destruct i; [congruence | discriminate].
  - apply IH. now inversion Hin.
Qed.

Lemma keeps_tokens_nonempty (f : tensor3 -> tensor3) (r : matrix)
    (x : tensor3) :
  keeps_tokens f -> r <> [] ->
  Forall (fun tokens : list (list R) => tokens <> [])
    (f (map (fun tokens => (r ++ tokens)%list) x)).
Proof.
  intros Hk Hne.
  apply (Forall2_length_nonempty _ _ (Hk _)).
  apply List.Forall_forall. intros tk Htk.
  apply in_map_iff in Htk as (tk' & <- & _).
  destruct r; [congruence | discriminate].
Qed.

(** The checks of [_process_input], in order. *)
Lemma process_input_outcome (m : SimpleVisionTransformer.t) (x : images)
    (n c h w : Z) :
  shape x = (n, c, h, w) ->
  (h <> SimpleVisionTransformer.image_size m ->
   exists msg, SimpleVisionTransformer._process_input m x
               = Raise (AssertionError msg))
  /\ (h = SimpleVisionTransformer.image_size m ->
      w <> SimpleVisionTransformer.image_size m ->
      exists msg, SimpleVisionTransformer._process_input m x
                  = Raise (AssertionError msg))
  /\ (h = SimpleVisionTransformer.image_size m ->
      w = SimpleVisionTransformer.image_size m ->
      (SimpleVisionTransformer.patch_size m = 0 /\
       SimpleVisionTransformer._process_input m x = Raise ZeroDivisionError)
      \/ (SimpleVisionTransformer.patch_size m <> 0 /\
          exists tokens : tensor3,
            SimpleVisionTransformer._process_input m x = Ok tokens
            /\ length tokens = Z.to_nat n)).
Proof.
  intros Hs. unfold SimpleVisionTransformer._process_input. rewrite Hs.
  split; [|split].
  - intros Hh. destruct (h =? _) eqn:E; [lia|]. cbn. eauto.
  - intros Hh Hw. destruct (h =? _) eqn:E; [|lia].
    destruct (w =? _) eqn:E'; [lia|]. cbn. eauto.
  - intros Hh Hw. destruct (h =? _) eqn:E; [|lia].
    destruct (w =? _) eqn:E'; [|lia]. cbn [torch_assert bind].
    unfold py_floordiv.
    destruct (SimpleVisionTransformer.patch_size m =? 0) eqn:Ep; cbn [bind].
    + left. split; [lia | reflexivity].
    + right. split; [lia|]. eexists. split; [reflexivity|].
      apply length_tabulate.
Qed.

(** With both targets [forward] adds the loss to what it returns without
    them; with a target missing it returns the same as without any. *)
Lemma forward_targets (F : functional) (m : SimpleVisionTransformer.t)
    (x : images) (lam : R) (logits : matrix) :
  SimpleVisionTransformer.forward F m x lam None None = Ok (Logits logits) ->
  forall t1 t2 : option (list Z),
    SimpleVisionTransformer.forward F m x lam t1 t2
    = match t1, t2 with
      | Some a, Some b =>
          loss <- SimpleVisionTransformer._loss_fn F logits lam a b ;;
          Ok (LogitsLoss logits loss)
      | _, _ => Ok (Logits logits)
      end.
Proof.
  unfold SimpleVisionTransformer.forward. intros H t1 t2.
  destruct (SimpleVisionTransformer._process_input m x) as [tk|];
    cbn [bind] in *; [|discriminate].
  match type of H with bind ?r _ = _ => destruct r as [x1|] end;
    cbn [bind] in *; [|discriminate].
  match type of H with bind ?r _ = _ => destruct r as [x2|] end;
    cbn [bind] in *; [|discriminate].
  injection H as <-. destruct t1, t2; reflexivity.
Qed.

(** On a well-formed model and a batch of the configured height and width
    [forward] returns logits, one row per image, each row the head stack
    applied to some feature vector. *)
Lemma forward_returns (F : functional) (m : SimpleVisionTransformer.t)
    (x : images) (lam : R) (n c : Z) :
  well_formed m ->
  shape x = (n, c, SimpleVisionTransformer.image_size m,
             SimpleVisionTransformer.image_size m) ->
  exists features : matrix,
    length features = Z.to_nat n
    /\ SimpleVisionTransformer.forward F m x lam None None
       = Ok (Logits (map (sequential (SimpleVisionTransformer.heads m)) features)).
Proof.
  intros (Hp & Hreg & Htok & Hkeep) Hs.
  destruct (process_input_outcome m x n c _ _ Hs) as (_ & _ & H3).
  destruct (H3 eq_refl eq_refl) as [[H0 _]|(_ & tokens & Htk & Hlen)]; [lia|].
  unfold SimpleVisionTransformer.forward. rewrite Htk. cbn [bind].
  set (x1 := match SimpleVisionTransformer.pos_embedding m with
             | Some pe => map (fun tk => zip_with (zip_with Rplus) tk pe) tokens
             | None => tokens
             end).
  assert (L1 : length x1 = Z.to_nat n).
  { unfold x1. destruct (SimpleVisionTransformer.pos_embedding m);
      [rewrite length_map|]; exact Hlen. }
  destruct (SimpleVisionTransformer.register m =? 0) eqn:Er.
  - cbn [bind].
    assert (Hnt : (SimpleVisionTransformer.pool_type m =? "tok")%string = false).
    { destruct (String.eqb_spec (SimpleVisionTransformer.pool_type m) "tok") as [E|E];
        [|reflexivity]. apply Htok in E. lia. }
    rewrite Hnt. cbn [bind]. eexists. split; [|reflexivity].
    rewrite length_map. specialize (Hkeep x1). apply Forall2_length in Hkeep.
    lia.
  - destruct Hreg as (r & Hr & Hne); [lia|]. rewrite Hr. cbn [bind].
    set (x2 := map (fun tk => (r ++ tk)%list) x1).
    pose proof (Hkeep x2) as Hk.
    assert (L2 : length (SimpleVisionTransformer.encoder m x2) = Z.to_nat n).
    { pose proof (Forall2_length _ _ _ Hk) as Hl. unfold x2 in Hl at 2.
      rewrite length_map in Hl. lia. }
    destruct (SimpleVisionTransformer.pool_type m =? "tok")%string.
    + pose proof (keeps_tokens_nonempty _ r x1 Hkeep Hne) as Hall.
      fold x2 in Hall.
      destruct (map_result_first_token _ Hall) as (v & Hv & Lv).
      rewrite Hv. cbn [bind]. exists v. split; [lia | reflexivity].
    + cbn [bind]. eexists. split; [|reflexivity]. now rewrite length_map.
Qed.

Lemma keeps_tokens_id : keeps_tokens (fun x : tensor3 => x).
Proof.
  intros x. induction x as [|tokens x IH]; constructor; auto.
Qed.

Lemma example_args_in_domain : in_domain example_env example_args.
Proof. unfold in_domain. cbn. repeat split; try lia; try lra; discriminate. Qed.

Lemma tiny_model_well_formed : well_formed tiny_model.
Proof.
  unfold well_formed, tiny_model. cbn. repeat split.
  - discriminate.
  - intros H. now contradiction H.
  - discriminate.
  - apply keeps_tokens_id.
Qed.


(** With the configured height and width no assertion fails in [forward]. *)
Lemma forward_no_assertion (F : functional) (m : SimpleVisionTransformer.t)
    (x : images) (lam : R) (t1 t2 : option (list Z)) (n c : Z) :
  shape x = (n, c, SimpleVisionTransformer.image_size m,
             SimpleVisionTransformer.image_size m) ->
  forall msg : string,
    SimpleVisionTransformer.forward F m x lam t1 t2 <> Raise (AssertionError msg).
Proof.
  intros Hs msg.
  destruct (process_input_outcome m x n c _ _ Hs) as (_ & _ & H3).
  unfold SimpleVisionTransformer.forward.
  destruct (H3 eq_refl eq_refl) as [[_ ->]|(_ & tokens & -> & _)];
    cbn [bind]; [discriminate|].
  destruct (SimpleVisionTransformer.register m =? 0).
  2: destruct (SimpleVisionTransformer.reg m); [|cbn [bind]; discriminate].
  all: cbn [bind].
  all: destruct (SimpleVisionTransformer.pool_type m =? "tok")%string.
  all: try match goal with
       | |- context [map_result first_token ?l] =>
           let E := fresh "E" in
           destruct (map_result first_token l) as [v|e] eqn:E;
             [|cbn [bind]; intros H; injection H as ->;
               exact (map_result_first_token_raises _ _ E msg eq_refl)]
       end.
  all: cbn [bind].
  all: destruct t1 as [a|], t2 as [b|]; try discriminate.
  all: unfold SimpleVisionTransformer._loss_fn.
  all: destruct (nll_loss F _ a); [|cbn [bind]; discriminate].
  all: destruct (nll_loss F _ b); cbn [bind]; discriminate.
Qed.

(** ** The claims about the model *)

(** C4. A model constructed with [pool_type = "tok"] and explicit register
    count [r] has register count [r + 1]; one constructed with
    [pool_type = "gap"] has exactly [r]; with [r = 0] and ["tok"] the count
    is 1; and a positive count is the number of register tokens that the
    model holds.  Such models exist: construction returns on every argument
    list in the domain that passes the two size checks. *)
Theorem register_count :
  (forall (env : init_env) (a : ctor_args) (m : SimpleVisionTransformer.t),
      SimpleVisionTransformer.init env a = Ok m ->
      (arg_pool_type a = "tok" ->
       SimpleVisionTransformer.register m = arg_register a + 1)
      /\ (arg_pool_type a = "gap" ->
          SimpleVisionTransformer.register m = arg_register a)
      /\ (arg_pool_type a = "tok" -> arg_register a = 0 ->
          SimpleVisionTransformer.register m = 1)
      /\ (0 < SimpleVisionTransformer.register m ->
          exists r : matrix,
            SimpleVisionTransformer.reg m = Some r
            /\ length r = Z.to_nat (SimpleVisionTransformer.register m)))
  /\ (forall (env : init_env) (a : ctor_args),
        in_domain env a ->
        arg_image_size a mod arg_patch_size a = 0 ->
        (arg_posemb a = "sincos2d" -> arg_hidden_dim a mod 4 = 0) ->
        exists m : SimpleVisionTransformer.t,
          SimpleVisionTransformer.init env a = Ok m).
Proof.
  split.
  - intros env a m H.
    destruct (init_inv env a m H) as (_ & _ & rg & cv & pe & sl & hd & -> & Hreg & _).
    cbn [SimpleVisionTransformer.register SimpleVisionTransformer.reg].
    split; [|split; [|split]]; [| | |exact Hreg];
      unfold SimpleVisionTransformer.effective_register;
      intros E; rewrite E; cbn; intros; lia.
  - intros env a D Hm Hs. now apply (init_outcome env a D).
Qed.

Lemma register_count_witness :
  exists m : SimpleVisionTransformer.t,
    SimpleVisionTransformer.init example_env example_args = Ok m
    /\ SimpleVisionTransformer.register m = 1.
Proof.
  destruct (proj2 register_count example_env example_args
              example_args_in_domain eq_refl (fun _ => eq_refl)) as [m Hm].
  exists m. split; [exact Hm|].
  apply (proj1 register_count example_env example_args m Hm); reflexivity.
Defined.

(** C9, as stated, fails.  With the image size 224 an exact multiple of the
    patch size 16, construction with the sine/cosine embedding and an
    embedding dimension of 6 fails on the assertion inside
    [posemb_sincos_2d]. *)
Lemma init_asserts_embedding_dimension :
  arg_image_size example_args_dim_6 mod arg_patch_size example_args_dim_6 = 0
  /\ SimpleVisionTransformer.init example_env example_args_dim_6
     = Raise (AssertionError
                "feature dimension must be multiple of 4 for sincos emb").
Proof.
  split; [reflexivity|].
  apply (init_outcome example_env example_args_dim_6).
  - unfold in_domain. cbn. repeat split; try lia; try lra; discriminate.
  - reflexivity.
  - reflexivity.
  - vm_compute. discriminate.
Qed.

(** C9, as the code has it.  For construction arguments in the domain,
    [__init__] fails with an assertion error exactly when the image size is
    not a multiple of the patch size, or the positional embedding is
    ["sincos2d"] and 4 does not divide the embedding dimension, and returns a
    model otherwise; [forward] fails with an assertion error exactly when the
    height or the width of the batch differs from the configured image
    size. *)
Theorem assertion_failures :
  (forall (env : init_env) (a : ctor_args),
      in_domain env a ->
      ((exists msg, SimpleVisionTransformer.init env a = Raise (AssertionError msg))
       <-> (arg_image_size a mod arg_patch_size a <> 0
            \/ (arg_posemb a = "sincos2d" /\ arg_hidden_dim a mod 4 <> 0)))
      /\ ((exists m, SimpleVisionTransformer.init env a = Ok m)
          <-> (arg_image_size a mod arg_patch_size a = 0
               /\ (arg_posemb a = "sincos2d" -> arg_hidden_dim a mod 4 = 0))))
  /\ (forall (F : functional) (m : SimpleVisionTransformer.t) (x : images)
             (lam : R) (t1 t2 : option (list Z)) (n c h w : Z),
        shape x = (n, c, h, w) ->
        ((exists msg, SimpleVisionTransformer.forward F m x lam t1 t2
                      = Raise (AssertionError msg))
         <-> (h <> SimpleVisionTransformer.image_size m
              \/ w <> SimpleVisionTransformer.image_size m))).
Proof.
  split.
  - intros env a D. destruct (init_outcome env a D) as (O1 & O2 & O3).
    destruct (Z.eq_dec (arg_image_size a mod arg_patch_size a) 0) as [Em|Em].
    + destruct (string_dec (arg_posemb a) "sincos2d") as [Es|Es].
      * destruct (Z.eq_dec (arg_hidden_dim a mod 4) 0) as [Ed|Ed].
        -- destruct (O3 Em (fun _ => Ed)) as [m Hm]. split; split.
           ++ intros [msg H]. congruence.
           ++ intros [H|[_ H]]; contradiction.
           ++ intros _. split; auto.
           ++ intros _. eauto.
        -- specialize (O2 Em Es Ed). split; split.
           ++ intros _. right. auto.
           ++ intros _. eauto.
           ++ intros [m H]. congruence.
           ++ intros [_ H]. specialize (H Es). contradiction.
      * destruct (O3 Em (fun E => False_ind _ (Es E))) as [m Hm]. split; split.
        -- intros [msg H]. congruence.
        -- intros [H|[H _]]; contradiction.
        -- intros _. split; [auto | intros E; contradiction].
        -- intros _. eauto.
    + specialize (O1 Em). split; split.
      * intros _. left. auto.
      * intros _. eauto.
      * intros [m H]. congruence.
      * intros [H _]. contradiction.
  - intros F m x lam t1 t2 n c h w Hs. split.
    + intros [msg H].
      destruct (Z.eq_dec h (SimpleVisionTransformer.image_size m)) as [Eh|Eh];
        [|now left].
      destruct (Z.eq_dec w (SimpleVisionTransformer.image_size m)) as [Ew|Ew];
        [|now right].
      subst h w. exfalso.
      exact (forward_no_assertion F m x lam t1 t2 n c Hs msg H).
    + intros Hne.
      destruct (process_input_outcome m x n c h w Hs) as (P1 & P2 & _).
      unfold SimpleVisionTransformer.forward.
      destruct (Z.eq_dec h (SimpleVisionTransformer.image_size m)) as [Eh|Eh].
      * destruct Hne as [Hne|Hne]; [contradiction|].
        destruct (P2 Eh Hne) as [msg ->]. cbn [bind]. eauto.
      * destruct (P1 Eh) as [msg ->]. cbn [bind]. eauto.
Qed.

Lemma assertion_failures_witness :
  ((exists msg, SimpleVisionTransformer.init example_env example_args
                = Raise (AssertionError msg))
   <-> (arg_image_size example_args mod arg_patch_size example_args <> 0
        \/ (arg_posemb example_args = "sincos2d"
            /\ arg_hidden_dim example_args mod 4 <> 0)))
  /\ ((exists msg, SimpleVisionTransformer.forward real_functional tiny_model
                     example_batch 1 None None = Raise (AssertionError msg))
      <-> (224 <> SimpleVisionTransformer.image_size tiny_model
           \/ 224 <> SimpleVisionTransformer.image_size tiny_model)).
Proof.
  split.
  - apply (proj1 assertion_failures example_env example_args
             example_args_in_domain).
  - apply (proj2 assertion_failures real_functional tiny_model example_batch
             1%R None None 2 3 224 224 eq_refl).
Defined.



(** C1. For every well-formed model, every input batch of correct shape
    [(n, 3, image_size, image_size)] and every scalar [lam]:
    with both targets [forward] returns the pair of the logits and
    [lam * NLL(log_softmax(logits), target1)
     + (1 - lam) * NLL(log_softmax(logits), target2)];
    with [lam = 1] and both targets equal to [t] the loss is the ordinary
    cross-entropy against [t]; with a target absent it returns the logits
    alone. *)
Theorem forward_two_target_loss :
  forall (F : functional) (m : SimpleVisionTransformer.t) (x : images)
         (lam : R) (n : Z),
    well_formed m ->
    shape x = (n, 3, SimpleVisionTransformer.image_size m,
               SimpleVisionTransformer.image_size m) ->
    exists logits : matrix,
      length logits = Z.to_nat n
      /\ (forall lam' : R,
             SimpleVisionTransformer.forward F m x lam' None None
             = Ok (Logits logits))
      /\ (forall t : list Z,
             SimpleVisionTransformer.forward F m x lam (Some t) None
             = Ok (Logits logits)
             /\ SimpleVisionTransformer.forward F m x lam None (Some t)
                = Ok (Logits logits))
      /\ (forall (t1 t2 : list Z) (l1 l2 : R),
             nll_loss F (log_softmax F logits) t1 = Some l1 ->
             nll_loss F (log_softmax F logits) t2 = Some l2 ->
             SimpleVisionTransformer.forward F m x lam (Some t1) (Some t2)
             = Ok (LogitsLoss logits (lam * l1 + (1 - lam) * l2)%R))
      /\ (forall (t : list Z) (l : R),
             cross_entropy F logits t = Some l ->
             SimpleVisionTransformer.forward F m x 1 (Some t) (Some t)
             = Ok (LogitsLoss logits l)).
Proof.
  intros F m x lam n Hwf Hs.
  destruct (forward_returns F m x lam n 3 Hwf Hs) as (feat & Hlen & Hf).
  set (logits := map (sequential (SimpleVisionTransformer.heads m)) feat) in *.
  assert (Hany : forall lam' : R,
             SimpleVisionTransformer.forward F m x lam' None None
             = Ok (Logits logits)) by (intros lam'; exact Hf).
  exists logits. split; [unfold logits; now rewrite length_map|].
  split; [exact Hany|]. split; [|split].
  - intros t. now rewrite !(forward_targets F m x lam logits Hf).
  - intros t1 t2 l1 l2 H1 H2.
    rewrite (forward_targets F m x lam logits Hf).
    unfold SimpleVisionTransformer._loss_fn. now rewrite H1, H2.
  - intros t l Hce. unfold cross_entropy in Hce.
    rewrite (forward_targets F m x 1 logits (Hany 1%R)).
    unfold SimpleVisionTransformer._loss_fn. rewrite Hce. cbn [bind].
    do 2 f_equal. lra.
Qed.

Example tiny_forward_logits (lam : R) :
  SimpleVisionTransformer.forward real_functional tiny_model tiny_batch lam
    None None = Ok (Logits [[3; 6]%R]).
Proof.
  cbv -[Rplus Rmult Rdiv Rinv Rminus Ropp IZR INR].
  change (INR 4) with (1 + 1 + 1 + 1)%R.
  repeat f_equal; lra.
Qed.

Example tiny_forward_pair :
  exists l0 l1 : R,
    nll_loss real_functional (log_softmax real_functional [[3; 6]%R]) [0] = Some l0
    /\ nll_loss real_functional (log_softmax real_functional [[3; 6]%R]) [1] = Some l1
    /\ SimpleVisionTransformer.forward real_functional tiny_model tiny_batch
         (1 / 4) (Some [0]) (Some [1])
       = Ok (LogitsLoss [[3; 6]%R] (1 / 4 * l0 + (1 - 1 / 4) * l1)%R).
Proof.
  eexists _, _. split; [reflexivity|]. split; [reflexivity|].
  rewrite (forward_targets real_functional tiny_model tiny_batch (1 / 4)%R
             _ (tiny_forward_logits _)).
  reflexivity.
Qed.

Lemma forward_two_target_loss_witness :
  exists l0 l1 : R,
    SimpleVisionTransformer.forward real_functional tiny_model tiny_batch
      (1 / 4) None None = Ok (Logits [[3; 6]%R])
    /\ SimpleVisionTransformer.forward real_functional tiny_model tiny_batch
         (1 / 4) (Some [0]) None = Ok (Logits [[3; 6]%R])
    /\ SimpleVisionTransformer.forward real_functional tiny_model tiny_batch
         (1 / 4) (Some [0]) (Some [1])
       = Ok (LogitsLoss [[3; 6]%R] (1 / 4 * l0 + (1 - 1 / 4) * l1)%R)
    /\ SimpleVisionTransformer.forward real_functional tiny_model tiny_batch
         1 (Some [1]) (Some [1]) = Ok (LogitsLoss [[3; 6]%R] l1).
Proof.
  destruct (forward_two_target_loss real_functional tiny_model tiny_batch
              (1 / 4)%R 1 tiny_model_well_formed eq_refl)
    as (logits & Hlen & Hany & Hnone & Hpair & Hce).
  pose proof (Hany 1%R) as H1. rewrite tiny_forward_logits in H1.
  injection H1 as <-.
  eexists _, _. split; [apply Hany|]. split; [apply Hnone|].
  split; [apply Hpair; reflexivity | apply Hce; reflexivity].
Defined.

(** ** The driver: the estimate of the remaining time *)

Lemma format_int_02d (z : Z) : format_int z "02d" = Ok (zfill 2 z).
Proof.
  unfold format_int, zfill.
  change (span_digits "2d") with ("2", "d"). cbv iota beta.
  cbn [String.eqb Ascii.eqb Bool.eqb orb].
  change (width_of "2") with 2.
  replace (Z.to_nat (2 - Z.of_nat (String.length (str_int z))))
    with (2 - String.length (str_int z))%nat by lia.
  reflexivity.
Qed.

Lemma py_int_nonneg (q : Q) : (0 <= q)%Q -> py_int q = Qfloor q.
Proof.
  destruct q as [a b]. unfold Qle, py_int, Qfloor. cbn.
  intros H. apply Z.quot_div_nonneg; lia.
Qed.

Lemma estimate_time_value (current_step total_steps : Z) (batch_time_avg : Q) :
  estimate_time_to_completion current_step total_steps batch_time_avg
  = let T := py_int (inject_Z (total_steps - current_step) * batch_time_avg) in
    Ok (zfill 2 (T / 3600) ++ "h:" ++ zfill 2 (T mod 3600 / 60) ++ "m:"
        ++ zfill 2 (T mod 3600 mod 60) ++ "s").
Proof.
  unfold estimate_time_to_completion, py_divmod.
  change (3600 =? 0) with false. change (60 =? 0) with false.
  cbn [bind]. now rewrite !format_int_02d.
Qed.

(** X1. [estimate_time_to_completion] always returns: it splits the
    whole seconds [T = int((total - current) * avg)] into hours, minutes and
    seconds with [3600 h + 60 m + s = T] and [0 <= m, s < 60], for a negative
    [T] too (the hours are then negative), and prints each of the three
    zero-padded to two characters. *)
Theorem estimate_time_to_completion_fields (current_step total_steps : Z)
    (batch_time_avg : Q) :
  let T := py_int (inject_Z (total_steps - current_step) * batch_time_avg) in
  let hours := T / 3600 in
  let minutes := T mod 3600 / 60 in
  let seconds := T mod 60 in
  estimate_time_to_completion current_step total_steps batch_time_avg
  = Ok (zfill 2 hours ++ "h:" ++ zfill 2 minutes ++ "m:"
        ++ zfill 2 seconds ++ "s")
  /\ 0 <= minutes < 60 /\ 0 <= seconds < 60
  /\ 3600 * hours + 60 * minutes + seconds = T.
Proof.
  intros T hours minutes seconds.
  rewrite estimate_time_value. fold T.
  assert (E : T mod 3600 mod 60 = T mod 60).
  { Z.div_mod_to_equations. lia. }
  cbv zeta. rewrite E. split; [reflexivity|].
  subst hours minutes seconds.
  pose proof (Z.div_mod T 3600 ltac:(lia)) as H1.
  pose proof (Z.mod_pos_bound T 3600 ltac:(lia)) as H2.
  pose proof (Z.div_mod (T mod 3600) 60 ltac:(lia)) as H3.
  pose proof (Z.mod_pos_bound (T mod 3600) 60 ltac:(lia)) as H4.
  rewrite E in H3, H4.
  assert (0 <= T mod 3600 / 60 < 60).
  { split; [apply Z.div_pos; lia | apply Z.div_lt_upper_bound; lia]. }
  lia.
Qed.

Lemma zfill_2_length (z : Z) :
  0 <= z < 100 -> String.length (zfill 2 z) = 2%nat.
Proof.
  intros H. rewrite <- (Z2Nat.id z) by lia.
  assert (Hn : (Z.to_nat z < 100)%nat) by lia.
  revert Hn. generalize (Z.to_nat z). intros n.
  do 100 (destruct n as [|n]; [intros _; vm_compute; reflexivity|]).
  lia.
Qed.

(** X2. As [train] calls it, with a step that has not passed the total
    and a non-negative average time per step, and with fewer than 100 hours
    left, the estimate is a text of exactly 11 characters
    ([HHh:MMm:SSs]); at the last step it is [00h:00m:00s]. *)
Theorem estimate_time_to_completion_width (current_step total_steps : Z)
    (batch_time_avg : Q) :
  current_step <= total_steps -> (0 <= batch_time_avg)%Q ->
  (inject_Z (total_steps - current_step) * batch_time_avg < 360000)%Q ->
  exists text : string,
    estimate_time_to_completion current_step total_steps batch_time_avg
    = Ok text
    /\ String.length text = 11%nat
    /\ (current_step = total_steps -> text = "00h:00m:00s").
Proof.
  intros Hle Havg Hlt. rewrite estimate_time_value.
  set (q := (inject_Z (total_steps - current_step) * batch_time_avg)%Q) in *.
  assert (Hq : (0 <= q)%Q).
  { unfold q. apply Qmult_le_0_compat; [|exact Havg].
    change 0%Q with (inject_Z 0). rewrite <- Zle_Qle. lia. }
  rewrite (py_int_nonneg q Hq). cbv zeta.
  set (T := Qfloor q).
  assert (HT : 0 <= T < 360000).
  { split.
    - change 0 with (Qfloor 0). now apply Qfloor_resp_le.
    - assert (inject_Z T < inject_Z 360000)%Q
        by (eapply Qle_lt_trans; [apply Qfloor_le | exact Hlt]).
      now rewrite <- Zlt_Qlt in H. }
  eexists. split; [reflexivity|]. split.
  - rewrite !string_length_app, !zfill_2_length; [reflexivity | | |].
    + pose proof (Z.mod_pos_bound (T mod 3600) 60 ltac:(lia)). lia.
    + pose proof (Z.mod_pos_bound T 3600 ltac:(lia)).
      split; [apply Z.div_pos; lia | apply Z.div_lt_upper_bound; lia].
    + split; [apply Z.div_pos; lia | apply Z.div_lt_upper_bound; lia].
  - intros ->. subst T q. rewrite Z.sub_diag.
    assert (E : Qfloor (inject_Z 0 * batch_time_avg) = 0).
    { rewrite (Qfloor_comp _ 0%Q); [reflexivity|]. ring. }
    rewrite E. reflexivity.
Qed.

Lemma estimate_time_to_completion_width_witness :
  exists text : string,
    estimate_time_to_completion 10 100 (1 # 2) = Ok text
    /\ String.length text = 11%nat
    /\ (10 = 100 -> text = "00h:00m:00s").
Proof.
  apply (estimate_time_to_completion_width 10 100 (1 # 2));
    [lia | discriminate | reflexivity].
Defined.

(** ** The driver: the primary process *)

(** X3. Under multiprocessing-distributed training with [ngpus_per_node]
    workers per node, the worker that [main_worker] starts for device [gpu]
    is primary exactly when [gpu] is 0, whatever the rank of its node;
    without that mode every process is primary, whatever its rank and the
    world size; and with that mode and no device per node the test divides
    by zero. *)
Theorem is_primary_per_node (a : dist_args) (gpu : Z) :
  (multiprocessing_distributed a = true -> 0 <= gpu < ngpus_per_node a ->
   is_primary (main_worker_rank a gpu) = Ok (gpu =? 0))
  /\ (multiprocessing_distributed a = false ->
      is_primary (main_worker_rank a gpu) = Ok true)
  /\ (multiprocessing_distributed a = true -> ngpus_per_node a = 0 ->
      is_primary (main_worker_rank a gpu) = Raise ZeroDivisionError).
Proof.
  unfold is_primary, main_worker_rank, distributed, py_mod.
  repeat split.
  - intros Hm Hg. rewrite Hm, orb_true_r. cbn.
    destruct (Z.eqb_spec (ngpus_per_node a) 0) as [E|E]; [lia|]. cbn.
    rewrite Z.add_comm, Z_mod_plus_full, Z.mod_small by lia. reflexivity.
  - intros Hm. rewrite Hm, andb_false_r. now rewrite Hm.
  - intros Hm Hn. rewrite Hm, orb_true_r. cbn. rewrite Hn. reflexivity.
Qed.

Lemma is_primary_per_node_witness :
  is_primary
    (main_worker_rank
       {| multiprocessing_distributed := true; world_size := 2;
          rank := 1; ngpus_per_node := 8 |} 3)
  = Ok (3 =? 0).
Proof.
  apply (proj1 (is_primary_per_node _ 3)); [reflexivity | cbn; lia].
Defined.
(** ** The driver: the two parameter groups *)

Lemma wd_groups_permutation (named : list (string * parameter)) :
  Permutation (wd_params named ++ non_wd_params named)%list
    (map snd (List.filter (fun np => requires_grad (snd np)) named)).
Proof.
  unfold wd_params, non_wd_params.
  induction named as [|[n p] l IH]; cbn [List.filter map fst snd app];
    [constructor|].
  destruct (weight_decay_param n p), (requires_grad p);
    cbn [negb andb map app snd]; try exact IH.
  - now constructor.
  - symmetry. apply Permutation_cons_app. now symmetry.
Qed.

(** X4. The two optimizer groups that [main_worker] builds split the
    trainable parameters: together they hold each parameter that requires a
    gradient exactly once; the decayed group only holds tensors of at least
    two dimensions, so no bias and no normalisation scale; and the learned
    position embedding and the register tokens, whose names do not end in
    [weight], are not decayed whatever their shape, while the patch
    convolution's four-dimensional [conv_proj.weight] is. *)
Theorem weight_decay_groups (named : list (string * parameter)) :
  Permutation (wd_params named ++ non_wd_params named)%list
    (map snd (List.filter (fun np => requires_grad (snd np)) named))
  /\ (forall p : parameter,
        In p (wd_params named) -> 2 <= ndim p /\ requires_grad p = true)
  /\ (forall p : parameter,
        weight_decay_param "pos_embedding" p = false
        /\ weight_decay_param "reg" p = false
        /\ weight_decay_param "conv_proj.weight" p = (2 <=? ndim p)).
Proof.
  split; [apply wd_groups_permutation|]. split.
  - intros p Hp. unfold wd_params in Hp.
    apply in_map_iff in Hp as ([n q] & <- & Hin).
    apply filter_In in Hin as [_ H]. cbn [fst snd] in *.
    unfold weight_decay_param in H.
    apply andb_true_iff in H as [H1 H2]. apply andb_true_iff in H1 as [H1 _].
    split; [lia | exact H2].
  - intros p. unfold weight_decay_param.
    change (endswith "pos_embedding" "weight") with false.
    change (endswith "reg" "weight") with false.
    change (endswith "conv_proj.weight" "weight") with true.
    now rewrite !andb_false_r, andb_true_r.
Qed.

(** ** The driver: sizes per process *)

(** X5. When [main_worker] divides the batch size and the loader
    workers among the [ngpus_per_node > 0] processes of a node, the batch
    size per process is the quotient rounded down and the number of workers
    per process is the quotient rounded up. *)
Theorem per_process_sizes (batch_size workers ngpus : Z) :
  0 < ngpus -> 0 <= batch_size -> 0 <= workers ->
  per_process_batch_size batch_size ngpus = Ok (batch_size / ngpus)
  /\ exists w : Z,
       per_process_workers workers ngpus = Ok w
       /\ ngpus * (w - 1) < workers <= ngpus * w.
Proof.
  intros Hg Hb Hw.
  assert (HQ : forall a : Z, 0 <= a ->
            (q <- truediv (inject_Z a) (inject_Z ngpus) ;; Ok (py_int q))
            = Ok (a / ngpus)).
  { intros a Ha. rewrite truediv_returns.
    - cbn [bind]. rewrite py_int_nonneg, <- Zdiv_Qdiv; [reflexivity|].
      apply Qle_shift_div_l.
      + change 0%Q with (inject_Z 0). rewrite <- Zlt_Qlt. lia.
      + rewrite Qmult_0_l. change 0%Q with (inject_Z 0).
        rewrite <- Zle_Qle. lia.
    - intros E. unfold Qeq in E. cbn in E. lia. }
  split; [apply HQ; lia|].
  unfold per_process_workers. rewrite HQ by lia.
  eexists. split; [reflexivity|].
  pose proof (Z.div_mod (workers + ngpus - 1) ngpus ltac:(lia)) as H1.
  pose proof (Z.mod_pos_bound (workers + ngpus - 1) ngpus ltac:(lia)) as H2.
  nia.
Qed.

Lemma per_process_sizes_witness :
  per_process_batch_size 1024 8 = Ok (1024 / 8)
  /\ exists w : Z,
       per_process_workers 4 8 = Ok w /\ 8 * (w - 1) < 4 <= 8 * w.
Proof. apply (per_process_sizes 1024 4 8); lia. Defined.

(** ** The driver: the steps of a run *)

Lemma main_worker_steps_value (n epochs B : Z) (log_epoch : list Z) :
  B <> 0 ->
  main_worker_steps n epochs B log_epoch
  = Ok (py_round (inject_Z (n * epochs) / inject_Z B),
        (list_to_set
           (map (fun epoch => py_round (inject_Z (n * epoch) / inject_Z B))
                log_epoch) : gset Z)
        ∪ {[ py_round (inject_Z (n * epochs) / inject_Z B) ]}).
Proof.
  intros HB. unfold main_worker_steps.
  rewrite (steps_at_returns n epochs B HB). cbn [bind].
  rewrite (map_result_total _
             (fun epoch => py_round (inject_Z (n * epoch) / inject_Z B))).
  2:{ intros a. now apply steps_at_returns. }
  reflexivity.
Qed.

Lemma train_steps_last (start_step total_steps : Z) :
  start_step < total_steps ->
  train_steps start_step total_steps
  = (train_steps start_step (total_steps - 1) ++ [total_steps])%list.
Proof.
  intros H. unfold train_steps.
  replace (Z.to_nat (total_steps - start_step))
    with (S (Z.to_nat (total_steps - 1 - start_step))) by lia.
  rewrite seq_S, map_app. cbn [map]. do 2 f_equal. lia.
Qed.

(** X6. A run that has steps left ([start_step < total_steps]) visits
    exactly the steps [start_step + 1 .. total_steps], the last one being
    [total_steps]; with a non-zero evaluation interval that last step
    evaluates, whatever the interval is; a run with
    [total_steps <= start_step] has no step at all. *)
Theorem train_ends_with_evaluation (n epochs B : Z) (log_epoch : list Z)
    (log_steps start_step total_steps : Z) (specified_steps : gset Z) :
  main_worker_steps n epochs B log_epoch = Ok (total_steps, specified_steps) ->
  log_steps <> 0 ->
  (start_step < total_steps ->
   (forall step : Z,
      In step (train_steps start_step total_steps)
      <-> start_step < step <= total_steps)
   /\ List.last (train_steps start_step total_steps) 0 = total_steps
   /\ evaluates total_steps log_steps specified_steps = Ok true)
  /\ (total_steps <= start_step -> train_steps start_step total_steps = []).
Proof.
  intros Hs Hl. split.
  - intros Hlt. split; [|split].
    + intros step. unfold train_steps. rewrite in_map_iff. split.
      * intros (i & <- & Hi). apply in_seq in Hi. lia.
      * intros H. exists (Z.to_nat (step - start_step - 1)). split; [lia|].
        apply in_seq. lia.
    + rewrite train_steps_last by exact Hlt. apply List.last_last.
    + destruct (Z.eq_dec B 0) as [->|HB]; [discriminate Hs|].
      rewrite (main_worker_steps_value _ _ _ _ HB) in Hs.
      injection Hs as <- <-.
      unfold evaluates, py_mod.
      destruct (Z.eqb_spec log_steps 0) as [E|_]; [contradiction|].
      cbn [bind]. f_equal. apply orb_true_iff. right.
      apply bool_decide_eq_true. set_solver.
  - intros Hge. unfold train_steps.
    replace (Z.to_nat (total_steps - start_step)) with 0%nat by lia.
    reflexivity.
Qed.

Lemma train_ends_with_evaluation_witness :
  List.last (train_steps 0 8) 0 = 8
  /\ evaluates 8 5 ((list_to_set [4] : gset Z) ∪ {[ 8 ]}) = Ok true.
Proof.
  destruct (train_ends_with_evaluation 1000 2 256 [1] 5 0 8
              ((list_to_set [4] : gset Z) ∪ {[ 8 ]})) as [H _].
  - exact (main_worker_steps_value 1000 2 256 [1] ltac:(lia)).
  - lia.
  - destruct H as (_ & H1 & H2); [lia|]. split; assumption.
Defined.
(** [round] is monotone. *)
Lemma py_round_mono (q1 q2 : Q) :
  (q1 <= q2)%Q -> py_round q1 <= py_round q2.
Proof.
  intros H. pose proof (Qfloor_resp_le _ _ H) as Hf.
  pose proof (Qfloor_le q1) as L1. pose proof (Qlt_floor q1) as U1.
  pose proof (Qfloor_le q2) as L2. pose proof (Qlt_floor q2) as U2.
  unfold py_round.
  destruct (Z.eq_dec (Qfloor q1) (Qfloor q2)) as [E|E].
  - rewrite <- E in *. set (f := Qfloor q1) in *.
    destruct (q1 - inject_Z f ?= 1 # 2)%Q eqn:C1;
      destruct (q2 - inject_Z f ?= 1 # 2)%Q eqn:C2;
      try (destruct (Z.even f)); try lia;
      first [apply Qeq_alt in C1 | apply Qlt_alt in C1 | apply Qgt_alt in C1];
      first [apply Qeq_alt in C2 | apply Qlt_alt in C2 | apply Qgt_alt in C2];
      exfalso; Lqa.lra.
  - destruct (q1 - inject_Z (Qfloor q1) ?= 1 # 2)%Q;
      destruct (q2 - inject_Z (Qfloor q2) ?= 1 # 2)%Q;
      try (destruct (Z.even (Qfloor q1))); try (destruct (Z.even (Qfloor q2)));
      lia.
Qed.

(** X7. With a non-negative dataset size and a positive batch size, each
    epoch [e] given to [--log-epoch] contributes the step
    [round(n * e / B)] to the forced evaluation steps, and that step is
    ordered against [total_steps] as [e] is against the number of epochs:
    an epoch of the run maps to a step of the run, a negative epoch to no
    positive step, an epoch past the last one to no step before
    [total_steps]. *)
Theorem log_epoch_steps_in_range (n epochs B : Z) (log_epoch : list Z)
    (total_steps : Z) (specified_steps : gset Z) (e : Z) :
  0 <= n -> 0 < B ->
  main_worker_steps n epochs B log_epoch = Ok (total_steps, specified_steps) ->
  In e log_epoch ->
  exists s : Z,
    steps_at n e B = Ok s
    /\ s ∈ specified_steps
    /\ (0 <= e -> 0 <= s)
    /\ (e <= 0 -> s <= 0)
    /\ (e <= epochs -> s <= total_steps)
    /\ (epochs <= e -> total_steps <= s).
Proof.
  intros Hn HB Hs He.
  rewrite (main_worker_steps_value n epochs B log_epoch ltac:(lia)) in Hs.
  injection Hs as <- <-.
  rewrite steps_at_returns by lia. eexists. split; [reflexivity|].
  assert (M : forall a b : Z, a <= b ->
            py_round (inject_Z (n * a) / inject_Z B)
            <= py_round (inject_Z (n * b) / inject_Z B)).
  { intros a b Hab. apply py_round_mono.
    apply Qmult_le_compat_r.
    - rewrite <- Zle_Qle. nia.
    - apply Qinv_le_0_compat. change 0%Q with (inject_Z 0).
      rewrite <- Zle_Qle. lia. }
  assert (Z0 : py_round (inject_Z (n * 0) / inject_Z B) = 0).
  { rewrite Z.mul_0_r. destruct B as [|p|p]; try lia. reflexivity. }
  split; [|repeat split].
  - apply elem_of_union_l, elem_of_list_to_set, list_elem_of_In.
    apply in_map_iff. exists e. split; [reflexivity | exact He].
  - intros H. rewrite <- Z0. now apply M.
  - intros H. rewrite <- Z0. now apply M.
  - apply M.
  - apply M.
Qed.

Lemma log_epoch_steps_in_range_witness :
  exists s : Z,
    steps_at 1000 1 256 = Ok s
    /\ s ∈ ((list_to_set
               (map (fun epoch => py_round (inject_Z (1000 * epoch) / inject_Z 256))
                    [1]) : gset Z)
            ∪ {[ py_round (inject_Z (1000 * 2) / inject_Z 256) ]})
    /\ (0 <= 1 -> 0 <= s)
    /\ (1 <= 0 -> s <= 0)
    /\ (1 <= 2 -> s <= py_round (inject_Z (1000 * 2) / inject_Z 256))
    /\ (2 <= 1 -> py_round (inject_Z (1000 * 2) / inject_Z 256) <= s).
Proof.
  apply (log_epoch_steps_in_range 1000 2 256 [1]).
  - lia.
  - lia.
  - apply main_worker_steps_value. lia.
  - left. reflexivity.
Defined.

(** ** The driver: the best accuracy within a run *)

Lemma Qlt_bool_iff (a b : Q) : Qlt_bool a b = true <-> (a < b)%Q.
Proof.
  unfold Qlt_bool. rewrite negb_true_iff. split.
  - intros H. apply Qnot_le_lt. intros L. apply Qle_bool_iff in L. congruence.
  - intros H. destruct (Qle_bool b a) eqn:E; [|reflexivity].
    apply Qle_bool_iff in E. exfalso. Lqa.lra.
Qed.

Lemma Qmax_spec (a b : Q) :
  (a <= Qmax a b)%Q /\ (b <= Qmax a b)%Q /\ (Qmax a b = a \/ Qmax a b = b).
Proof.
  unfold Qmax. destruct (Qlt_bool a b) eqn:E.
  - apply Qlt_bool_iff in E. repeat split; [Lqa.lra | Lqa.lra | now right].
  - assert (~ (a < b)%Q) by (rewrite <- Qlt_bool_iff; congruence).
    repeat split; [Lqa.lra | Lqa.lra | now left].
Qed.

(** What the loop of [train] saves at its [k]-th evaluation, when it
    entered the evaluations with the best accuracy [best]. *)
Lemma train_loop_lookup (evals : list (Z * Q)) (best : Q) (k : nat)
    (is_best : bool) (c : checkpoint) :
  train_loop best evals !! k = Some (is_best, c) ->
  exists (step : Z) (acc1 : Q),
    evals !! k = Some (step, acc1)
    /\ ckpt_step c = step
    /\ (best <= ckpt_best_acc1 c)%Q
    /\ (acc1 <= ckpt_best_acc1 c)%Q
    /\ (forall (j : nat) (s : Z) (a : Q),
          (j < k)%nat -> evals !! j = Some (s, a) -> (a <= ckpt_best_acc1 c)%Q)
    /\ (is_best = true <->
        (best < acc1)%Q
        /\ forall (j : nat) (s : Z) (a : Q),
             (j < k)%nat -> evals !! j = Some (s, a) -> (a < acc1)%Q)
    /\ (ckpt_best_acc1 c = best
        \/ exists (j : nat) (s : Z),
             (j <= k)%nat /\ evals !! j = Some (s, ckpt_best_acc1 c)).
Proof.
  revert best k. induction evals as [|[s0 a0] evals IH]; intros best k H;
    [discriminate H|].
  cbn [train_loop train_evaluate] in H.
  pose proof (Qmax_spec a0 best) as (M1 & M2 & M3).
  destruct k as [|k].
  - cbn in H. injection H as <- <-. exists s0, a0. cbn [ckpt_step ckpt_best_acc1].
    split; [reflexivity|]. split; [reflexivity|].
    split; [exact M2|]. split; [exact M1|].
    split; [intros j s a Hj; lia|]. split.
    + rewrite Qlt_bool_iff. split; [intros Hb; split; [exact Hb|] | tauto].
      intros j s a Hj. lia.
    + destruct M3 as [M3|M3]; rewrite M3; [right | now left].
      exists 0%nat, s0. split; [lia | reflexivity].
  - cbn in H. destruct (IH _ _ H) as (step & acc1 & E & Hs & Hb & Ha & Hp & Hi & Hw).
    exists step, acc1. split; [exact E|]. split; [exact Hs|].
    split; [Lqa.lra|]. split; [exact Ha|]. split; [|split].
    + intros [|j] s a Hj Hl.
      * cbn in Hl. injection Hl as <- <-. Lqa.lra.
      * cbn in Hl. apply (Hp j s a); [lia | exact Hl].
    + rewrite Hi. split.
      * intros [Hm Hall]. split; [Lqa.lra|].
        intros [|j] s a Hj Hl.
        -- cbn in Hl. injection Hl as <- <-. Lqa.lra.
        -- cbn in Hl. apply (Hall j s a); [lia | exact Hl].
      * intros [Hm Hall]. split.
        -- destruct M3 as [M3|M3]; rewrite M3; [|exact Hm].
           apply (Hall 0%nat s0 a0); [lia | reflexivity].
        -- intros j s a Hj Hl. apply (Hall (S j) s a); [lia | exact Hl].
    + destruct Hw as [Hw|(j & s & Hj & Hl)].
      * rewrite Hw. destruct M3 as [M3|M3]; rewrite M3; [right | now left].
        exists 0%nat, s0. split; [lia | reflexivity].
      * right. exists (S j), s. split; [lia | exact Hl].
Qed.

(** X8. Within one call of [train], the checkpoint saved at the [k]-th
    evaluation carries the step of that evaluation and, as [best_acc1], the
    largest of 0 and the accuracies measured up to and including it (so the
    saved best accuracy is never negative and never below an accuracy of the
    run); the evaluation is marked as the best one exactly when its accuracy
    is positive and strictly above every earlier accuracy of the call. *)
Theorem train_best_is_running_maximum (g : globals) (evals : list (Z * Q))
    (k : nat) (is_best : bool) (c : checkpoint) :
  snd (train g evals) !! k = Some (is_best, c) ->
  exists (step : Z) (acc1 : Q),
    evals !! k = Some (step, acc1)
    /\ ckpt_step c = step
    /\ (0 <= ckpt_best_acc1 c)%Q
    /\ (forall (j : nat) (s : Z) (a : Q),
          (j <= k)%nat -> evals !! j = Some (s, a) -> (a <= ckpt_best_acc1 c)%Q)
    /\ (ckpt_best_acc1 c = 0%Q
        \/ exists (j : nat) (s : Z),
             (j <= k)%nat /\ evals !! j = Some (s, ckpt_best_acc1 c))
    /\ (is_best = true <->
        (0 < acc1)%Q
        /\ forall (j : nat) (s : Z) (a : Q),
             (j < k)%nat -> evals !! j = Some (s, a) -> (a < acc1)%Q).
Proof.
  intros H. cbn [train snd] in H.
  destruct (train_loop_lookup _ _ _ _ _ H)
    as (step & acc1 & E & Hs & Hb & Ha & Hp & Hi & Hw).
  exists step, acc1. split; [exact E|]. split; [exact Hs|].
  split; [exact Hb|]. split; [|split; [exact Hw | exact Hi]].
  intros j s a Hj Hl. destruct (Nat.eq_dec j k) as [->|Hne].
  - rewrite E in Hl. injection Hl as <- <-. exact Ha.
  - apply (Hp j s a); [lia | exact Hl].
Qed.

Lemma train_best_is_running_maximum_witness :
  exists (step : Z) (acc1 : Q),
    [(100, 50%Q); (200, 70%Q); (300, 60%Q)] !! 2%nat = Some (step, acc1)
    /\ ckpt_step {| ckpt_step := 300; ckpt_best_acc1 := 70 |} = step
    /\ (0 <= ckpt_best_acc1 {| ckpt_step := 300; ckpt_best_acc1 := 70 |})%Q
    /\ (forall (j : nat) (s : Z) (a : Q),
          (j <= 2)%nat ->
          [(100, 50%Q); (200, 70%Q); (300, 60%Q)] !! j = Some (s, a) ->
          (a <= ckpt_best_acc1 {| ckpt_step := 300; ckpt_best_acc1 := 70 |})%Q)
    /\ (ckpt_best_acc1 {| ckpt_step := 300; ckpt_best_acc1 := 70 |} = 0%Q
        \/ exists (j : nat) (s : Z),
             (j <= 2)%nat
             /\ [(100, 50%Q); (200, 70%Q); (300, 60%Q)] !! j
                = Some (s, ckpt_best_acc1 {| ckpt_step := 300; ckpt_best_acc1 := 70 |}))
    /\ (false = true <->
        (0 < acc1)%Q
        /\ forall (j : nat) (s : Z) (a : Q),
             (j < 2)%nat ->
             [(100, 50%Q); (200, 70%Q); (300, 60%Q)] !! j = Some (s, a) ->
             (a < acc1)%Q).
Proof.
  apply (train_best_is_running_maximum module_globals
           [(100, 50%Q); (200, 70%Q); (300, 60%Q)] 2 false
           {| ckpt_step := 300; ckpt_best_acc1 := 70 |}).
  reflexivity.
Defined.

(** ** The driver: checkpoint files *)

Lemma string_app_inv_head (p a b : string) : p ++ a = p ++ b -> a = b.
Proof.
  induction p as [|c p IH]; cbn [append]; intros H; [exact H|].
  injection H as H. now apply IH.
Qed.

Lemma string_app_inv_tail (a b c : string) : a ++ c = b ++ c -> a = b.
Proof.
  revert b. induction a as [|x a IH]; intros [|y b] H; cbn [append] in H.
  - reflexivity.
  - apply (f_equal String.length) in H. cbn in H.
    rewrite string_length_app in H. lia.
  - apply (f_equal String.length) in H. cbn in H.
    rewrite string_length_app in H. lia.
  - injection H as -> H. f_equal. now apply IH.
Qed.

(** [str] of an int determines the int. *)
Lemma str_int_inj (a b : Z) : str_int a = str_int b -> a = b.
Proof.
  assert (N : forall z : Z, Z.to_int z <> Decimal.Pos Decimal.Nil
                            /\ Z.to_int z <> Decimal.Neg Decimal.Nil).
  { intros [|p|p]; cbn; split; try discriminate;
      pose proof (pos_uint_shape p) as H; intros E; injection E as E;
      rewrite E in H; exact H. }
  unfold str_int. intros H.
  apply (f_equal NilZero.int_of_string) in H.
  rewrite !NilZero.isi in H by apply N.
  injection H as H. now apply DecimalZ.to_int_inj.
Qed.

(** Two relative names joined to the same directory give the same path only
    when they are the same name. *)
Lemma os_path_join_inj (path a b : string) :
  String.prefix "/" a = false -> String.prefix "/" b = false ->
  os_path_join path a = os_path_join path b -> a = b.
Proof.
  unfold os_path_join. intros -> ->.
  destruct (String.eqb path "" || endswith path "/").
  - apply string_app_inv_head.
  - intros H. apply string_app_inv_head in H.
    now apply (string_app_inv_head "/").
Qed.

Lemma step_name_relative (step : Z) :
  String.prefix "/" ("model_step_" ++ str_int step ++ ".pth.tar") = false.
Proof. reflexivity. Qed.

Lemma checkpoint_paths_distinct (path : string) (step : Z) :
  os_path_join path "checkpoint.pth.tar"
  <> os_path_join path "model_best.pth.tar"
  /\ os_path_join path "checkpoint.pth.tar"
     <> os_path_join path ("model_step_" ++ str_int step ++ ".pth.tar")
  /\ os_path_join path "model_best.pth.tar"
     <> os_path_join path ("model_step_" ++ str_int step ++ ".pth.tar").
Proof.
  repeat split; intros H; apply os_path_join_inj in H;
    try reflexivity; cbn [append] in H; discriminate H.
Qed.

Lemma step_paths_distinct (path : string) (s1 s2 : Z) :
  s1 <> s2 ->
  os_path_join path ("model_step_" ++ str_int s1 ++ ".pth.tar")
  <> os_path_join path ("model_step_" ++ str_int s2 ++ ".pth.tar").
Proof.
  intros Hne H. apply os_path_join_inj in H; try reflexivity.
  apply string_app_inv_head, string_app_inv_tail, str_int_inj in H.
  contradiction.
Qed.

(** The files after one call with the default file name and a step. *)
Lemma save_checkpoint_value {A : Type} (state : A) (is_best : bool)
    (path : string) (step : Z) (fs : gmap string A) :
  save_checkpoint state is_best path "checkpoint.pth.tar" (Some step) fs
  = inr (<[os_path_join path ("model_step_" ++ str_int step ++ ".pth.tar")
           := state]>
           (if is_best
            then <[os_path_join path "model_best.pth.tar" := state]>
                   (<[os_path_join path "checkpoint.pth.tar" := state]> fs)
            else <[os_path_join path "checkpoint.pth.tar" := state]> fs)).
Proof.
  destruct (checkpoint_paths_distinct path step) as (D1 & D2 & D3).
  unfold save_checkpoint, shutil_copyfile, torch_save.
  apply String.eqb_neq in D1, D2. rewrite D2.
  destruct is_best.
  - rewrite D1, lookup_insert_eq.
    rewrite lookup_insert_ne by (apply String.eqb_neq in D1; congruence).
    now rewrite lookup_insert_eq.
  - now rewrite lookup_insert_eq.
Qed.

(** X9. [save_checkpoint(state, is_best, path, step=step)] never fails on
    its copies: afterwards [checkpoint.pth.tar] and
    [model_step_<step>.pth.tar] in [path] hold [state];
    [model_best.pth.tar] holds [state] when [is_best] is true and is left as
    it was (stale, or absent) when it is false; every other file is
    untouched. *)
Theorem save_checkpoint_files {A : Type} (state : A) (is_best : bool)
    (path : string) (step : Z) (fs : gmap string A) :
  exists fs' : gmap string A,
    save_checkpoint state is_best path "checkpoint.pth.tar" (Some step) fs
    = inr fs'
    /\ fs' !! os_path_join path "checkpoint.pth.tar" = Some state
    /\ fs' !! os_path_join path ("model_step_" ++ str_int step ++ ".pth.tar")
       = Some state
    /\ fs' !! os_path_join path "model_best.pth.tar"
       = (if is_best then Some state
          else fs !! os_path_join path "model_best.pth.tar")
    /\ (forall f : string,
          f <> os_path_join path "checkpoint.pth.tar" ->
          f <> os_path_join path ("model_step_" ++ str_int step ++ ".pth.tar") ->
          f <> os_path_join path "model_best.pth.tar" ->
          fs' !! f = fs !! f).
Proof.
  destruct (checkpoint_paths_distinct path step) as (D1 & D2 & D3).
  rewrite save_checkpoint_value. eexists. split; [reflexivity|].
  split; [|split; [|split]].
  - rewrite lookup_insert_ne by congruence.
    destruct is_best.
    + rewrite lookup_insert_ne by congruence. apply lookup_insert_eq.
    + apply lookup_insert_eq.
  - apply lookup_insert_eq.
  - rewrite lookup_insert_ne by congruence.
    destruct is_best.
    + apply lookup_insert_eq.
    + now rewrite lookup_insert_ne by congruence.
  - intros f F1 F2 F3. rewrite lookup_insert_ne by congruence.
    destruct is_best; rewrite !lookup_insert_ne by congruence; reflexivity.
Qed.

(** [train_saves] returns, and what it leaves in a file it writes last. *)
Lemma train_saves_snoc (path : string) (saved : list (bool * checkpoint))
    (b : bool) (c : checkpoint) (fs : gmap string checkpoint) :
  train_saves path (saved ++ [(b, c)]) fs
  = match train_saves path saved fs with
    | inl e => inl e
    | inr fs' =>
        save_checkpoint c b path "checkpoint.pth.tar" (Some (ckpt_step c)) fs'
    end.
Proof.
  revert fs. induction saved as [|[b0 c0] saved IH]; intros fs.
  - cbn [app train_saves]. now destruct save_checkpoint.
  - cbn [app train_saves]. destruct save_checkpoint; [reflexivity | apply IH].
Qed.

Lemma train_saves_returns (path : string) (saved : list (bool * checkpoint))
    (fs : gmap string checkpoint) :
  exists fs' : gmap string checkpoint, train_saves path saved fs = inr fs'.
Proof.
  revert fs. induction saved as [|[b c] saved IH]; intros fs;
    cbn [train_saves]; [now eexists|].
  rewrite save_checkpoint_value. apply IH.
Qed.

Lemma train_saves_files (path : string)
    (saved : list (bool * checkpoint)) (fs : gmap string checkpoint) :
  NoDup (map (fun bc => ckpt_step (snd bc)) saved) ->
  exists fs' : gmap string checkpoint,
    train_saves path saved fs = inr fs'
    /\ (forall (b : bool) (c : checkpoint),
          In (b, c) saved ->
          fs' !! os_path_join path
                   ("model_step_" ++ str_int (ckpt_step c) ++ ".pth.tar")
          = Some c)
    /\ (forall (pre : list (bool * checkpoint)) (b : bool) (c : checkpoint),
          saved = (pre ++ [(b, c)])%list ->
          fs' !! os_path_join path "checkpoint.pth.tar" = Some c).
Proof.
  revert fs. induction saved as [|[b0 c0] saved IH] using rev_ind; intros fs Hnd.
  - exists fs. split; [reflexivity|]. split; [intros b c []|].
    intros [|x pre] b c H; discriminate H.
  - rewrite map_app in Hnd. cbn [map snd] in Hnd.
    apply NoDup_app in Hnd as (Hnd & Hfresh & _).
    destruct (IH fs Hnd) as (fs1 & E1 & Hstep & _).
    rewrite train_saves_snoc, E1.
    destruct (save_checkpoint_files c0 b0 path (ckpt_step c0) fs1)
      as (fs2 & E2 & Hc & Hs & _ & Hother).
    exists fs2. split; [exact E2|]. split.
    + intros b c Hin. apply in_app_or in Hin as [Hin|[Heq|[]]].
      * assert (Hne : ckpt_step c <> ckpt_step c0).
        { intros E. apply (Hfresh (ckpt_step c)).
          - apply list_elem_of_In, in_map_iff. now exists (b, c).
          - rewrite E. apply list_elem_of_In. now left. }
        destruct (checkpoint_paths_distinct path (ckpt_step c)) as (D1 & D2 & D3).
        rewrite Hother; [now apply (Hstep b) | congruence | | congruence].
        now apply step_paths_distinct.
      * injection Heq as <- <-. exact Hs.
    + intros pre b c Hl. apply app_inj_tail in Hl as [_ Hl].
      injection Hl as <- <-. exact Hc.
Qed.

Lemma train_loop_steps (best : Q) (evals : list (Z * Q)) :
  map (fun bc : bool * checkpoint => ckpt_step (snd bc)) (train_loop best evals)
  = map fst evals.
Proof.
  revert best. induction evals as [|[s a] evals IH]; intros best;
    [reflexivity|].
  cbn [train_loop train_evaluate map fst snd ckpt_step]. now rewrite IH.
Qed.

(** X10. Over the evaluations of one call of [train], whose steps are
    all different, the saving never fails and every evaluation keeps its own
    file: after the call, [model_step_<step>.pth.tar] holds the checkpoint
    saved at that step for every evaluation of the call, and
    [checkpoint.pth.tar] holds the one of the last evaluation. *)
Theorem train_saves_step_files (g : globals) (evals : list (Z * Q))
    (path : string) (fs : gmap string checkpoint) :
  NoDup (map fst evals) ->
  exists fs' : gmap string checkpoint,
    train_saves path (snd (train g evals)) fs = inr fs'
    /\ (forall (b : bool) (c : checkpoint),
          In (b, c) (snd (train g evals)) ->
          fs' !! os_path_join path
                   ("model_step_" ++ str_int (ckpt_step c) ++ ".pth.tar")
          = Some c)
    /\ (forall (pre : list (bool * checkpoint)) (b : bool) (c : checkpoint),
          snd (train g evals) = (pre ++ [(b, c)])%list ->
          fs' !! os_path_join path "checkpoint.pth.tar" = Some c).
Proof.
  intros Hnd. apply train_saves_files.
  cbn [train snd]. now rewrite train_loop_steps.
Qed.

Lemma train_saves_step_files_witness :
  exists fs' : gmap string checkpoint,
    train_saves "logs/run/checkpoints"
      (snd (train module_globals [(100, 50%Q); (200, 70%Q)])) ∅ = inr fs'
    /\ (forall (b : bool) (c : checkpoint),
          In (b, c) (snd (train module_globals [(100, 50%Q); (200, 70%Q)])) ->
          fs' !! os_path_join "logs/run/checkpoints"
                   ("model_step_" ++ str_int (ckpt_step c) ++ ".pth.tar")
          = Some c)
    /\ (forall (pre : list (bool * checkpoint)) (b : bool) (c : checkpoint),
          snd (train module_globals [(100, 50%Q); (200, 70%Q)])
          = (pre ++ [(b, c)])%list ->
          fs' !! os_path_join "logs/run/checkpoints" "checkpoint.pth.tar"
          = Some c).
Proof.
  apply (train_saves_step_files module_globals [(100, 50%Q); (200, 70%Q)]
           "logs/run/checkpoints" ∅).
  cbn. apply NoDup_cons. split; [|apply NoDup_singleton].
  intros H%list_elem_of_singleton. discriminate H.
Defined.

Lemma Qmax_not_best (best a : Q) :
  Qlt_bool best a = false -> (Qmax a best == best)%Q.
Proof.
  intros H. assert (N : ~ (best < a)%Q) by (rewrite <- Qlt_bool_iff; congruence).
  unfold Qmax. destruct (Qlt_bool a best) eqn:E; [reflexivity|].
  assert (~ (a < best)%Q) by (rewrite <- Qlt_bool_iff; congruence).
  Lqa.lra.
Qed.

Lemma train_saves_best_inv (path : string) (evals : list (Z * Q)) (best : Q)
    (fs : gmap string checkpoint) :
  exists fs' : gmap string checkpoint,
    train_saves path (train_loop best evals) fs = inr fs'
    /\ (existsb fst (train_loop best evals) = false ->
        fs' !! os_path_join path "model_best.pth.tar"
        = fs !! os_path_join path "model_best.pth.tar"
        /\ (running_best best (map snd evals) == best)%Q)
    /\ (existsb fst (train_loop best evals) = true ->
        exists cb : checkpoint,
          fs' !! os_path_join path "model_best.pth.tar" = Some cb
          /\ (ckpt_best_acc1 cb == running_best best (map snd evals))%Q
          /\ In (true, cb) (train_loop best evals))
    /\ (evals <> [] ->
        exists cl : checkpoint,
          fs' !! os_path_join path "checkpoint.pth.tar" = Some cl
          /\ (ckpt_best_acc1 cl == running_best best (map snd evals))%Q).
Proof.
  revert best fs. induction evals as [|[s a] rest IH]; intros best fs.
  - exists fs. cbn. split; [reflexivity|]. split; [|split].
    + intros _. split; reflexivity.
    + discriminate.
    + congruence.
  - cbn [train_loop train_evaluate train_saves map snd existsb fst].
    set (c := {| ckpt_step := s; ckpt_best_acc1 := Qmax a best |}).
    change (ckpt_step c) with s.
    destruct (save_checkpoint_files c (Qlt_bool best a) path s fs)
      as (fs1 & E1 & Hc & _ & Hb & _).
    rewrite E1.
    destruct (IH (Qmax a best) fs1) as (fs' & E & Hnone & Hsome & Hlast).
    exists fs'. split; [exact E|].
    change (running_best best (a :: map snd rest))
      with (running_best (Qmax a best) (map snd rest)).
    split; [|split].
    + intros H. apply orb_false_iff in H as [Hib Ht].
      destruct (Hnone Ht) as [H1 H2]. rewrite H1, Hb, Hib.
      split; [reflexivity|]. rewrite H2. now apply Qmax_not_best.
    + intros H. destruct (existsb fst (train_loop (Qmax a best) rest)) eqn:Ht.
      * destruct (Hsome eq_refl) as (cb & H1 & H2 & H3).
        exists cb. split; [exact H1|]. split; [exact H2 | now right].
      * rewrite orb_false_r in H. destruct (Hnone eq_refl) as [H1 H2].
        exists c. rewrite H1, Hb, H. split; [reflexivity|].
        split; [now rewrite H2 | now left].
    + intros _. destruct rest as [|e rest'].
      * cbn in E. injection E as <-. exists c. split; [exact Hc | reflexivity].
      * apply Hlast. discriminate.
Qed.

(** X11. After the evaluations of one call of [train] (at least one),
    [checkpoint.pth.tar] holds a checkpoint; if none of the evaluations was
    marked as best, [model_best.pth.tar] is as it was before the call; if
    one was, [model_best.pth.tar] holds a checkpoint saved in this call with
    the mark, and the best accuracy recorded in it equals the one recorded
    in [checkpoint.pth.tar]. *)
Theorem train_saves_model_best (g : globals) (evals : list (Z * Q))
    (path : string) (fs : gmap string checkpoint) :
  evals <> [] ->
  exists (fs' : gmap string checkpoint) (cl : checkpoint),
    train_saves path (snd (train g evals)) fs = inr fs'
    /\ fs' !! os_path_join path "checkpoint.pth.tar" = Some cl
    /\ (existsb fst (snd (train g evals)) = false ->
        fs' !! os_path_join path "model_best.pth.tar"
        = fs !! os_path_join path "model_best.pth.tar")
    /\ (existsb fst (snd (train g evals)) = true ->
        exists cb : checkpoint,
          fs' !! os_path_join path "model_best.pth.tar" = Some cb
          /\ In (true, cb) (snd (train g evals))
          /\ (ckpt_best_acc1 cb == ckpt_best_acc1 cl)%Q).
Proof.
  intros Hne. cbn [train snd].
  destruct (train_saves_best_inv path evals 0 fs)
    as (fs' & E & Hnone & Hsome & Hlast).
  destruct (Hlast Hne) as (cl & Hcl & Hq).
  exists fs', cl. split; [exact E|]. split; [exact Hcl|]. split.
  - intros H. apply (Hnone H).
  - intros H. destruct (Hsome H) as (cb & H1 & H2 & H3).
    exists cb. split; [exact H1|]. split; [exact H3|]. now rewrite H2, Hq.
Qed.

Lemma train_saves_model_best_witness :
  exists (fs' : gmap string checkpoint) (cl : checkpoint),
    train_saves "logs" (snd (train module_globals [(100, 50%Q); (200, 40%Q)])) ∅
    = inr fs'
    /\ fs' !! os_path_join "logs" "checkpoint.pth.tar" = Some cl
    /\ (existsb fst (snd (train module_globals [(100, 50%Q); (200, 40%Q)]))
        = false ->
        fs' !! os_path_join "logs" "model_best.pth.tar"
        = (∅ : gmap string checkpoint) !! os_path_join "logs" "model_best.pth.tar")
    /\ (existsb fst (snd (train module_globals [(100, 50%Q); (200, 40%Q)]))
        = true ->
        exists cb : checkpoint,
          fs' !! os_path_join "logs" "model_best.pth.tar" = Some cb
          /\ In (true, cb) (snd (train module_globals [(100, 50%Q); (200, 40%Q)]))
          /\ (ckpt_best_acc1 cb == ckpt_best_acc1 cl)%Q).
Proof.
  apply (train_saves_model_best module_globals [(100, 50%Q); (200, 40%Q)]
           "logs" ∅).
  discriminate.
Defined.
(** ** AverageMeter across processes *)

Lemma weighted_sum_app (l1 l2 : list (Q * Q)) :
  (weighted_sum (l1 ++ l2) == weighted_sum l1 + weighted_sum l2)%Q.
Proof. unfold weighted_sum. now rewrite map_app, Qsum_app. Qed.

Lemma total_weight_app (l1 l2 : list (Q * Q)) :
  (total_weight (l1 ++ l2) == total_weight l1 + total_weight l2)%Q.
Proof. unfold total_weight. now rewrite map_app, Qsum_app. Qed.

(** The meter of each process: some meter, reset, then updated with the
    process's own calls. *)
Lemma group_sums (procs : list (AverageMeter.t * list (Q * Q))) :
  let meters :=
    map (fun p => AverageMeter.updates (AverageMeter.reset (fst p)) (snd p))
        procs in
  (fst (dist_all_reduce_sum meters) == weighted_sum (concat (map snd procs)))%Q
  /\ (snd (dist_all_reduce_sum meters)
      == total_weight (concat (map snd procs)))%Q.
Proof.
  cbv zeta. unfold dist_all_reduce_sum. cbn [fst snd].
  induction procs as [|[m calls] procs [IH1 IH2]].
  - split; reflexivity.
  - cbn [map concat fst snd].
    rewrite weighted_sum_app, total_weight_app, <- IH1, <- IH2.
    unfold Qsum at 1 3. cbn [fold_right]. fold (Qsum (map AverageMeter.sum
      (map (fun p => AverageMeter.updates (AverageMeter.reset (fst p)) (snd p))
           procs))).
    fold (Qsum (map AverageMeter.count
      (map (fun p => AverageMeter.updates (AverageMeter.reset (fst p)) (snd p))
           procs))).
    rewrite updates_sum, updates_count. cbn [AverageMeter.reset
      AverageMeter.sum AverageMeter.count]. split; ring.
Qed.

(** X12. When every process of the group has reset its meter, updated it
    with its own values and weights, and then calls [all_reduce], then, in
    exact arithmetic: if the weights of all processes together do not sum to
    zero, the call returns on every process and leaves the same sum, count
    and average everywhere, namely those of one meter fed with the calls of
    all processes, the average being [sum(value * weight) / sum(weight)]
    over all of them, while the last value [val] stays the process's own; if
    they sum to zero, the call raises [ZeroDivisionError] on every
    process. *)
Theorem all_reduce_pools_processes
    (procs : list (AverageMeter.t * list (Q * Q))) (k : nat)
    (m : AverageMeter.t) (calls : list (Q * Q)) :
  let meters :=
    map (fun p => AverageMeter.updates (AverageMeter.reset (fst p)) (snd p))
        procs in
  let pooled := concat (map snd procs) in
  procs !! k = Some (m, calls) ->
  exists (m' : AverageMeter.t) (outcome : result unit),
    all_reduce_group meters !! k = Some (m', outcome)
    /\ (AverageMeter.sum m' == weighted_sum pooled)%Q
    /\ (AverageMeter.count m' == total_weight pooled)%Q
    /\ AverageMeter.val m'
       = AverageMeter.val (AverageMeter.updates (AverageMeter.reset m) calls)
    /\ (~ (total_weight pooled == 0)%Q ->
        outcome = Ok tt
        /\ (AverageMeter.avg m' == weighted_sum pooled / total_weight pooled)%Q)
    /\ ((total_weight pooled == 0)%Q -> outcome = Raise ZeroDivisionError).
Proof.
  intros meters pooled Hk.
  destruct (group_sums procs) as [Hs Hc]. fold meters pooled in Hs, Hc.
  unfold all_reduce_group.
  rewrite lookup_map. subst meters. rewrite lookup_map, Hk. cbn [option_map fst snd].
  set (meters :=
    map (fun p => AverageMeter.updates (AverageMeter.reset (fst p)) (snd p))
        procs) in *.
  set (total := dist_all_reduce_sum meters) in *.
  set (mk := AverageMeter.updates (AverageMeter.reset m) calls).
  unfold all_reduce. cbn [AverageMeter.sum AverageMeter.count
    AverageMeter.name AverageMeter.fmt AverageMeter.summary_type
    AverageMeter.device AverageMeter.val AverageMeter.avg].
  destruct (truediv (fst total) (snd total)) as [a|e] eqn:E.
  - eexists _, _. split; [reflexivity|].
    cbn [AverageMeter.sum AverageMeter.count AverageMeter.val AverageMeter.avg].
    split; [exact Hs|]. split; [exact Hc|]. split; [reflexivity|].
    unfold truediv in E. destruct (Qeq_bool (snd total) 0) eqn:B;
      [discriminate E|]. injection E as <-. split.
    + intros _. split; [reflexivity|]. apply Qdiv_comp; assumption.
    + intros Z. apply Qeq_bool_neq in B. rewrite Hc in B. contradiction.
  - eexists _, _. split; [reflexivity|].
    cbn [AverageMeter.sum AverageMeter.count AverageMeter.val AverageMeter.avg].
    split; [exact Hs|]. split; [exact Hc|]. split; [reflexivity|].
    unfold truediv in E. destruct (Qeq_bool (snd total) 0) eqn:B;
      [|discriminate E]. injection E as <-. split.
    + intros N. apply Qeq_bool_eq in B. rewrite Hc in B. contradiction.
    + reflexivity.
Qed.

Lemma all_reduce_pools_processes_witness :
  exists (m' : AverageMeter.t) (outcome : result unit),
    all_reduce_group
      (map (fun p => AverageMeter.updates (AverageMeter.reset (fst p)) (snd p))
           [(AverageMeter.init "Acc@1" ":6.2f" (Member AVERAGE) "cuda",
             [(1 # 2, 4); (1, 4)]%Q);
            (AverageMeter.init "Acc@1" ":6.2f" (Member AVERAGE) "cuda",
             [(0, 8)]%Q)]) !! 1%nat
    = Some (m', outcome)
    /\ (AverageMeter.sum m'
        == weighted_sum [(1 # 2, 4); (1, 4); (0, 8)])%Q
    /\ (AverageMeter.count m' == total_weight [(1 # 2, 4); (1, 4); (0, 8)])%Q
    /\ AverageMeter.val m'
       = AverageMeter.val
           (AverageMeter.updates
              (AverageMeter.reset
                 (AverageMeter.init "Acc@1" ":6.2f" (Member AVERAGE) "cuda"))
              [(0, 8)]%Q)
    /\ (~ (total_weight [(1 # 2, 4); (1, 4); (0, 8)] == 0)%Q ->
        outcome = Ok tt
        /\ (AverageMeter.avg m'
            == weighted_sum [(1 # 2, 4); (1, 4); (0, 8)]
               / total_weight [(1 # 2, 4); (1, 4); (0, 8)])%Q)
    /\ ((total_weight [(1 # 2, 4); (1, 4); (0, 8)] == 0)%Q ->
        outcome = Raise ZeroDivisionError).
Proof.
  apply (all_reduce_pools_processes
           [(AverageMeter.init "Acc@1" ":6.2f" (Member AVERAGE) "cuda",
             [(1 # 2, 4); (1, 4)]%Q);
            (AverageMeter.init "Acc@1" ":6.2f" (Member AVERAGE) "cuda",
             [(0, 8)]%Q)] 1
           (AverageMeter.init "Acc@1" ":6.2f" (Member AVERAGE) "cuda")
           [(0, 8)]%Q).
  reflexivity.
Defined.

(** ** AverageMeter: the rendered text *)

Lemma format_go_close (fv : pyval -> string -> result string)
    (args : list pyval) (kwargs : string -> option pyval) (t f : string) :
  format_go fv args kwargs (String "}" t) (Some f)
  = (let (nm, spec) := split_colon f in
     if String.eqb nm "" then
       match args with
       | v :: args' =>
           txt <- fv v spec ;;
           rest <- format_go fv args' kwargs t None ;;
           Ok (txt ++ rest)
       | [] => Raise (IndexError "Replacement index out of range for positional args tuple")
       end
     else
       match kwargs nm with
       | Some v =>
           txt <- fv v spec ;;
           rest <- format_go fv args kwargs t None ;;
           Ok (txt ++ rest)
       | None => Raise (KeyError nm)
       end).
Proof. reflexivity. Qed.

Lemma format_go_open (fv : pyval -> string -> result string)
    (args : list pyval) (kwargs : string -> option pyval) (s : string) :
  format_go fv args kwargs (String "{" s) None
  = format_go fv args kwargs s (Some "").
Proof. reflexivity. Qed.

(** [__str__] in closed form, for a format free of braces. *)
Lemma AverageMeter_str_value (format_number : Q -> string -> result string) (m : AverageMeter.t) :
  all_chars (fun c => negb (is_brace c)) (AverageMeter.fmt m) = true ->
  AverageMeter.str format_number m
  = match split_colon (AverageMeter.fmt m) with
    | ("", spec) =>
        v <- format_number (AverageMeter.val m) spec ;;
        a <- format_number (AverageMeter.avg m) spec ;;
        Ok (AverageMeter.name m ++ " " ++ v ++ " (" ++ a ++ ")")
    | (pre, _) => Raise (KeyError ("val" ++ pre))
    end.
Proof.
  intros Hf. unfold AverageMeter.str, str_format.
  set (fv := format_value format_number). set (kw := AverageMeter.dict m).
  set (fmt := AverageMeter.fmt m) in *.
  change ("{name} {val" ++ fmt ++ "} ({avg" ++ fmt ++ "})")
    with (String "{" ("name" ++ String "}" (" " ++ String "{" (("val" ++ fmt) ++ String "}" (" (" ++ String "{" (("avg" ++ fmt) ++ String "}" (")" ++ ""))))))).
  assert (Hval : all_chars (fun c => negb (is_brace c)) ("val" ++ fmt) = true)
    by (rewrite all_chars_app, Hf; reflexivity).
  assert (Havg : all_chars (fun c => negb (is_brace c)) ("avg" ++ fmt) = true)
    by (rewrite all_chars_app, Hf; reflexivity).
  assert (Sv : split_colon ("val" ++ fmt)
               = ("val" ++ fst (split_colon fmt), snd (split_colon fmt)))
    by (cbn; destruct (split_colon fmt); reflexivity).
  assert (Sa : split_colon ("avg" ++ fmt)
               = ("avg" ++ fst (split_colon fmt), snd (split_colon fmt)))
    by (cbn; destruct (split_colon fmt); reflexivity).
  rewrite format_go_open, (format_go_field fv [] kw "name" "") by reflexivity.
  rewrite format_go_close.
  change (split_colon ("" ++ "name")) with ("name", "").
  cbv iota beta. change ("name" =? "")%string with false. cbv iota.
  change (kw "name") with (Some (PyStr (AverageMeter.name m))).
  cbv iota beta. change (fv (PyStr (AverageMeter.name m)) "") with (Ok (AverageMeter.name m)).
  cbn [bind].
  rewrite (format_go_literal fv [] kw " ") by reflexivity.
  rewrite format_go_open, (format_go_field fv [] kw ("val" ++ fmt) "") by exact Hval.
  rewrite format_go_close. change ("" ++ "val" ++ fmt) with ("val" ++ fmt).
  rewrite Sv.
  rewrite (format_go_literal fv [] kw " (") by reflexivity.
  rewrite format_go_open, (format_go_field fv [] kw ("avg" ++ fmt) "") by exact Havg.
  rewrite format_go_close. change ("" ++ "avg" ++ fmt) with ("avg" ++ fmt).
  rewrite Sa.
  rewrite (format_go_literal fv [] kw ")" "") by reflexivity.
  cbn [format_go bind].
  destruct (split_colon fmt) as [pre spec]. cbn [fst snd].
  destruct pre as [|c pre].
  - change (kw ("val" ++ "")) with (Some (PyNum (AverageMeter.val m))).
    change (kw ("avg" ++ "")) with (Some (PyNum (AverageMeter.avg m))).
    cbn [append String.eqb Ascii.eqb Bool.eqb]. unfold fv. cbn [format_value].
    destruct (format_number (AverageMeter.val m) spec); [|reflexivity].
    destruct (format_number (AverageMeter.avg m) spec); reflexivity.
  - change (kw ("val" ++ String c pre)) with (@None pyval).
    reflexivity.
Qed.

(** X13. With a meter format [fmt] of the shape [:spec] (as the driver
    passes: [:6.3f], [:.4e], [:6.2f]), [spec] free of braces, [str(meter)]
    is the name, a space, the current value formatted under [spec], a space,
    and the average formatted under [spec] in parentheses; it raises what
    the formatting of the value or of the average raises.  A format that
    starts with another character, with none of [!], [.] and [[] before its
    first colon, makes [str(meter)] raise [KeyError]: the text up to the
    first colon becomes part of the field name, which is then no attribute
    of the meter. *)
Theorem AverageMeter_str_rendering
    (format_number : Q -> string -> result string) (m : AverageMeter.t)
    (spec : string) :
  all_chars (fun c => negb (is_brace c)) spec = true ->
  (AverageMeter.fmt m = ":" ++ spec ->
   AverageMeter.str format_number m
   = (v <- format_number (AverageMeter.val m) spec ;;
      a <- format_number (AverageMeter.avg m) spec ;;
      Ok (AverageMeter.name m ++ " " ++ v ++ " (" ++ a ++ ")")))
  /\ (forall c : ascii,
        c <> ":"%char -> is_brace c = false ->
        all_chars (fun c' => negb (is_field_operator c'))
                  (String c (fst (split_colon spec))) = true ->
        AverageMeter.fmt m = String c spec ->
        AverageMeter.str format_number m
        = Raise (KeyError ("val" ++ String c (fst (split_colon spec))))).
Proof.
  intros Hs. split.
  - intros E. rewrite AverageMeter_str_value by (rewrite E; exact Hs).
    rewrite E. reflexivity.
  - intros c Hc Hb _ E.
    rewrite AverageMeter_str_value
      by (rewrite E; cbn [all_chars]; now rewrite Hb, Hs).
    rewrite E. cbn [split_colon].
    destruct (Ascii.eqb_spec c ":") as [->|_]; [contradiction|].
    destruct (split_colon spec). reflexivity.
Qed.

Lemma AverageMeter_str_rendering_witness :
  AverageMeter.str format_number_floor
    (AverageMeter.mk "Time" ":6.3f" (Member AVERAGE) "cpu" 2 3 6 2)
  = (v <- format_number_floor 2 "6.3f" ;;
     a <- format_number_floor 3 "6.3f" ;;
     Ok ("Time" ++ " " ++ v ++ " (" ++ a ++ ")")).
Proof.
  apply (proj1 (AverageMeter_str_rendering format_number_floor
                  (AverageMeter.mk "Time" ":6.3f" (Member AVERAGE) "cpu" 2 3 6 2)
                  "6.3f" eq_refl)).
  reflexivity.
Defined.

(** The summary of a meter of kind [AVERAGE]. *)
Lemma AverageMeter_summary_average
    (format_number : Q -> string -> result string) (m : AverageMeter.t) :
  AverageMeter.summary_type m = Member AVERAGE ->
  AverageMeter.summary format_number m
  = (a <- format_number (AverageMeter.avg m) ".3f" ;;
     Ok (AverageMeter.name m ++ " " ++ a)).
Proof.
  intros E. unfold AverageMeter.summary, str_format. rewrite E. cbn [bind].
  change (format_go (format_value format_number) [] (AverageMeter.dict m)
            "{name} {avg:.3f}" None)
    with (txt <- Ok (AverageMeter.name m) ;;
          rest <- (rest <- (txt <- format_number (AverageMeter.avg m) ".3f" ;;
                            rest <- Ok "" ;; Ok (txt ++ rest)) ;;
                   Ok (String " " rest)) ;;
          Ok (txt ++ rest)).
  cbn [bind]. destruct (format_number (AverageMeter.avg m) ".3f"); cbn [bind];
    [|reflexivity].
  now rewrite string_app_nil_r.
Qed.

Lemma AverageMeter_summary_none
    (format_number : Q -> string -> result string) (m : AverageMeter.t) :
  AverageMeter.summary_type m = Member NONE ->
  AverageMeter.summary format_number m = Ok "".
Proof. intros E. unfold AverageMeter.summary. now rewrite E. Qed.

(** X14. The summary line that [validate] prints, with its four meters
    (time and loss of kind [NONE], the two accuracies of kind [AVERAGE]): the
    two meters of kind [NONE] contribute empty entries, so that the line is
    [ *], three spaces, and the two accuracies as name, space and average,
    separated by a space; the averages are formatted under [.3f], not under
    the meters' own format. *)
Theorem validate_summary_line (format_number : Q -> string -> result string)
    (p : ProgressMeter.t) (batch_time losses top1 top5 : AverageMeter.t) :
  ProgressMeter.meters p = [batch_time; losses; top1; top5] ->
  AverageMeter.summary_type batch_time = Member NONE ->
  AverageMeter.summary_type losses = Member NONE ->
  AverageMeter.summary_type top1 = Member AVERAGE ->
  AverageMeter.summary_type top5 = Member AVERAGE ->
  ProgressMeter.display_summary format_number p
  = (a1 <- format_number (AverageMeter.avg top1) ".3f" ;;
     a5 <- format_number (AverageMeter.avg top5) ".3f" ;;
     Ok (" *   " ++ AverageMeter.name top1 ++ " " ++ a1 ++ " "
         ++ AverageMeter.name top5 ++ " " ++ a5)).
Proof.
  intros Hm Hb Hl H1 H5. unfold ProgressMeter.display_summary.
  rewrite Hm. cbn [map_result].
  rewrite (AverageMeter_summary_none _ _ Hb), (AverageMeter_summary_none _ _ Hl),
    (AverageMeter_summary_average _ _ H1), (AverageMeter_summary_average _ _ H5).
  cbn [bind].
  destruct (format_number (AverageMeter.avg top1) ".3f"); cbn [bind];
    [|reflexivity].
  destruct (format_number (AverageMeter.avg top5) ".3f"); cbn [bind];
    [|reflexivity].
  cbn [join append]. now rewrite !string_app_assoc.
Qed.

Lemma validate_summary_line_witness :
  ProgressMeter.display_summary format_number_floor
    (ProgressMeter.mk "[{:3d}/196]"
       [AverageMeter.mk "Time" ":6.3f" (Member NONE) "cpu" 1 1 5 5;
        AverageMeter.mk "Loss" ":.4e" (Member NONE) "cpu" 2 2 10 5;
        AverageMeter.mk "Acc@1" ":6.2f" (Member AVERAGE) "cpu" 0 0 0 5;
        AverageMeter.mk "Acc@5" ":6.2f" (Member AVERAGE) "cpu" 1 1 5 5]
       "Test: ")
  = (a1 <- format_number_floor 0 ".3f" ;;
     a5 <- format_number_floor 1 ".3f" ;;
     Ok (" *   " ++ "Acc@1" ++ " " ++ a1 ++ " " ++ "Acc@5" ++ " " ++ a5)).
Proof.
  apply (validate_summary_line format_number_floor _
           (AverageMeter.mk "Time" ":6.3f" (Member NONE) "cpu" 1 1 5 5)
           (AverageMeter.mk "Loss" ":.4e" (Member NONE) "cpu" 2 2 10 5)
           (AverageMeter.mk "Acc@1" ":6.2f" (Member AVERAGE) "cpu" 0 0 0 5)
           (AverageMeter.mk "Acc@5" ":6.2f" (Member AVERAGE) "cpu" 1 1 5 5));
    reflexivity.
Defined.

(** ** The positional embedding: values *)

(** The embedding in closed form: its size and the row of each cell. *)
Lemma posemb_sincos_2d_cells (h w dim : Z) :
  0 <= h -> 0 <= w -> 0 <= dim -> dim mod 4 = 0 ->
  exists pe : matrix,
    posemb_sincos_2d h w dim 10000 = Ok pe
    /\ length pe = Z.to_nat (h * w)
    /\ (forall y x : Z,
          0 <= y < h -> 0 <= x < w ->
          pe !! Z.to_nat (y * w + x)
          = Some (map sin (scaled_omega dim x) ++ map cos (scaled_omega dim x)
                  ++ map sin (scaled_omega dim y)
                  ++ map cos (scaled_omega dim y))%list).
Proof.
  intros Hh Hw Hdim Hmod.
  unfold posemb_sincos_2d.
  rewrite (arange_nonneg h Hh), (arange_nonneg w Hw). cbn [bind].
  unfold py_mod. cbn [Z.eqb]. rewrite Hmod. cbn [bind Z.eqb torch_assert].
  assert (Hq : 0 <= dim / 4) by (apply Z.div_pos; lia).
  rewrite (arange_nonneg _ Hq). cbn [bind].
  rewrite (omega_code_spec dim 10000 eq_refl).
  set (H := Z.to_nat h). set (W := Z.to_nat w).
  set (omega := map (omega_spec dim) (seq 0 (Z.to_nat (dim / 4)))).
  pose proof (fun i j => lookup_flat_grid H W i j) as G.
  destruct (length_flat_grid H W) as [Ly Lx].
  destruct (meshgrid_ij (map Z.of_nat (seq 0 H)) (map Z.of_nat (seq 0 W)))
    as [gy gx] eqn:Eg.
  cbn [fst snd] in G, Ly, Lx.
  eexists. split; [reflexivity|].
  assert (HW : Z.to_nat (h * w) = (H * W)%nat) by (unfold H, W; lia).
  split.
  - rewrite HW. apply cat1_four_length;
      unfold outer; now rewrite !length_map.
  - intros y x Hy Hx.
    specialize (G (Z.to_nat y) (Z.to_nat x) ltac:(unfold H; lia) ltac:(unfold W; lia)).
    destruct G as (Gy & Gx).
    rewrite !Z2Nat.id in Gy, Gx by lia.
    replace (Z.to_nat (y * w + x)) with (Z.to_nat y * W + Z.to_nat x)%nat
      by (unfold W; nia).
    rewrite <- (outer_omega_spec dim x), <- (outer_omega_spec dim y).
    fold omega.
    apply cat1_four_lookup; rewrite lookup_map;
      first [rewrite (outer_lookup _ _ _ _ Gx) | rewrite (outer_lookup _ _ _ _ Gy)];
      reflexivity.
Qed.

Lemma Forall_zip_with_app {A : Type} (P : A -> Prop) (a b : list (list A)) :
  Forall (Forall P) a -> Forall (Forall P) b ->
  Forall (Forall P) (zip_with (@app A) a b).
Proof.
  intros Ha. revert b. induction Ha as [|ra a Hra _ IH]; intros b Hb;
    [constructor|].
  destruct Hb as [|rb b Hrb Hb]; [constructor|].
  cbn [zip_with]. constructor; [now apply Forall_app | now apply IH].
Qed.

Lemma Forall_map_map {A B : Type} (P : B -> Prop) (f : A -> B)
    (m : list (list A)) :
  (forall a : A, P (f a)) -> Forall (Forall P) (map (map f) m).
Proof.
  intros H. apply List.Forall_forall. intros r Hr.
  apply in_map_iff in Hr as (r0 & <- & _).
  apply List.Forall_forall. intros v Hv.
  apply in_map_iff in Hv as (a & <- & _). apply H.
Qed.

(** X15. Every entry of the table that [posemb_sincos_2d] returns lies
    between -1 and 1 (for an embedding dimension other than 4, where the
    frequency is the quotient [0 / 0]). *)
Theorem posemb_sincos_2d_bounded (h w dim temperature : Z) (pe : matrix) :
  dim <> 4 -> 0 < temperature ->
  posemb_sincos_2d h w dim temperature = Ok pe ->
  forall (i j : nat) (row : vector) (v : R),
    pe !! i = Some row -> row !! j = Some v -> (-1 <= v <= 1)%R.
Proof.
  intros _ _ H.
  assert (F : Forall (Forall (fun v : R => (-1 <= v <= 1)%R)) pe).
  { unfold posemb_sincos_2d in H.
    destruct (arange h); cbn [bind] in H; [|discriminate].
    destruct (arange w); cbn [bind] in H; [|discriminate].
    destruct (meshgrid_ij _ _) as [gy gx].
    destruct (py_mod dim 4); cbn [bind] in H; [|discriminate].
    destruct (torch_assert _ _); cbn [bind] in H; [|discriminate].
    destruct (arange (dim / 4)); cbn [bind] in H; [|discriminate].
    injection H as <-. cbn [cat1 fold_left].
    repeat apply Forall_zip_with_app; apply Forall_map_map;
      first [apply SIN_bound | apply COS_bound]. }
  intros i j row v Hi Hj.
  apply list_elem_of_lookup_2, list_elem_of_In in Hi, Hj.
  rewrite List.Forall_forall in F. specialize (F row Hi).
  rewrite List.Forall_forall in F. exact (F v Hj).
Qed.

Lemma posemb_sincos_2d_bounded_witness :
  exists pe : matrix,
    posemb_sincos_2d 14 14 384 10000 = Ok pe
    /\ forall (i j : nat) (row : vector) (v : R),
         pe !! i = Some row -> row !! j = Some v -> (-1 <= v <= 1)%R.
Proof.
  destruct (posemb_sincos_2d_returns 14 14 384 10000) as [pe H];
    [lia | lia | lia | reflexivity |].
  exists pe. split; [exact H|].
  apply (posemb_sincos_2d_bounded 14 14 384 10000 pe); [lia | lia | exact H].
Defined.

Lemma map_const_repeat {A B : Type} (f : A -> B) (c : B) (l : list A) :
  (forall a : A, f a = c) -> map f l = repeat c (length l).
Proof.
  intros H. induction l as [|a l IH]; cbn; [reflexivity|].
  now rewrite H, IH.
Qed.

Lemma scaled_omega_zero (dim : Z) :
  map sin (scaled_omega dim 0) = zeros (Z.to_nat (dim / 4))
  /\ map cos (scaled_omega dim 0) = ones (Z.to_nat (dim / 4)).
Proof.
  unfold scaled_omega, zeros, ones. rewrite !map_map. split.
  - rewrite (map_const_repeat _ 0%R); [now rewrite length_seq|].
    intros k. rewrite Rmult_0_l. apply sin_0.
  - rewrite (map_const_repeat _ 1%R); [now rewrite length_seq|].
    intros k. rewrite Rmult_0_l. apply cos_0.
Qed.

(** X16. In the table of [posemb_sincos_2d] (embedding dimension a
    multiple of 4 other than 4, [q = dim / 4]) the cells of the first column
    have [q] zeros and [q] ones as their first half, and the cells of the
    first row have [q] zeros and [q] ones as their second half: the
    coordinate 0 contributes [sin 0] and [cos 0] at every frequency. *)
Theorem posemb_sincos_2d_axes (h w dim : Z) (pe : matrix) :
  0 <= dim -> dim mod 4 = 0 -> dim <> 4 ->
  posemb_sincos_2d h w dim 10000 = Ok pe ->
  (forall y : Z,
     0 <= y < h -> 0 < w ->
     pe !! Z.to_nat (y * w)
     = Some (zeros (Z.to_nat (dim / 4)) ++ ones (Z.to_nat (dim / 4))
             ++ map sin (scaled_omega dim y)
             ++ map cos (scaled_omega dim y))%list)
  /\ (forall x : Z,
        0 <= x < w -> 0 < h ->
        pe !! Z.to_nat x
        = Some (map sin (scaled_omega dim x) ++ map cos (scaled_omega dim x)
                ++ zeros (Z.to_nat (dim / 4))
                ++ ones (Z.to_nat (dim / 4)))%list).
Proof.
  intros Hdim Hmod _ H.
  destruct (scaled_omega_zero dim) as [S0 C0].
  split.
  - intros y Hy Hw.
    destruct (posemb_sincos_2d_cells h w dim) as (pe' & E & _ & Hc);
      try lia.
    rewrite E in H. injection H as <-.
    specialize (Hc y 0 Hy ltac:(lia)). rewrite Z.add_0_r in Hc.
    now rewrite Hc, S0, C0.
  - intros x Hx Hh.
    destruct (posemb_sincos_2d_cells h w dim) as (pe' & E & _ & Hc);
      try lia.
    rewrite E in H. injection H as <-.
    specialize (Hc 0 x ltac:(lia) Hx). rewrite Z.mul_0_l, Z.add_0_l in Hc.
    now rewrite Hc, S0, C0.
Qed.

Lemma posemb_sincos_2d_axes_witness :
  exists pe : matrix,
    posemb_sincos_2d 14 14 384 10000 = Ok pe
    /\ pe !! Z.to_nat (3 * 14)
       = Some (zeros (Z.to_nat (384 / 4)) ++ ones (Z.to_nat (384 / 4))
               ++ map sin (scaled_omega 384 3)
               ++ map cos (scaled_omega 384 3))%list.
Proof.
  destruct (posemb_sincos_2d_returns 14 14 384 10000) as [pe H];
    [lia | lia | lia | reflexivity |].
  exists pe. split; [exact H|].
  apply (proj1 (posemb_sincos_2d_axes 14 14 384 pe ltac:(lia) eq_refl
                  ltac:(lia) H)); lia.
Defined.

Lemma scaled_omega_lookup (dim v : Z) (k : nat) :
  (k < Z.to_nat (dim / 4))%nat ->
  scaled_omega dim v !! k = Some (IZR v * omega_spec dim k)%R.
Proof.
  intros H. unfold scaled_omega.
  rewrite lookup_map, lookup_seq_lt by exact H. reflexivity.
Qed.

Lemma omega_spec_ends (dim : Z) :
  8 <= dim ->
  omega_spec dim 0 = 1%R
  /\ omega_spec dim (Z.to_nat (dim / 4) - 1) = (1 / 10000)%R.
Proof.
  intros H. unfold omega_spec.
  assert (Hq : 2 <= dim / 4) by (apply Z.div_le_lower_bound; lia).
  split.
  - change (INR 0) with 0%R. unfold Rdiv at 2. rewrite Rmult_0_l.
    rewrite Rpower_O by lra. lra.
  - replace (INR (Z.to_nat (dim / 4) - 1)) with (IZR (dim / 4 - 1)).
    + unfold Rdiv at 2. rewrite Rinv_r.
      * rewrite Rpower_1 by lra. reflexivity.
      * apply not_0_IZR. lia.
    + rewrite INR_IZR_INZ. f_equal. lia.
Qed.

Lemma lookup_four_parts {A : Type} (a b c d : list A) (q k : nat) :
  length a = q -> length b = q -> length c = q -> (k < q)%nat ->
  (a ++ b ++ c ++ d)%list !! k = a !! k
  /\ (a ++ b ++ c ++ d)%list !! (q + k)%nat = b !! k
  /\ (a ++ b ++ c ++ d)%list !! (q + q + k)%nat = c !! k
  /\ (a ++ b ++ c ++ d)%list !! (q + q + q + k)%nat = d !! k.
Proof.
  intros Ha Hb Hc Hk. repeat split.
  - apply lookup_app_l. lia.
  - rewrite lookup_app_r by lia. rewrite Ha.
    replace (q + k - q)%nat with k by lia. apply lookup_app_l. lia.
  - rewrite lookup_app_r by lia. rewrite Ha.
    replace (q + q + k - q)%nat with (q + k)%nat by lia.
    rewrite lookup_app_r by lia. rewrite Hb.
    replace (q + k - q)%nat with k by lia. apply lookup_app_l. lia.
  - rewrite lookup_app_r by lia. rewrite Ha.
    replace (q + q + q + k - q)%nat with (q + q + k)%nat by lia.
    rewrite lookup_app_r by lia. rewrite Hb.
    replace (q + q + k - q)%nat with (q + k)%nat by lia.
    rewrite lookup_app_r by lia. rewrite Hc. f_equal. lia.
Qed.

(** X17. In the table of [posemb_sincos_2d] with an embedding dimension
    [dim >= 8] divisible by 4 and [q = dim / 4], the frequencies run from 1
    to 1/10000: the row of the cell at row [y], column [x] holds [sin x] at
    position 0, [cos x] at position [q], [sin y] at position [2 q], [cos y]
    at position [3 q], and [sin (x / 10000)] and [cos (y / 10000)] at the
    last positions [q - 1] and [4 q - 1] of the first and the last
    quarter. *)
Theorem posemb_sincos_2d_frequencies (h w dim y x : Z) (pe : matrix) :
  8 <= dim -> dim mod 4 = 0 -> 0 <= y < h -> 0 <= x < w ->
  posemb_sincos_2d h w dim 10000 = Ok pe ->
  exists row : vector,
    pe !! Z.to_nat (y * w + x) = Some row
    /\ row !! 0%nat = Some (sin (IZR x))
    /\ row !! Z.to_nat (dim / 4) = Some (cos (IZR x))
    /\ row !! Z.to_nat (2 * (dim / 4)) = Some (sin (IZR y))
    /\ row !! Z.to_nat (3 * (dim / 4)) = Some (cos (IZR y))
    /\ row !! Z.to_nat (dim / 4 - 1) = Some (sin (IZR x / 10000))
    /\ row !! Z.to_nat (dim - 1) = Some (cos (IZR y / 10000)).
Proof.
  intros Hdim Hmod Hy Hx H.
  destruct (posemb_sincos_2d_cells h w dim) as (pe' & E & _ & Hc); try lia.
  rewrite E in H. injection H as <-.
  eexists. split; [apply (Hc y x Hy Hx)|].
  assert (Hq : 2 <= dim / 4) by (apply Z.div_le_lower_bound; lia).
  assert (Hd : dim = 4 * (dim / 4))
    by (pose proof (Z.div_mod dim 4 ltac:(lia)); lia).
  set (q := Z.to_nat (dim / 4)) in *.
  assert (Lq : forall (f : R -> R) v, length (map f (scaled_omega dim v)) = q)
    by (intros f v; rewrite length_map; apply scaled_omega_length).
  destruct (omega_spec_ends dim Hdim) as [O0 O1]. fold q in O1.
  assert (V0 : forall (f : R -> R) v,
             map f (scaled_omega dim v) !! 0%nat = Some (f (IZR v))).
  { intros f v. rewrite lookup_map, scaled_omega_lookup by (fold q; lia).
    rewrite O0. cbn [option_map]. do 2 f_equal. lra. }
  assert (V1 : forall (f : R -> R) v,
             map f (scaled_omega dim v) !! (q - 1)%nat
             = Some (f (IZR v / 10000)%R)).
  { intros f v. rewrite lookup_map, scaled_omega_lookup by (fold q; lia).
    rewrite O1. cbn [option_map]. do 2 f_equal. lra. }
  destruct (lookup_four_parts
              (map sin (scaled_omega dim x)) (map cos (scaled_omega dim x))
              (map sin (scaled_omega dim y)) (map cos (scaled_omega dim y))
              q 0 (Lq _ _) (Lq _ _) (Lq _ _) ltac:(lia)) as (A0 & B0 & C0 & D0).
  destruct (lookup_four_parts
              (map sin (scaled_omega dim x)) (map cos (scaled_omega dim x))
              (map sin (scaled_omega dim y)) (map cos (scaled_omega dim y))
              q (q - 1) (Lq _ _) (Lq _ _) (Lq _ _) ltac:(lia))
    as (A1 & _ & _ & D1).
  rewrite (V0 sin x) in A0. rewrite (V0 cos x) in B0.
  rewrite (V0 sin y) in C0. rewrite (V0 cos y) in D0.
  rewrite (V1 sin x) in A1. rewrite (V1 cos y) in D1.
  rewrite Nat.add_0_r in B0, C0, D0.
  replace (Z.to_nat (2 * (dim / 4))) with (q + q)%nat by (unfold q; lia).
  replace (Z.to_nat (3 * (dim / 4))) with (q + q + q)%nat by (unfold q; lia).
  replace (Z.to_nat (dim / 4 - 1)) with (q - 1)%nat by (unfold q; lia).
  replace (Z.to_nat (dim - 1)) with (q + q + q + (q - 1))%nat
    by (unfold q; lia).
  split; [exact A0|]. split; [exact B0|]. split; [exact C0|].
  split; [exact D0|]. split; [exact A1 | exact D1].
Qed.

Lemma posemb_sincos_2d_frequencies_witness :
  exists (pe : matrix) (row : vector),
    posemb_sincos_2d 14 14 384 10000 = Ok pe
    /\ pe !! Z.to_nat (3 * 14 + 5) = Some row
    /\ row !! 0%nat = Some (sin (IZR 5))
    /\ row !! Z.to_nat (384 / 4) = Some (cos (IZR 5))
    /\ row !! Z.to_nat (2 * (384 / 4)) = Some (sin (IZR 3))
    /\ row !! Z.to_nat (3 * (384 / 4)) = Some (cos (IZR 3))
    /\ row !! Z.to_nat (384 / 4 - 1) = Some (sin (IZR 5 / 10000))
    /\ row !! Z.to_nat (384 - 1) = Some (cos (IZR 3 / 10000)).
Proof.
  destruct (posemb_sincos_2d_returns 14 14 384 10000) as [pe H];
    [lia | lia | lia | reflexivity |].
  destruct (posemb_sincos_2d_frequencies 14 14 384 3 5 pe) as [row Hrow];
    [lia | reflexivity | lia | lia | exact H |].
  exists pe, row. split; [exact H | exact Hrow].
Defined.

(** ** The model: what construction fixes *)

(** The fields of a constructed model, statement by statement. *)
Lemma init_fields (env : init_env) (a : ctor_args)
    (m : SimpleVisionTransformer.t) :
  SimpleVisionTransformer.init env a = Ok m ->
  arg_patch_size a <> 0
  /\ arg_image_size a mod arg_patch_size a = 0
  /\ SimpleVisionTransformer.image_size m = arg_image_size a
  /\ SimpleVisionTransformer.patch_size m = arg_patch_size a
  /\ SimpleVisionTransformer.hidden_dim m = arg_hidden_dim a
  /\ SimpleVisionTransformer.pool_type m = arg_pool_type a
  /\ SimpleVisionTransformer.register m
     = SimpleVisionTransformer.effective_register (arg_register a)
         (arg_pool_type a)
  /\ SimpleVisionTransformer.seq_length m
     = arg_image_size a / arg_patch_size a
       * (arg_image_size a / arg_patch_size a)
  /\ SimpleVisionTransformer.conv_proj m
     = {| in_channels := 3;
          out_channels := Z.to_nat (arg_hidden_dim a);
          kernel_size := Z.to_nat (arg_patch_size a);
          conv_weight := draw_conv_weight env;
          conv_bias := fun _ => 0%R |}
  /\ (if SimpleVisionTransformer.effective_register (arg_register a)
           (arg_pool_type a) =? 1
      then Ok (Some (zeros2 1 (Z.to_nat (arg_hidden_dim a))))
      else if 1 <? SimpleVisionTransformer.effective_register (arg_register a)
                     (arg_pool_type a)
      then e <- SimpleVisionTransformer._learned_embeddings env "reg"
                  (arg_hidden_dim a)
                  (SimpleVisionTransformer.effective_register (arg_register a)
                     (arg_pool_type a)) ;; Ok (Some e)
      else Ok None) = Ok (SimpleVisionTransformer.reg m)
  /\ (if String.eqb (arg_posemb a) "sincos2d"
      then pe <- posemb_sincos_2d (arg_image_size a / arg_patch_size a)
                   (arg_image_size a / arg_patch_size a)
                   (arg_hidden_dim a) 10000 ;; Ok (Some pe)
      else if String.eqb (arg_posemb a) "learn"
      then e <- SimpleVisionTransformer._learned_embeddings env
                  "pos_embedding" (arg_hidden_dim a)
                  (arg_image_size a / arg_patch_size a
                   * (arg_image_size a / arg_patch_size a)) ;; Ok (Some e)
      else Ok None) = Ok (SimpleVisionTransformer.pos_embedding m)
  /\ Encoder_init env (arg_num_layers a) (arg_num_heads a) (arg_hidden_dim a)
       (arg_use_flash a) = Ok (SimpleVisionTransformer.encoder m)
  /\ exists hd : list (string * layer),
       match get_layer "pre_logits"
               match arg_representation_size a with
               | None =>
                   [("head", Linear_init env "head" (arg_hidden_dim a)
                               (arg_num_classes a))]
               | Some rs =>
                   [("pre_logits",
                     Linear_init env "pre_logits" (arg_hidden_dim a) rs);
                    ("act", Tanh);
                    ("head", Linear_init env "head" rs (arg_num_classes a))]
               end
       with
       | Some (Linear weight bias as l) =>
           l' <- jax_lecun_normal env "pre_logits" l (arg_hidden_dim a) ;;
           Ok (update_layer "pre_logits" (fun _ => l')
                 match arg_representation_size a with
                 | None =>
                     [("head", Linear_init env "head" (arg_hidden_dim a)
                                 (arg_num_classes a))]
                 | Some rs =>
                     [("pre_logits",
                       Linear_init env "pre_logits" (arg_hidden_dim a) rs);
                      ("act", Tanh);
                      ("head", Linear_init env "head" rs (arg_num_classes a))]
                 end)
       | _ =>
           Ok match arg_representation_size a with
              | None =>
                  [("head", Linear_init env "head" (arg_hidden_dim a)
                              (arg_num_classes a))]
              | Some rs =>
                  [("pre_logits",
                    Linear_init env "pre_logits" (arg_hidden_dim a) rs);
                   ("act", Tanh);
                   ("head", Linear_init env "head" rs (arg_num_classes a))]
              end
       end = Ok hd
       /\ SimpleVisionTransformer.heads m
          = update_layer "head"
              (fun l => init_zeros_bias (init_zeros_weight l)) hd.
Proof.
  unfold SimpleVisionTransformer.init. intros H.
  unfold py_mod at 1 in H.
  destruct (arg_patch_size a =? 0) eqn:Ep; [discriminate|].
  cbn [bind] in H.
  destruct (arg_image_size a mod arg_patch_size a =? 0) eqn:Em;
    cbn [torch_assert bind] in H; [|discriminate].
  split; [lia|]. split; [lia|].
  match type of H with bind ?r _ = _ => destruct r as [rg|] eqn:Er end;
    cbn [bind] in H; [|discriminate].
  unfold py_floordiv at 1 in H. rewrite Ep in H. cbn [bind] in H.
  match type of H with bind ?r _ = _ => destruct r as [pe|] eqn:Epe end;
    cbn [bind] in H; [|discriminate].
  match type of H with bind ?r _ = _ => destruct r as [enc|] eqn:Eenc end;
    cbn [bind] in H; [|discriminate].
  unfold py_floordiv at 1 in H. cbn [Z.eqb bind] in H.
  match type of H with bind ?r _ = _ => destruct r as [[]|] eqn:Efan end;
    cbn [bind] in H; [|discriminate].
  match type of H with bind ?r _ = _ => destruct r as [hd|] eqn:Ehd end;
    cbn [bind] in H; [|discriminate].
  injection H as <-.
  cbn [SimpleVisionTransformer.image_size SimpleVisionTransformer.patch_size
       SimpleVisionTransformer.hidden_dim SimpleVisionTransformer.pool_type
       SimpleVisionTransformer.register SimpleVisionTransformer.seq_length
       SimpleVisionTransformer.conv_proj SimpleVisionTransformer.reg
       SimpleVisionTransformer.pos_embedding SimpleVisionTransformer.encoder
       SimpleVisionTransformer.heads].
  repeat (split; [reflexivity|]).
  exists hd. split; reflexivity.
Qed.

Lemma Forall_length_zip_with_app {A : Type} (n1 n2 : nat) (a b : list (list A)) :
  Forall (fun r => length r = n1) a -> Forall (fun r => length r = n2) b ->
  Forall (fun r => length r = (n1 + n2)%nat) (zip_with (@app A) a b).
Proof.
  intros Ha. revert b. induction Ha as [|ra a Hra _ IH]; intros b Hb;
    [constructor|].
  destruct Hb as [|rb b Hrb Hb]; [constructor|].
  cbn [zip_with]. constructor; [|now apply IH].
  rewrite length_app. lia.
Qed.

Lemma Forall_length_map_map {A B C : Type} (f : B -> C) (g : A -> list B)
    (n : nat) (l : list A) :
  (forall a : A, length (g a) = n) ->
  Forall (fun r => length r = n) (map (map f) (map g l)).
Proof.
  intros H. apply List.Forall_forall. intros r Hr.
  apply in_map_iff in Hr as (r0 & <- & Hr0).
  apply in_map_iff in Hr0 as (a0 & <- & _).
  rewrite length_map. apply H.
Qed.

(** The shape of the table, from the fact that the function returned. *)
Lemma posemb_sincos_2d_shape (h w dim : Z) (pe : matrix) :
  posemb_sincos_2d h w dim 10000 = Ok pe ->
  length pe = Z.to_nat (h * w)
  /\ Forall (fun row => length row = Z.to_nat dim) pe.
Proof.
  intros H.
  assert (Hh : 0 <= h).
  { unfold posemb_sincos_2d, arange in H.
    destruct (h <? 0) eqn:E; [discriminate H | lia]. }
  assert (Hw : 0 <= w).
  { unfold posemb_sincos_2d in H. rewrite (arange_nonneg h Hh) in H.
    cbn [bind] in H. unfold arange in H.
    destruct (w <? 0) eqn:E; [discriminate H | lia]. }
  assert (Hm : dim mod 4 = 0).
  { destruct (Z.eq_dec (dim mod 4) 0) as [E|E]; [exact E|].
    rewrite (posemb_sincos_2d_indivisible h w dim 10000 Hh Hw E) in H.
    discriminate H. }
  assert (Hd : 0 <= dim).
  { unfold posemb_sincos_2d in H.
    rewrite (arange_nonneg h Hh), (arange_nonneg w Hw) in H. cbn [bind] in H.
    destruct (meshgrid_ij _ _) as [gy gx].
    unfold py_mod in H. cbn [Z.eqb bind] in H. rewrite Hm in H.
    cbn [Z.eqb torch_assert bind] in H. unfold arange in H.
    destruct (dim / 4 <? 0) eqn:E; [discriminate H|].
    pose proof (Z.div_mod dim 4 ltac:(lia)). lia. }
  split.
  - destruct (posemb_sincos_2d_cells h w dim Hh Hw Hd Hm) as (pe' & E & L & _).
    rewrite E in H. injection H as <-. exact L.
  - unfold posemb_sincos_2d in H.
    rewrite (arange_nonneg h Hh), (arange_nonneg w Hw) in H. cbn [bind] in H.
    destruct (meshgrid_ij _ _) as [gy gx].
    unfold py_mod in H. cbn [Z.eqb bind] in H. rewrite Hm in H.
    cbn [Z.eqb torch_assert bind] in H.
    rewrite arange_nonneg in H by (apply Z.div_pos; lia). cbn [bind] in H.
    injection H as <-. cbn [cat1 fold_left].
    set (q := Z.to_nat (dim / 4)).
    replace (Z.to_nat dim) with (q + q + q + q)%nat
      by (unfold q; pose proof (Z.div_mod dim 4 ltac:(lia)); lia).
    repeat apply Forall_length_zip_with_app; unfold outer;
      apply Forall_length_map_map; intros v;
      now rewrite !length_map, length_seq.
Qed.

(** X18. A constructed model has [seq_length = (image_size //
    patch_size)^2], and its position table, when it has one (for [sincos2d]
    and for [learn], and for no other value of [posemb]), has exactly
    [seq_length] rows of [hidden_dim] entries: one row per patch token. *)
Theorem init_position_table (env : init_env) (a : ctor_args)
    (m : SimpleVisionTransformer.t) :
  SimpleVisionTransformer.init env a = Ok m ->
  SimpleVisionTransformer.seq_length m
  = arg_image_size a / arg_patch_size a * (arg_image_size a / arg_patch_size a)
  /\ match SimpleVisionTransformer.pos_embedding m with
     | Some pe =>
         (arg_posemb a = "sincos2d" \/ arg_posemb a = "learn")
         /\ length pe = Z.to_nat (SimpleVisionTransformer.seq_length m)
         /\ Forall (fun row =>
                      length row
                      = Z.to_nat (SimpleVisionTransformer.hidden_dim m)) pe
     | None => arg_posemb a <> "sincos2d" /\ arg_posemb a <> "learn"
     end.
Proof.
  intros H.
  destruct (init_fields env a m H)
    as (_ & _ & _ & _ & Hh & _ & _ & Hs & _ & _ & Hpe & _).
  split; [exact Hs|]. rewrite Hs, Hh.
  destruct (String.eqb (arg_posemb a) "sincos2d") eqn:E1.
  - apply String.eqb_eq in E1.
    destruct (posemb_sincos_2d _ _ _ _) as [pe|] eqn:Ep; cbn [bind] in Hpe;
      [|discriminate Hpe].
    injection Hpe as <-. split; [now left|].
    now apply posemb_sincos_2d_shape.
  - apply String.eqb_neq in E1.
    destruct (String.eqb (arg_posemb a) "learn") eqn:E2.
    + apply String.eqb_eq in E2.
      unfold SimpleVisionTransformer._learned_embeddings in Hpe.
      destruct (math_sqrt_ratio 1 (arg_hidden_dim a)); cbn [bind] in Hpe;
        [|discriminate Hpe].
      injection Hpe as <-. split; [now right|]. split.
      * apply length_tabulate.
      * apply List.Forall_forall. intros row Hr. unfold tabulate in Hr.
        apply in_map_iff in Hr as (i & <- & _). apply length_tabulate.
    + apply String.eqb_neq in E2. injection Hpe as <-. now split.
Qed.

Lemma init_position_table_witness :
  exists m : SimpleVisionTransformer.t,
    SimpleVisionTransformer.init example_env example_args = Ok m
    /\ SimpleVisionTransformer.seq_length m = 224 / 16 * (224 / 16)
    /\ match SimpleVisionTransformer.pos_embedding m with
       | Some pe =>
           (arg_posemb example_args = "sincos2d"
            \/ arg_posemb example_args = "learn")
           /\ length pe = Z.to_nat (SimpleVisionTransformer.seq_length m)
           /\ Forall (fun row =>
                        length row
                        = Z.to_nat (SimpleVisionTransformer.hidden_dim m)) pe
       | None => arg_posemb example_args <> "sincos2d"
                 /\ arg_posemb example_args <> "learn"
       end.
Proof.
  destruct (init_outcome example_env example_args example_args_in_domain)
    as (_ & _ & H).
  destruct H as [m Hm]; [reflexivity | reflexivity |].
  exists m. split; [exact Hm|].
  apply (init_position_table example_env example_args m Hm).
Defined.

(** ** The model: patch tokens *)

Lemma Rsum_map_ext_seq (f g : nat -> R) (n : nat) :
  (forall i : nat, (i < n)%nat -> f i = g i) ->
  Rsum (map f (seq 0 n)) = Rsum (map g (seq 0 n)).
Proof.
  intros H. f_equal. apply map_ext_in. intros i Hi.
  apply in_seq in Hi. apply H. lia.
Qed.

(** The value of the convolution at one output cell only reads the pixels
    of that cell's patch. *)
Lemma conv2d_local (cv : Conv2d) (x x' : images) (b o i j : nat) :
  (forall ch u v : nat,
     (ch < in_channels cv)%nat -> (u < kernel_size cv)%nat ->
     (v < kernel_size cv)%nat ->
     pixel x b ch (i * kernel_size cv + u) (j * kernel_size cv + v)
     = pixel x' b ch (i * kernel_size cv + u) (j * kernel_size cv + v)) ->
  conv2d cv x b o i j = conv2d cv x' b o i j.
Proof.
  intros H. unfold conv2d. f_equal.
  apply Rsum_map_ext_seq. intros ch Hch.
  apply Rsum_map_ext_seq. intros u Hu.
  apply Rsum_map_ext_seq. intros v Hv.
  now rewrite H.
Qed.

Lemma lookup_tabulate {A : Type} (n : nat) (f : nat -> A) (i : nat) :
  (i < n)%nat -> tabulate n f !! i = Some (f i).
Proof.
  intros H. unfold tabulate. rewrite lookup_map, lookup_seq_lt by exact H.
  reflexivity.
Qed.

(** X19. For a batch of [n] three-channel images of the model's size, a
    positive patch size no larger than the image, and the patch convolution
    as the constructor builds it (three input channels, the patch size as
    kernel and stride, [hidden_dim] output channels), [_process_input]
    returns [n] entries of [(image_size // patch_size)^2] tokens of
    [hidden_dim] numbers each; the token at position [i * n_w + j] of image
    [b] is the output of the patch convolution at cell [(i, j)] (row-major
    order), and it only depends on the pixels of that patch of image [b]: a
    second batch that agrees with the first on those pixels gets the same
    token. *)
Theorem process_input_tokens (m : SimpleVisionTransformer.t) (x : images)
    (n : Z) :
  shape x = (n, 3, SimpleVisionTransformer.image_size m,
             SimpleVisionTransformer.image_size m) ->
  0 <= n ->
  0 < SimpleVisionTransformer.patch_size m
    <= SimpleVisionTransformer.image_size m ->
  in_channels (SimpleVisionTransformer.conv_proj m) = 3%nat ->
  kernel_size (SimpleVisionTransformer.conv_proj m)
  = Z.to_nat (SimpleVisionTransformer.patch_size m) ->
  out_channels (SimpleVisionTransformer.conv_proj m)
  = Z.to_nat (SimpleVisionTransformer.hidden_dim m) ->
  let n_w := SimpleVisionTransformer.image_size m
             / SimpleVisionTransformer.patch_size m in
  let cv := SimpleVisionTransformer.conv_proj m in
  exists tokens : tensor3,
    SimpleVisionTransformer._process_input m x = Ok tokens
    /\ length tokens = Z.to_nat n
    /\ Forall (fun entry : matrix =>
                 length entry = Z.to_nat (n_w * n_w)
                 /\ Forall (fun tok : vector =>
                              length tok
                              = Z.to_nat (SimpleVisionTransformer.hidden_dim m))
                           entry) tokens
    /\ (forall b i j : nat,
          (b < Z.to_nat n)%nat -> (i < Z.to_nat n_w)%nat ->
          (j < Z.to_nat n_w)%nat ->
          exists (entry : matrix) (tok : vector),
            tokens !! b = Some entry
            /\ entry !! (i * Z.to_nat n_w + j)%nat = Some tok
            /\ tok = tabulate (Z.to_nat (SimpleVisionTransformer.hidden_dim m))
                       (fun o => conv2d cv x b o i j)
            /\ forall x' : images,
                 shape x' = shape x ->
                 (forall ch u v : nat,
                    (ch < in_channels cv)%nat -> (u < kernel_size cv)%nat ->
                    (v < kernel_size cv)%nat ->
                    pixel x b ch (i * kernel_size cv + u) (j * kernel_size cv + v)
                    = pixel x' b ch (i * kernel_size cv + u)
                        (j * kernel_size cv + v)) ->
                 exists (tokens' : tensor3) (entry' : matrix),
                   SimpleVisionTransformer._process_input m x' = Ok tokens'
                   /\ tokens' !! b = Some entry'
                   /\ entry' !! (i * Z.to_nat n_w + j)%nat = Some tok).
Proof.
  intros Hs Hn Hp _ _ _ n_w cv.
  assert (V : forall x0 : images, shape x0 = shape x ->
    SimpleVisionTransformer._process_input m x0
    = Ok (tabulate (Z.to_nat n) (fun b =>
            tabulate (Z.to_nat (n_w * n_w)) (fun tk =>
              tabulate (Z.to_nat (SimpleVisionTransformer.hidden_dim m))
                (fun o => conv2d cv x0 b o (Nat.div tk (Z.to_nat n_w))
                            (Nat.modulo tk (Z.to_nat n_w))))))).
  { intros x0 E. unfold SimpleVisionTransformer._process_input.
    rewrite E, Hs, !Z.eqb_refl. cbn [torch_assert bind].
    unfold py_floordiv.
    destruct (SimpleVisionTransformer.patch_size m =? 0) eqn:Ep; [lia|].
    reflexivity. }
  eexists. split; [apply (V x eq_refl)|]. split; [apply length_tabulate|].
  split.
  - apply List.Forall_forall. intros entry He. unfold tabulate at 1 in He.
    apply in_map_iff in He as (b & <- & _).
    split; [apply length_tabulate|].
    apply List.Forall_forall. intros tok Ht. unfold tabulate at 1 in Ht.
    apply in_map_iff in Ht as (tk & <- & _). apply length_tabulate.
  - intros b i j Hb Hi' Hj.
    assert (Htk : (i * Z.to_nat n_w + j < Z.to_nat (n_w * n_w))%nat) by nia.
    assert (Hdiv : Nat.div (i * Z.to_nat n_w + j) (Z.to_nat n_w) = i).
    { rewrite Nat.div_add_l by lia. rewrite Nat.div_small by lia. lia. }
    assert (Hmod : Nat.modulo (i * Z.to_nat n_w + j) (Z.to_nat n_w) = j).
    { rewrite Nat.add_comm, Nat.Div0.mod_add. apply Nat.mod_small. lia. }
    eexists _, _. split; [apply lookup_tabulate; exact Hb|].
    split; [apply lookup_tabulate; exact Htk|].
    rewrite Hdiv, Hmod. split; [reflexivity|].
    intros x' Es Hpix. eexists _, _. split; [apply (V x' Es)|].
    split; [apply lookup_tabulate; exact Hb|].
    rewrite lookup_tabulate by exact Htk. rewrite Hdiv, Hmod.
    f_equal. unfold tabulate. apply map_ext. intros o.
    symmetry. now apply conv2d_local.
Qed.

Lemma process_input_tokens_witness :
  exists tokens : tensor3,
    SimpleVisionTransformer._process_input tiny_model tiny_batch = Ok tokens
    /\ length tokens = Z.to_nat 1
    /\ Forall (fun entry : matrix =>
                 length entry = Z.to_nat (2 / 1 * (2 / 1))
                 /\ Forall (fun tok : vector => length tok = Z.to_nat 1) entry)
              tokens.
Proof.
  destruct (process_input_tokens tiny_model tiny_batch 1 eq_refl)
    as (tokens & H1 & H2 & H3 & _);
    [lia | cbn; lia | reflexivity | reflexivity | reflexivity |].
  exists tokens. split; [exact H1|]. split; [exact H2 | exact H3].
Defined.
(** ** The model: the loss of a fresh model *)

Lemma Rsum_repeat (c : R) (n : nat) : Rsum (repeat c n) = (INR n * c)%R.
Proof.
  induction n as [|n IH]; [cbn; lra|].
  cbn [repeat Rsum fold_right]. fold (Rsum (repeat c n)).
  rewrite IH, S_INR. lra.
Qed.

Lemma map_repeat_const {A B : Type} (f : A -> B) (a : A) (n : nat) :
  map f (repeat a n) = repeat (f a) n.
Proof. induction n as [|n IH]; cbn; [reflexivity | now rewrite IH]. Qed.

Lemma lookup_repeat_lt {A : Type} (a : A) (n i : nat) :
  (i < n)%nat -> repeat a n !! i = Some a.
Proof.
  revert i. induction n as [|n IH]; intros [|i] H; cbn; try lia;
    [reflexivity | apply IH; lia].
Qed.

(** Over rows of equal logits, each sample contributes the same term. *)
Lemma nll_picks_uniform (v : R) (C : nat) (t : list Z) :
  Forall (fun k => 0 <= k < Z.of_nat C) t ->
  nll_picks (repeat (repeat v C) (length t)) t
  = Some (repeat (- v)%R (length t)).
Proof.
  induction 1 as [|k t Hk _ IH]; [reflexivity|].
  cbn [length repeat nll_picks]. rewrite IH.
  destruct (k =? -100) eqn:E1; [lia|].
  destruct (k <? 0) eqn:E2; [lia|].
  rewrite lookup_repeat_lt by lia. reflexivity.
Qed.

(** The mean negative log-likelihood of all-zero logits is the logarithm of
    the number of classes. *)
Lemma real_loss_zero_logits (C n : nat) (t : list Z) :
  (0 < C)%nat -> (0 < n)%nat -> length t = n ->
  Forall (fun k => 0 <= k < Z.of_nat C) t ->
  exists l : R,
    real_nll_loss (real_log_softmax (repeat (zeros C) n)) t = Some l
    /\ l = ln (INR C).
Proof.
  intros HC Hn Hl Ht. unfold real_nll_loss, real_log_softmax.
  rewrite map_repeat_const. unfold zeros at 2.
  rewrite map_repeat_const. fold (zeros C). rewrite <- Hl.
  rewrite (nll_picks_uniform _ C t Ht). eexists. split; [reflexivity|].
  rewrite repeat_length, Rsum_repeat. unfold zeros.
  rewrite map_repeat_const, Rsum_repeat, exp_0, Hl.
  assert (INR n <> 0)%R by (apply not_0_INR; lia).
  field_simplify; [|assumption]. f_equal. lra.
Qed.

(** X20. A freshly constructed model (arguments in the constructor's
    domain, a positive image size, a non-negative register count, an
    embedding dimension other than 4 under [sincos2d], an encoder that
    keeps the tokens) gives, on any non-empty batch of RGB images of its
    size and any two lists of valid class indices, all-zero logits and the
    loss [ln(num_classes)], whatever the images, the targets and the mixing
    weight [lam] are (over the reals, with the library's [log_softmax] and
    mean-reduced [nll_loss]).  At the embedding dimension 4 the [sincos2d]
    table is NaN in torch, and the logits and the loss with it. *)
Theorem fresh_model_initial_loss (env : init_env) (a : ctor_args)
    (m : SimpleVisionTransformer.t) (x : images) (lam : R) (n : Z)
    (t1 t2 : list Z) :
  SimpleVisionTransformer.init env a = Ok m ->
  in_domain env a ->
  (arg_posemb a = "sincos2d" -> arg_hidden_dim a <> 4) ->
  0 < arg_image_size a -> 0 <= arg_register a ->
  keeps_tokens (draw_encoder env) ->
  shape x = (n, 3, arg_image_size a, arg_image_size a) ->
  0 < n -> 0 < arg_num_classes a ->
  length t1 = Z.to_nat n -> length t2 = Z.to_nat n ->
  Forall (fun k => 0 <= k < arg_num_classes a) t1 ->
  Forall (fun k => 0 <= k < arg_num_classes a) t2 ->
  exists loss : R,
    SimpleVisionTransformer.forward real_functional m x lam (Some t1) (Some t2)
    = Ok (LogitsLoss (repeat (zeros (Z.to_nat (arg_num_classes a)))
                             (Z.to_nat n)) loss)
    /\ loss = ln (IZR (arg_num_classes a)).
Proof.
  intros H D _ Hi Hr Hk Hs Hn HC L1 L2 T1 T2.
  pose proof (init_well_formed env a m H D Hi Hr Hk) as W.
  destruct (init_inv env a m H)
    as (_ & _ & rg & cv & pe & sl & hd & -> & _ & Hz).
  destruct (forward_returns real_functional _ x lam n 3 W Hs)
    as (features & Lf & Hf).
  cbn [SimpleVisionTransformer.heads] in Hf.
  rewrite (map_const_repeat _ (zeros (Z.to_nat (arg_num_classes a))) features Hz),
    Lf in Hf.
  rewrite (forward_targets _ _ _ _ _ Hf (Some t1) (Some t2)).
  unfold SimpleVisionTransformer._loss_fn.
  cbn [log_softmax nll_loss real_functional].
  assert (F : forall t : list Z,
            Forall (fun k => 0 <= k < arg_num_classes a) t ->
            Forall (fun k => 0 <= k < Z.of_nat (Z.to_nat (arg_num_classes a))) t).
  { intros t Ht. eapply Forall_impl; [exact Ht|]. cbn. intros k Hk'. lia. }
  destruct (real_loss_zero_logits (Z.to_nat (arg_num_classes a)) (Z.to_nat n) t1)
    as (l1 & E1 & V1); [lia | lia | exact L1 | now apply F |].
  destruct (real_loss_zero_logits (Z.to_nat (arg_num_classes a)) (Z.to_nat n) t2)
    as (l2 & E2 & V2); [lia | lia | exact L2 | now apply F |].
  rewrite E1, E2. cbn [bind]. eexists. split; [reflexivity|].
  rewrite V1, V2, INR_IZR_INZ, Z2Nat.id by lia. ring.
Qed.

Lemma fresh_model_initial_loss_witness :
  exists (m : SimpleVisionTransformer.t) (loss : R),
    SimpleVisionTransformer.init example_env example_args = Ok m
    /\ SimpleVisionTransformer.forward real_functional m
         {| shape := (2, 3, 224, 224); pixel := pixel example_batch |}
         (1 / 2)%R (Some [3; 999]) (Some [0; 7])
       = Ok (LogitsLoss (repeat (zeros (Z.to_nat 1000)) (Z.to_nat 2)) loss)
    /\ loss = ln (IZR 1000).
Proof.
  destruct (init_outcome example_env example_args example_args_in_domain)
    as (_ & _ & H).
  destruct H as [m Hm]; [reflexivity | reflexivity |].
  destruct (fresh_model_initial_loss example_env example_args m
              {| shape := (2, 3, 224, 224); pixel := pixel example_batch |}
              (1 / 2)%R 2 [3; 999] [0; 7] Hm example_args_in_domain)
    as (loss & Hl & Hv);
    try reflexivity; try (cbn; lia); try exact keeps_tokens_id.
  - repeat constructor; cbn; lia.
  - repeat constructor; cbn; lia.
  - exists m, loss. split; [exact Hm|]. split; [exact Hl | exact Hv].
Defined.
(** ** The model: edge cases of the register count and of construction *)

(** X21. A negative effective register count ([register] plus one under
    token pooling) is accepted by the constructor, which then creates no
    register tokens; every later [forward] on a batch of three-channel
    images of the right size (positive, as the patch size, so that the
    patch, which divides the image size, fits in the image and the patch
    convolution returns) raises [AttributeError]: the count is non-zero, so
    [forward] reads [self.reg], which was never set. *)
Theorem forward_negative_register (F : functional) (env : init_env)
    (a : ctor_args) (m : SimpleVisionTransformer.t) (x : images) (lam : R)
    (t1 t2 : option (list Z)) (n : Z) :
  SimpleVisionTransformer.init env a = Ok m ->
  SimpleVisionTransformer.effective_register (arg_register a) (arg_pool_type a)
  < 0 ->
  0 < arg_patch_size a -> 0 < arg_image_size a ->
  shape x = (n, 3, arg_image_size a, arg_image_size a) -> 0 <= n ->
  SimpleVisionTransformer.reg m = None
  /\ SimpleVisionTransformer.forward F m x lam t1 t2
     = Raise (AttributeError "reg").
Proof.
  intros H Hneg _ _ Hs _.
  destruct (init_fields env a m H)
    as (Hp & _ & Hi & Hps & _ & _ & Hr & _ & _ & Hreg & _).
  destruct (_ =? 1) eqn:E1 in Hreg; [lia|].
  destruct (1 <? _) eqn:E2 in Hreg; [lia|].
  injection Hreg as Hreg. split; [now symmetry|].
  rewrite <- Hi in Hs.
  destruct (process_input_outcome m x n 3 _ _ Hs) as (_ & _ & Hok).
  destruct (Hok eq_refl eq_refl) as [[Hz _]|(_ & tokens & Ht & _)];
    [congruence|].
  unfold SimpleVisionTransformer.forward. rewrite Ht. cbn [bind].
  rewrite Hr, <- Hreg.
  destruct (_ =? 0) eqn:E0; [lia | reflexivity].
Qed.

Lemma forward_negative_register_witness :
  exists m : SimpleVisionTransformer.t,
    SimpleVisionTransformer.init example_env
      {| arg_image_size := 224; arg_patch_size := 16; arg_num_layers := 12;
         arg_num_heads := 6; arg_hidden_dim := 384; arg_mlp_dim := 768;
         arg_dropout := 0%R; arg_attention_dropout := 0%R;
         arg_num_classes := 1000; arg_posemb := "sincos2d";
         arg_representation_size := None; arg_pool_type := "gap";
         arg_register := -1; arg_use_flash := true |} = Ok m
    /\ SimpleVisionTransformer.reg m = None
    /\ SimpleVisionTransformer.forward real_functional m example_batch 1%R
         None None
       = Raise (AttributeError "reg").
Proof.
  set (a := {| arg_image_size := 224; arg_patch_size := 16;
               arg_num_layers := 12; arg_num_heads := 6;
               arg_hidden_dim := 384; arg_mlp_dim := 768;
               arg_dropout := 0%R; arg_attention_dropout := 0%R;
               arg_num_classes := 1000; arg_posemb := "sincos2d";
               arg_representation_size := None; arg_pool_type := "gap";
               arg_register := -1; arg_use_flash := true |}).
  assert (D : in_domain example_env a).
  { unfold in_domain, a. cbn. repeat split; try lia; try lra; discriminate. }
  destruct (init_outcome example_env a D) as (_ & _ & H).
  destruct H as [m Hm]; [reflexivity | reflexivity |].
  exists m. split; [exact Hm|].
  apply (forward_negative_register real_functional example_env a m
           example_batch 1%R None None 2 Hm); first [reflexivity | cbn; lia].
Defined.

(** X22. With flash attention requested (the default) under a torch older
    than 2.0.0 and at least one encoder layer, construction fails with the
    assertion of [Attend], for arguments that pass everything before it: a
    positive patch size dividing a non-negative image size, a positive
    embedding dimension (a multiple of 4 under [sincos2d]), a non-zero
    number of heads and a dropout probability in [0, 1]. *)
Theorem init_flash_requires_torch_2 (env : init_env) (a : ctor_args) :
  torch_before_2 env = true -> arg_use_flash a = true ->
  0 < arg_num_layers a ->
  0 < arg_patch_size a -> 0 <= arg_image_size a ->
  arg_image_size a mod arg_patch_size a = 0 ->
  0 < arg_hidden_dim a -> arg_num_heads a <> 0 ->
  (0 <= arg_dropout a <= 1)%R ->
  (arg_posemb a = "sincos2d" -> arg_hidden_dim a mod 4 = 0) ->
  SimpleVisionTransformer.init env a
  = Raise (AssertionError
             "in order to use flash attention, you must be using pytorch 2.0 or above").
Proof.
  intros Ht Hf Hl Hp Hi Hm Hh Hn _ Hs.
  unfold SimpleVisionTransformer.init.
  assert (Ep : (arg_patch_size a =? 0) = false) by lia.
  unfold py_mod at 1. rewrite Ep. cbn [bind]. rewrite Hm.
  cbn [Z.eqb torch_assert bind].
  assert (Hreg : exists rg,
    (if SimpleVisionTransformer.effective_register (arg_register a)
          (arg_pool_type a) =? 1
     then Ok (Some (zeros2 1 (Z.to_nat (arg_hidden_dim a))))
     else if 1 <? SimpleVisionTransformer.effective_register (arg_register a)
                    (arg_pool_type a)
     then e <- SimpleVisionTransformer._learned_embeddings env "reg"
                 (arg_hidden_dim a)
                 (SimpleVisionTransformer.effective_register (arg_register a)
                    (arg_pool_type a)) ;; Ok (Some e)
     else Ok None) = Ok rg).
  { unfold SimpleVisionTransformer._learned_embeddings.
    rewrite math_sqrt_ratio_pos by lia. cbn [bind].
    destruct (_ =? 1); [eauto|]. destruct (1 <? _); eauto. }
  destruct Hreg as [rg Hreg]. rewrite Hreg. cbn [bind].
  unfold py_floordiv at 1. rewrite Ep. cbn [bind].
  assert (Hq : 0 <= arg_image_size a / arg_patch_size a)
    by (apply Z.div_pos; lia).
  assert (Hpos : exists pe,
    (if String.eqb (arg_posemb a) "sincos2d"
     then pe <- posemb_sincos_2d (arg_image_size a / arg_patch_size a)
                  (arg_image_size a / arg_patch_size a)
                  (arg_hidden_dim a) 10000 ;; Ok (Some pe)
     else if String.eqb (arg_posemb a) "learn"
     then e <- SimpleVisionTransformer._learned_embeddings env
                 "pos_embedding" (arg_hidden_dim a)
                 (arg_image_size a / arg_patch_size a
                  * (arg_image_size a / arg_patch_size a)) ;; Ok (Some e)
     else Ok None) = Ok pe).
  { destruct (String.eqb (arg_posemb a) "sincos2d") eqn:E1.
    - apply String.eqb_eq in E1.
      destruct (posemb_sincos_2d_returns _ _ (arg_hidden_dim a) 10000 Hq Hq)
        as [pe Hpe]; [lia | auto |].
      rewrite Hpe. cbn [bind]. eauto.
    - unfold SimpleVisionTransformer._learned_embeddings.
      rewrite math_sqrt_ratio_pos by lia. cbn [bind].
      destruct (String.eqb (arg_posemb a) "learn"); eauto. }
  destruct Hpos as [pe Hpos]. rewrite Hpos. cbn [bind].
  unfold Encoder_init.
  replace (Z.to_nat (arg_num_layers a))
    with (S (Z.to_nat (arg_num_layers a - 1))) by lia.
  cbn [Encoder_init_loop].
  unfold EncoderBlock_init, py_floordiv, Attend_init.
  destruct (arg_num_heads a =? 0) eqn:E; [lia|].
  cbn [bind]. rewrite Hf, Ht. reflexivity.
Qed.

Lemma init_flash_requires_torch_2_witness :
  SimpleVisionTransformer.init
    {| torch_before_2 := true; draw := draw example_env;
       draw_conv_weight := draw_conv_weight example_env;
       draw_encoder := draw_encoder example_env |} example_args
  = Raise (AssertionError
             "in order to use flash attention, you must be using pytorch 2.0 or above").
Proof.
  apply init_flash_requires_torch_2; cbn; try reflexivity; try lia; try lra.
Defined.

(** ** The driver's head options and the model's heads *)

(** X23. With the representation size as [main] normalises it, the
    model's head is a single linear layer named [head] without
    [--mlp-head], whatever [--representation-size] says; with [--mlp-head]
    it is [pre_logits], [act], [head], where [pre_logits] maps [hidden_dim]
    inputs to the given representation size, or to [hidden_dim] when none
    was given, and starts with a zero bias. *)
Theorem main_head_layout (env : init_env) (a : ctor_args)
    (m : SimpleVisionTransformer.t) (mlp_head : bool)
    (representation_size : option Z) :
  arg_representation_size a
  = main_representation_size mlp_head representation_size (arg_hidden_dim a) ->
  SimpleVisionTransformer.init env a = Ok m ->
  map fst (SimpleVisionTransformer.heads m)
  = (if mlp_head then ["pre_logits"; "act"; "head"] else ["head"])
  /\ (mlp_head = true ->
      exists (weight : matrix) (bias : vector),
        get_layer "pre_logits" (SimpleVisionTransformer.heads m)
        = Some (Linear weight bias)
        /\ length weight
           = Z.to_nat match representation_size with
                      | Some r => r
                      | None => arg_hidden_dim a
                      end
        /\ Forall (fun row => length row = Z.to_nat (arg_hidden_dim a)) weight
        /\ bias = zeros (length weight)
        /\ get_layer "act" (SimpleVisionTransformer.heads m) = Some Tanh).
Proof.
  intros Hrs H.
  destruct (init_fields env a m H) as (_ & _ & _ & _ & _ & _ & _ & _ & _ & _ & _
                                       & _ & hd & Hhd & ->).
  rewrite Hrs in Hhd. unfold main_representation_size in Hhd.
  destruct mlp_head; cbn [negb] in Hhd.
  - set (r := match representation_size with
              | Some r => r
              | None => arg_hidden_dim a
              end).
    assert (Er : match representation_size with
                 | Some r0 => Some r0
                 | None => Some (arg_hidden_dim a)
                 end = Some r) by (unfold r; now destruct representation_size).
    rewrite Er in Hhd.
    cbn [get_layer String.eqb Ascii.eqb Bool.eqb] in Hhd.
    unfold Linear_init at 1 in Hhd. unfold jax_lecun_normal in Hhd.
    destruct (math_sqrt_ratio 1 (arg_hidden_dim a)); cbn [bind] in Hhd;
      [|discriminate Hhd].
    injection Hhd as <-.
    cbn [update_layer String.eqb Ascii.eqb Bool.eqb map fst init_zeros_bias].
    split; [reflexivity|]. intros _.
    cbn [get_layer String.eqb Ascii.eqb Bool.eqb].
    eexists _, _. split; [reflexivity|].
    rewrite !length_tabulate. split; [reflexivity|]. split.
    + apply List.Forall_forall. intros row Hr. unfold tabulate at 1 in Hr.
      apply in_map_iff in Hr as (i & <- & Hi). apply in_seq in Hi.
      rewrite length_tabulate.
      erewrite nth_lookup_Some by (apply lookup_tabulate; lia).
      apply length_tabulate.
    + split; [|reflexivity].
      unfold zeros. rewrite (map_const_repeat _ 0%R) by reflexivity.
      now rewrite length_tabulate.
  - cbn [get_layer String.eqb Ascii.eqb Bool.eqb] in Hhd.
    injection Hhd as <-. split; [reflexivity | discriminate].
Qed.

Lemma main_head_layout_witness :
  exists m : SimpleVisionTransformer.t,
    SimpleVisionTransformer.init example_env
      {| arg_image_size := 224; arg_patch_size := 16; arg_num_layers := 12;
         arg_num_heads := 6; arg_hidden_dim := 384; arg_mlp_dim := 768;
         arg_dropout := 0%R; arg_attention_dropout := 0%R;
         arg_num_classes := 1000; arg_posemb := "sincos2d";
         arg_representation_size := main_representation_size true None 384;
         arg_pool_type := "gap"; arg_register := 0;
         arg_use_flash := true |} = Ok m
    /\ map fst (SimpleVisionTransformer.heads m) = ["pre_logits"; "act"; "head"].
Proof.
  set (a := {| arg_image_size := 224; arg_patch_size := 16;
               arg_num_layers := 12; arg_num_heads := 6;
               arg_hidden_dim := 384; arg_mlp_dim := 768;
               arg_dropout := 0%R; arg_attention_dropout := 0%R;
               arg_num_classes := 1000; arg_posemb := "sincos2d";
               arg_representation_size := main_representation_size true None 384;
               arg_pool_type := "gap"; arg_register := 0;
               arg_use_flash := true |}).
  assert (D : in_domain example_env a).
  { unfold in_domain, a. cbn. repeat split; try lia; try lra; discriminate. }
  destruct (init_outcome example_env a D) as (_ & _ & H).
  destruct H as [m Hm]; [reflexivity | reflexivity |].
  exists m. split; [exact Hm|].
  apply (proj1 (main_head_layout example_env a m true None eq_refl Hm)).
Defined.

(** ** The driver: top-k accuracy *)

Lemma count_true_nonneg (l : list bool) : 0 <= count_true l.
Proof.
  induction l as [|b l IH]; cbn [count_true fold_right]; [lia|].
  fold (count_true l). destruct b; lia.
Qed.

Lemma Zsum_app (l1 l2 : list Z) : Zsum (l1 ++ l2) = Zsum l1 + Zsum l2.
Proof.
  induction l1 as [|a l1 IH]; [reflexivity|].
  change (a + Zsum (l1 ++ l2) = a + Zsum l1 + Zsum l2). lia.
Qed.

Lemma Zsum_map_add {A : Type} (f g : A -> Z) (l : list A) :
  Zsum (map (fun a => f a + g a) l) = Zsum (map f l) + Zsum (map g l).
Proof.
  induction l as [|a l IH]; [reflexivity|].
  change (f a + g a + Zsum (map (fun a => f a + g a) l)
          = f a + Zsum (map f l) + (g a + Zsum (map g l))).
  lia.
Qed.

Lemma Zsum_map_zero {A : Type} (l : list A) : Zsum (map (fun _ => 0) l) = 0.
Proof. induction l as [|a l IH]; cbn; [reflexivity | exact IH]. Qed.

(** Among the first [K] entries of a list without repetitions, a value
    occurs at most once. *)
Lemma count_index_NoDup (p : list Z) (t : Z) (K : nat) :
  NoDup p -> (K <= length p)%nat ->
  Zsum (map (fun j => if nth j p 0 =? t then 1 else 0) (seq 0 K))
  = if bool_decide (t ∈ take K p) then 1 else 0.
Proof.
  intros Hp. revert K. induction Hp as [|a p Ha Hp IH]; intros K HK.
  - cbn in HK. replace K with 0%nat by lia. reflexivity.
  - destruct K as [|K]; [reflexivity|].
    cbn [seq map Zsum fold_right nth take].
    rewrite <- seq_shift, map_map. cbn [nth].
    fold (Zsum (map (fun j => if nth j p 0 =? t then 1 else 0) (seq 0 K))).
    rewrite IH by (cbn in HK; lia).
    change (take (S K) (a :: p)) with (a :: take K p).
    destruct (Z.eqb_spec a t) as [->|Hne].
    + rewrite (bool_decide_eq_true_2 (t ∈ t :: take K p)) by (left).
      rewrite (bool_decide_eq_false_2 (t ∈ take K p)); [reflexivity|].
      intros H. apply Ha. apply elem_of_take in H as (i & Hi & _).
      eapply list_elem_of_lookup_2; exact Hi.
    + destruct (bool_decide (t ∈ take K p)) eqn:E.
      * apply bool_decide_eq_true in E.
        rewrite bool_decide_eq_true_2 by (now right). reflexivity.
      * apply bool_decide_eq_false in E.
        rewrite bool_decide_eq_false_2; [reflexivity|].
        intros H. apply elem_of_cons in H as [H|H]; [congruence | contradiction].
Qed.

(** The boolean matrix [correct], summed over its first [K] rows, counts
    the samples that are hit. *)
Lemma correct_sum_samples (pred : list (list Z)) (target : list Z)
    (maxk K : nat) :
  Forall (fun p => length p = maxk /\ NoDup p) pred ->
  (K <= maxk)%nat ->
  Zsum (map count_true
          (map (fun p => zip_with Z.eqb p target)
               (map (fun j => map (fun row => nth j row 0) pred) (seq 0 K))))
  = samples_hit K pred target.
Proof.
  intros Hp HK. rewrite !map_map. unfold samples_hit.
  revert target. induction Hp as [|p pred [Hl Hn] _ IH]; intros target.
  - cbn [map zip_with count_true fold_right]. apply Zsum_map_zero.
  - destruct target as [|t target].
    + cbn [map zip_with count_true fold_right Zsum].
      apply Zsum_map_zero.
    + cbn [map zip_with count_true fold_right Zsum].
      fold (Zsum (zip_with (fun p0 t0 =>
                    if bool_decide (t0 ∈ take K p0) then 1 else 0) pred target)).
      rewrite <- IH, <- (count_index_NoDup p t K Hn) by lia.
      rewrite <- Zsum_map_add. f_equal.
Qed.
Lemma map_result_length {A B : Type} (f : A -> result B) (l : list A)
    (r : list B) :
  map_result f l = Ok r -> length r = length l.
Proof.
  revert r. induction l as [|a l IH]; intros r H; cbn [map_result] in H.
  - now injection H as <-.
  - destruct (f a); cbn [bind] in H; [|discriminate H].
    destruct (map_result f l); cbn [bind] in H; [|discriminate H].
    injection H as <-. cbn. now rewrite (IH _ eq_refl).
Qed.

(** The rows that [correct[:k]] keeps. *)
Lemma py_slice_to_correct (k maxk : Z) (pred : list (list Z))
    (target : list Z) :
  py_slice_to k
    (map (fun p => zip_with Z.eqb p target) (transpose (Z.to_nat maxk) pred))
  = map (fun p => zip_with Z.eqb p target)
      (map (fun j => map (fun row => nth j row 0) pred)
           (seq 0 (rows_kept k maxk))).
Proof.
  unfold py_slice_to, transpose, tabulate, rows_kept.
  rewrite !length_map, length_seq.
  destruct (0 <=? k); rewrite !firstn_map, take_seq; reflexivity.
Qed.

Lemma samples_hit_bounds (K : nat) (pred : list (list Z)) (target : list Z) :
  0 <= samples_hit K pred target <= Z.of_nat (length target).
Proof.
  unfold samples_hit. revert target.
  induction pred as [|p pred IH]; intros [|t target]; cbn [zip_with Zsum fold_right length];
    try lia.
  fold (Zsum (zip_with (fun p0 t0 =>
                if bool_decide (t0 ∈ take K p0) then 1 else 0) pred target)).
  specialize (IH target). destruct (bool_decide _); lia.
Qed.

Lemma samples_hit_mono (K1 K2 : nat) (pred : list (list Z)) (target : list Z) :
  (K1 <= K2)%nat -> samples_hit K1 pred target <= samples_hit K2 pred target.
Proof.
  intros HK. unfold samples_hit. revert target.
  induction pred as [|p pred IH]; intros [|t target]; cbn [zip_with Zsum fold_right];
    try lia.
  fold (Zsum (zip_with (fun p0 t0 =>
                if bool_decide (t0 ∈ take K1 p0) then 1 else 0) pred target)).
  fold (Zsum (zip_with (fun p0 t0 =>
                if bool_decide (t0 ∈ take K2 p0) then 1 else 0) pred target)).
  specialize (IH target).
  destruct (bool_decide (t ∈ take K1 p)) eqn:E1;
    destruct (bool_decide (t ∈ take K2 p)) eqn:E2; try lia.
  apply bool_decide_eq_true in E1. apply bool_decide_eq_false in E2.
  exfalso. apply E2. apply elem_of_take in E1 as (i & Hi & Hlt).
  apply elem_of_take. exists i. split; [exact Hi | lia].
Qed.

Lemma fraction_bounds (h B : Z) :
  0 <= h <= B -> 0 < B -> (0 <= inject_Z h * (1 / inject_Z B) <= 1)%Q.
Proof.
  intros Hh HB. destruct B as [|b|b]; try lia.
  unfold Qle, Qmult, Qdiv, Qinv, inject_Z. cbn. split; nia.
Qed.

(** X24. [accuracy] computes top-k accuracies as fractions.  Given that
    the library's [topk] returns, for each of the rows of a non-empty batch,
    [max(topk)] pairwise different indices, and one target per row, the
    call returns one number per entry [k] of [topk]: the number of samples
    whose target is among the first [k] predicted indices, divided by the
    batch size.  Each of these numbers lies between 0 and 1 (a fraction, not
    a percentage), and a larger [k] never gives a smaller one. *)
Theorem accuracy_counts_hits (topk_indices : vector -> Z -> result (list Z))
    (output : matrix) (target : list Z) (topk : list Z) (maxk : Z)
    (pred : list (list Z)) :
  py_max topk = Ok maxk ->
  map_result (fun row => topk_indices row maxk) output = Ok pred ->
  Forall (fun p => length p = Z.to_nat maxk /\ NoDup p) pred ->
  length target = length output -> output <> [] ->
  let value := fun k : Z =>
    (inject_Z (samples_hit (rows_kept k maxk) pred target)
     * (1 / inject_Z (Z.of_nat (length target))))%Q in
  accuracy topk_indices output target topk = Ok (map value topk)
  /\ (forall k : Z, (0 <= value k <= 1)%Q)
  /\ (forall k1 k2 : Z, 0 <= k1 <= k2 -> (value k1 <= value k2)%Q).
Proof.
  intros Hmax Hpred Hp Hlen Hne value.
  pose proof (map_result_length _ _ _ Hpred) as Lp.
  assert (HB : 0 < Z.of_nat (length target)).
  { destruct output; [congruence|]. rewrite Hlen. cbn. lia. }
  split; [|split].
  - unfold accuracy. rewrite Hmax. cbn [bind]. rewrite Hpred. cbn [bind].
    unfold expand_target. rewrite Lp, <- Hlen, Nat.eqb_refl. cbn [bind].
    apply map_result_total. intros k.
    rewrite truediv_returns.
    + cbn [bind]. unfold value. do 3 f_equal.
      rewrite py_slice_to_correct.
      apply (correct_sum_samples pred target (Z.to_nat maxk)); [exact Hp|].
      unfold rows_kept. lia.
    + intros E. unfold Qeq in E. cbn in E. lia.
  - intros k. apply fraction_bounds; [apply samples_hit_bounds | exact HB].
  - intros k1 k2 Hk. unfold value. apply Qmult_le_compat_r.
    + rewrite <- Zle_Qle. apply samples_hit_mono.
      unfold rows_kept.
      destruct (0 <=? k1) eqn:E1; destruct (0 <=? k2) eqn:E2; lia.
    + destruct (fraction_bounds 1 (Z.of_nat (length target))) as [H0 _];
        [lia | lia |].
      now rewrite Qmult_1_l in H0.
Qed.

Lemma accuracy_counts_hits_witness :
  accuracy (fun _ k => Ok (map Z.of_nat (seq 0 (Z.to_nat k))))
    [[1; 2; 3]; [3; 2; 1]]%R [0; 1] [1; 2]
  = Ok (map (fun k : Z =>
               Qmult
                 (inject_Z (samples_hit (rows_kept k 2) [[0; 1]; [0; 1]] [0; 1]))
                 (Qdiv 1 (inject_Z (Z.of_nat (length [0; 1])))))
            [1; 2]).
Proof.
  apply (proj1 (accuracy_counts_hits
                  (fun _ k => Ok (map Z.of_nat (seq 0 (Z.to_nat k))))
                  [[1; 2; 3]; [3; 2; 1]]%R [0; 1] [1; 2] 2 [[0; 1]; [0; 1]]
                  eq_refl eq_refl
                  ltac:(repeat constructor;
                        rewrite ?list_elem_of_singleton;
                        first [discriminate | apply not_elem_of_nil])
                  eq_refl ltac:(discriminate))).
Defined.

(** X25. The failures of [accuracy] itself: an empty [topk] raises
    [ValueError] at [max(topk)], before the outputs are looked at; and on a
    batch with at least one row for which the library's [topk] returns,
    targets that are neither one per row nor a single one raise
    [RuntimeError]: they cannot be expanded to the predictions. *)
Theorem accuracy_errors (topk_indices : vector -> Z -> result (list Z))
    (output : matrix) (target : list Z) (topk : list Z) :
  (topk = [] ->
   exists msg : string,
     accuracy topk_indices output target topk = Raise (ValueError msg))
  /\ (forall (maxk : Z) (pred : list (list Z)),
        py_max topk = Ok maxk ->
        output <> [] ->
        map_result (fun row => topk_indices row maxk) output = Ok pred ->
        length target <> length output -> length target <> 1%nat ->
        exists msg : string,
          accuracy topk_indices output target topk = Raise (RuntimeError msg)).
Proof.
  split.
  - intros ->. eexists. reflexivity.
  - intros maxk pred Hmax _ Hpred Hl H1.
    pose proof (map_result_length _ _ _ Hpred) as Lp.
    unfold accuracy. rewrite Hmax. cbn [bind]. rewrite Hpred. cbn [bind].
    unfold expand_target. rewrite Lp.
    destruct (Nat.eqb_spec (length target) (length output)) as [E|_];
      [contradiction|].
    destruct target as [|t [|t' target]]; cbn [bind];
      try (eexists; reflexivity).
    cbn in H1. congruence.
Qed.

Lemma accuracy_errors_witness :
  exists msg : string,
    accuracy (fun _ k => Ok (map Z.of_nat (seq 0 (Z.to_nat k))))
      [[1; 2; 3]]%R [0; 1; 2] [1; 2]
    = Raise (RuntimeError msg).
Proof.
  apply (proj2 (accuracy_errors
                  (fun _ k => Ok (map Z.of_nat (seq 0 (Z.to_nat k))))
                  [[1; 2; 3]]%R [0; 1; 2] [1; 2])
               2 [[0; 1]] eq_refl ltac:(discriminate) eq_refl
               ltac:(cbn; discriminate) ltac:(cbn; discriminate)).
Defined.

(** ** The driver: splitting a batch for gradient accumulation *)

Lemma split_every_concat {A : Type} (fuel size : nat) (t : list A) :
  (0 < size)%nat -> (length t <= fuel)%nat ->
  concat (split_every fuel size t) = t.
Proof.
  intros Hs. revert t. induction fuel as [|fuel IH]; intros t Hf.
  - destruct t; [reflexivity | cbn in Hf; lia].
  - destruct t as [|a t]; [reflexivity|].
    cbn [split_every concat]. rewrite IH.
    + apply take_drop.
    + rewrite length_drop. cbn [length] in *. lia.
Qed.

Lemma split_every_pieces {A : Type} (fuel size : nat) (t : list A) :
  (0 < size)%nat -> (length t <= fuel)%nat ->
  length (split_every fuel size t) = ((length t + size - 1) / size)%nat
  /\ Forall (fun piece => (0 < length piece <= size)%nat)
            (split_every fuel size t).
Proof.
  intros Hs. revert t. induction fuel as [|fuel IH]; intros t Hf.
  - destruct t; [|cbn in Hf; lia]. cbn. split; [|constructor].
    symmetry. apply Nat.div_small. lia.
  - destruct t as [|a t].
    + cbn. split; [|constructor]. symmetry. apply Nat.div_small. lia.
    + cbn [split_every]. set (l := a :: t) in *.
      assert (Hl : (0 < length l)%nat) by (cbn; lia).
      destruct (IH (drop size l)) as [IH1 IH2];
        [rewrite length_drop; lia|].
      split.
      * cbn [length]. rewrite IH1, length_drop.
        destruct (Nat.le_gt_cases size (length l)) as [Hge|Hlt].
        -- replace (length l + size - 1)%nat
             with (1 * size + (length l - size + size - 1))%nat by lia.
           rewrite Nat.div_add_l by lia. lia.
        -- replace (length l - size)%nat with 0%nat by lia.
           rewrite (Nat.div_small (0 + size - 1)) by lia.
           apply (Nat.div_unique _ _ 1 (length l - 1)); lia.
      * constructor; [|exact IH2]. rewrite length_take. lia.
Qed.

Lemma fold_left_min_same (c : nat) (ls : list nat) :
  Forall (fun n => n = c) ls -> fold_left Nat.min ls c = c.
Proof.
  induction 1 as [|n ls -> _ IH]; cbn [fold_left]; [reflexivity|].
  now rewrite Nat.min_id.
Qed.

Lemma tabulate_nth {A : Type} (l : list A) (d : A) :
  tabulate (length l) (fun j => nth j l d) = l.
Proof.
  unfold tabulate. induction l as [|a l IH]; [reflexivity|].
  cbn [length seq map nth]. f_equal.
  rewrite <- seq_shift, map_map. exact IH.
Qed.

Lemma map_result_Forall {A B : Type} (f : A -> result B) (g : A -> B)
    (l : list A) :
  Forall (fun a => f a = Ok (g a)) l -> map_result f l = Ok (map g l).
Proof.
  induction 1 as [|a l Ha _ IH]; cbn [map_result map]; [reflexivity|].
  now rewrite Ha, IH.
Qed.

(** The sizes of the pieces only depend on the number of rows. *)
Lemma split_every_lengths {A B : Type} (fuel size : nat) (t : list A)
    (t' : list B) :
  length t = length t' ->
  map (@length A) (split_every fuel size t)
  = map (@length B) (split_every fuel size t').
Proof.
  revert t t'. induction fuel as [|fuel IH]; intros t t' H; [reflexivity|].
  destruct t as [|a t], t' as [|b t']; try discriminate H; [reflexivity|].
  cbn [split_every map]. f_equal.
  - rewrite !length_take. now rewrite H.
  - apply IH. rewrite !length_drop. now rewrite H.
Qed.

(** X26. [chunk(n, device, *tensors)] with [n >= 1] on one or more
    tensors that all have the same positive number [L] of rows yields
    between 1 and [n] tuples (fewer than [n] when [ceil(L / n)] rows per
    piece exhaust the rows early), each tuple holding one piece per tensor,
    the pieces of a tuple having the same positive number of rows; and for
    every tensor the pieces it contributes, put one after the other in the
    order of the tuples, are exactly the tensor: each sample is used once,
    in order, with its rows of the other tensors. *)
Theorem chunk_covers_batch {A : Type} (n : Z) (tensors : list (list A))
    (L : nat) :
  1 <= n -> (0 < L)%nat -> tensors <> [] ->
  Forall (fun t => length t = L) tensors ->
  exists yielded : list (list (list A)),
    chunk n tensors = Ok yielded
    /\ (1 <= length yielded)%nat
    /\ Z.of_nat (length yielded) <= n
    /\ Forall (fun tuple =>
                 length tuple = length tensors
                 /\ exists r : nat,
                      (0 < r)%nat
                      /\ Forall (fun piece => length piece = r) tuple)
              yielded
    /\ (forall (i : nat) (t : list A),
          tensors !! i = Some t ->
          concat (map (fun tuple => nth i tuple []) yielded) = t).
Proof.
  intros Hn HL Hne Hlen. unfold chunk.
  destruct (Z.eqb_spec n 1) as [->|Hn1].
  - exists [tensors]. split; [reflexivity|]. split; [cbn; lia|].
    split; [cbn; lia|]. split.
    + constructor; [|constructor]. split; [reflexivity|].
      exists L. split; [exact HL | exact Hlen].
    + intros i t Hi. cbn [map concat].
      rewrite (nth_lookup_Some _ _ _ _ Hi). apply app_nil_r.
  - set (size := Z.to_nat ((Z.of_nat L + n - 1) / n)).
    assert (Hsize : (0 < size)%nat /\ Z.of_nat L <= n * Z.of_nat size).
    { unfold size.
      pose proof (Z.div_mod (Z.of_nat L + n - 1) n ltac:(lia)) as Hd.
      pose proof (Z.mod_pos_bound (Z.of_nat L + n - 1) n ltac:(lia)) as Hm.
      assert (1 <= (Z.of_nat L + n - 1) / n)
        by (apply Z.div_le_lower_bound; lia).
      split; [lia|]. rewrite Z2Nat.id by lia. lia. }
    destruct Hsize as [Hs Hcover].
    set (c := ((L + size - 1) / size)%nat).
    assert (Hc : (1 <= c)%nat /\ Z.of_nat c <= n).
    { unfold c. split.
      - apply Nat.div_le_lower_bound; lia.
      - assert ((L + size - 1) / size < Z.to_nat n + 1)%nat; [|lia].
        apply Nat.Div0.div_lt_upper_bound. nia. }
    assert (Hchunks : map_result (torch_chunk n) tensors
                      = Ok (map (split_every L size) tensors)).
    { apply map_result_Forall. eapply Forall_impl; [exact Hlen|].
      cbn. intros t Ht. unfold torch_chunk.
      destruct (Z.leb_spec n 0) as [|_]; [lia|]. rewrite Ht.
      destruct (Nat.eqb_spec L 0) as [|_]; [lia|]. reflexivity. }
    rewrite Hchunks. cbn [bind].
    assert (Hpieces : Forall (fun t => length (split_every L size t) = c) tensors).
    { eapply Forall_impl; [exact Hlen|]. cbn. intros t Ht.
      destruct (split_every_pieces L size t Hs ltac:(lia)) as [H1 _].
      rewrite H1, Ht. reflexivity. }
    assert (Hzip : py_zip (map (split_every L size) tensors)
                   = tabulate c (fun j =>
                       map (fun l' => nth j l' [])
                           (map (split_every L size) tensors))).
    { unfold py_zip. destruct tensors as [|t0 rest]; [congruence|].
      cbn [map]. apply Forall_cons in Hpieces as [H0 Hrest].
      rewrite H0. rewrite fold_left_min_same; [reflexivity|].
      rewrite Forall_map. apply List.Forall_forall. intros l' Hl'.
      apply in_map_iff in Hl' as (t & <- & Hin).
      rewrite List.Forall_forall in Hrest. now apply Hrest. }
    rewrite Hzip. eexists. split; [reflexivity|].
    rewrite length_tabulate. split; [apply Hc|]. split; [apply Hc|]. split.
    + apply List.Forall_forall. intros tuple Htup. unfold tabulate in Htup.
      apply in_map_iff in Htup as (j & <- & Hj). apply in_seq in Hj.
      rewrite !length_map. split; [reflexivity|].
      destruct tensors as [|t0 rest]; [congruence|].
      exists (length (nth j (split_every L size t0) [])). split.
      * apply Forall_cons in Hpieces as [H0 _].
        destruct (split_every_pieces L size t0 Hs) as [_ Hp];
          [apply Forall_cons in Hlen as [E _]; lia|].
        rewrite List.Forall_forall in Hp.
        apply (Hp (nth j (split_every L size t0) [])).
        apply nth_In. lia.
      * rewrite map_map. apply List.Forall_forall. intros piece Hp.
        apply in_map_iff in Hp as (t & <- & Hin).
        assert (Et : length t = length t0).
        { rewrite List.Forall_forall in Hlen.
          rewrite (Hlen t Hin), (Hlen t0); [reflexivity | now left]. }
        pose proof (split_every_lengths L size t t0 Et) as Hl.
        rewrite <- (map_nth (@length A) (split_every L size t) [] j).
        rewrite <- (map_nth (@length A) (split_every L size t0) [] j).
        now rewrite Hl.
    + intros i t Hi. unfold tabulate. rewrite map_map.
      assert (Hci : map (split_every L size) tensors !! i
                    = Some (split_every L size t))
        by (rewrite lookup_map, Hi; reflexivity).
      rewrite (map_ext _ (fun j => nth j (split_every L size t) [])).
      * assert (Ec : c = length (split_every L size t)).
        { rewrite List.Forall_forall in Hpieces. symmetry. apply Hpieces.
          apply list_elem_of_In. eapply list_elem_of_lookup_2; exact Hi. }
        rewrite Ec. fold (tabulate (length (split_every L size t))
                            (fun j => nth j (split_every L size t) [])).
        rewrite tabulate_nth. apply split_every_concat; [exact Hs|].
        rewrite List.Forall_forall in Hlen. rewrite (Hlen t); [lia|].
        apply list_elem_of_In. eapply list_elem_of_lookup_2; exact Hi.
      * intros j. apply nth_lookup_Some.
        rewrite lookup_map, Hci. reflexivity.
Qed.

Lemma chunk_covers_batch_witness :
  exists yielded : list (list (list Z)),
    chunk 4 [[10; 11; 12; 13; 14]; [0; 1; 0; 1; 0]] = Ok yielded
    /\ (1 <= length yielded)%nat
    /\ Z.of_nat (length yielded) <= 4
    /\ Forall (fun tuple =>
                 length tuple = length [[10; 11; 12; 13; 14]; [0; 1; 0; 1; 0]]
                 /\ exists r : nat,
                      (0 < r)%nat
                      /\ Forall (fun piece => length piece = r) tuple)
              yielded
    /\ (forall (i : nat) (t : list Z),
          [[10; 11; 12; 13; 14]; [0; 1; 0; 1; 0]] !! i = Some t ->
          concat (map (fun tuple => nth i tuple []) yielded) = t).
Proof.
  apply (chunk_covers_batch 4 [[10; 11; 12; 13; 14]; [0; 1; 0; 1; 0]] 5);
    [lia | lia | discriminate | repeat constructor].
Defined.

(** With 5 rows and 4 requested pieces there are only 3 pieces, of 2, 2 and
    1 rows. *)
Example chunk_fewer_pieces :
  chunk 4 [[10; 11; 12; 13; 14]; [0; 1; 0; 1; 0]]
  = Ok [[[10; 11]; [0; 1]]; [[12; 13]; [0; 1]]; [[14]; [0]]].
Proof. reflexivity. Qed.
